(** * Automotive parts pricing report: a shallow embedding of
    [automotive-pricing-intelligence.py]

    The script is a top-to-bottom pandas pipeline: load a workbook, strip
    text columns, resolve the logical columns, coerce them to numbers, drop
    duplicate rows and rows without price or part, derive four metric
    columns, write CSV extracts and two histograms, and print a manifest
    (with the "extra analytics" block nested in that last loop).

    The embedding keeps the script's names.  A number is a binary64 float
    (the kernel's primitive floats, i.e. numpy's float64, with NaN as the
    missing number) or an int64 integer, as pandas holds the column; text
    is a Python [str], carried by its UTF-8 bytes.  The table is kept row
    by row, every row carrying its pandas index label.  What the script
    delegates to pandas, numpy and matplotlib internals that are not part
    of the script (the text-to-number parser, the printing of a float, the
    argsort kernel behind [sort_values], the quantile interpolation, the
    histogram binning) is a field of the [Runtime] class; the pipeline is
    written once, over any runtime.  Two runtimes run it on concrete
    tables: a small one with a stable argsort, and the same with numpy's
    own argsort of an [object] array, the generic [npy_aquicksort].

    A text column has dtype [object], as [read_excel] delivers it; the
    other dtype, [float64], stands for a numeric column, whose cells say
    whether pandas holds it as float64 ([Num]) or as int64 ([Int]).  The
    theorems that sort, filter or coerce are stated for tables whose
    numeric columns are float64 ([well_formed]); the derived metrics are
    followed for int64 columns too ([loaded]).  A file is the table or the
    data it was written from.  Failures of the file system while writing
    are outside the embedding: [to_csv] and [savefig] succeed. *)

From Stdlib Require Import Floats ZArith String Ascii Bool Arith Lia DecimalString.
From Stdlib Require Import List Permutation Sorted.
Import ListNotations.

Local Open Scope string_scope.
Local Open Scope list_scope.

(** ** Values, rows and frames *)

Definition f64 := float.
Bind Scope float_scope with f64.

(** The dtype of a column: [object] for a column of Python objects (the
    text columns), [float64] for a numeric column. *)
Inductive dtype := float64 | object.

(** A cell of a DataFrame.  [Num] is a float (in a float64 column, or
    the float NaN that pandas stores for an empty cell of an [object]
    column), [Str] a Python [str], [NA] the scalar [pd.NA], [Int] an
    integer of an int64 column (or a Python [int] in an [object]
    column). *)
Inductive cell :=
| Num (x : f64)
| Str (s : string)
| NA
| Int (n : Z).

(** int64 arithmetic wraps around. *)
Definition wrap (z : Z) : Z := ((z + 2 ^ 63) mod 2 ^ 64 - 2 ^ 63)%Z.

(** The cast of an int64 to float64: the nearest float, ties to even. *)
Definition of_int (n : Z) : f64 := SF2Prim (binary_normalize prec emax n 0 false).

(** [pd.isna] on one value. *)
Definition isna (c : cell) : bool :=
  match c with
  | Num x => is_nan x
  | Str _ => false
  | NA => true
  | Int _ => false
  end.

(** The float behind a cell of a numeric column: what numpy computes
    with when it needs a float. *)
Definition num (c : cell) : f64 :=
  match c with
  | Num x => x
  | Int n => of_int n
  | _ => nan
  end.

Record row := Row { label : nat; cells : list cell }.

Record frame := Frame { columns : list (string * dtype); rows : list row }.

Definition names (df : frame) : list string := map fst (columns df).

(** [name in df.columns] *)
Definition has_col (df : frame) (name : string) : bool :=
  existsb (String.eqb name) (names df).

Fixpoint position (name : string) (cols : list string) : option nat :=
  match cols with
  | [] => None
  | c :: rest =>
      if String.eqb name c then Some 0
      else option_map S (position name rest)
  end.

(** [df[name]] read at one row.  The script reads a column only after it
    has checked that the column exists; an absent column reads as [NA]. *)
Definition cell_of (df : frame) (name : string) (r : row) : cell :=
  match position name (names df) with
  | Some i => nth i (cells r) NA
  | None => NA
  end.

Definition column (df : frame) (name : string) : list cell :=
  map (cell_of df name) (rows df).

Fixpoint set_nth {A : Type} (i : nat) (x : A) (l : list A) : list A :=
  match l, i with
  | [], _ => []
  | _ :: t, O => x :: t
  | h :: t, S j => h :: set_nth j x t
  end.

(** [df[name] = values], where [values] is computed row by row from the
    frame as it is before the assignment (a Series on the same index) or is
    a scalar.  An existing column is overwritten in place; a new one is
    appended on the right. *)
Definition assign (name : string) (dt : dtype) (f : row -> cell) (df : frame) : frame :=
  match position name (names df) with
  | Some i =>
      Frame (set_nth i (name, dt) (columns df))
            (map (fun r => Row (label r) (set_nth i (f r) (cells r))) (rows df))
  | None =>
      Frame (columns df ++ [(name, dt)])
            (map (fun r => Row (label r) (cells r ++ [f r])) (rows df))
  end.

(** [df[mask]] with the mask given row by row. *)
Definition select (keep : row -> bool) (df : frame) : frame :=
  Frame (columns df) (filter keep (rows df)).

(** [df.head(n)] *)
Definition head (n : nat) (df : frame) : frame :=
  Frame (columns df) (firstn n (rows df)).

(** ** The runtime underneath the script *)

(** Python's [<] between two values of a sorted column: floats by the
    IEEE comparison, strings by code point (which is the order of their
    UTF-8 bytes), integers as integers.  Values of different kinds do not
    occur together in one column that the script sorts. *)
Definition cell_ltb (a b : cell) : bool :=
  match a, b with
  | Num x, Num y => (x <? y)%float
  | Str s, Str t => String.ltb s t
  | Int m, Int n => (m <? n)%Z
  | _, _ => false
  end.

Class Runtime := {
  (** the scalar parser of [pd.to_numeric]; [None] where it fails *)
  to_float : string -> option f64;
  (** [str(x)] of a float that is not NaN *)
  float_repr : f64 -> string;
  (** [numpy.argsort(kind='quicksort')] on keys without missing values:
      the positions of the keys in ascending order *)
  argsort : list cell -> list nat;
  (** [Series.quantile(q)] of a float column *)
  quantile : list f64 -> f64 -> f64;
  (** whether [Series.hist(bins=20)] draws the data (matplotlib raises
      [ValueError] on data whose range is not finite) *)
  hist_ok : list f64 -> bool
}.

(** The keys that the laws of [argsort] below speak of: all of them
    floats, none NaN, or all of them strings. *)
Definition is_number (c : cell) : bool :=
  match c with Num x => negb (is_nan x) | _ => false end.

Definition is_text (c : cell) : bool :=
  match c with Str _ => true | _ => false end.

Definition comparable (ks : list cell) : Prop :=
  forallb is_number ks = true \/ forallb is_text ks = true.

(** [a] does not come after [b] in ascending order. *)
Definition cell_le (a b : cell) : Prop := cell_ltb b a = false.

(** What numpy promises of [argsort] whatever the kind: a permutation of
    the positions that puts comparable keys in ascending order. *)
Class RuntimeLaws (R : Runtime) : Prop := {
  argsort_perm : forall ks, Permutation (argsort ks) (seq 0 (length ks));
  argsort_sorted : forall ks, comparable ks ->
    StronglySorted cell_le (map (fun i => nth i ks NA) (argsort ks))
}.

(** A stable kind keeps the positions of tied keys in increasing order.
    pandas documents [mergesort] and [stable] as the only stable kinds;
    the script asks for the default, [quicksort]. *)
Definition tied (a b : cell) : Prop := cell_ltb a b = false /\ cell_ltb b a = false.

Definition stable_on (R : Runtime) (ks : list cell) : Prop :=
  forall p q, p < q < length ks ->
    tied (nth (nth p (argsort ks) 0) ks NA) (nth (nth q (argsort ks) 0) ks NA) ->
    nth p (argsort ks) 0 < nth q (argsort ks) 0.

(** ** pandas operations used by the script *)

Section Pandas.
Context {R : Runtime}.

(** The characters that [str.strip()] removes are those of
    [str.isspace]: U+0009..U+000D, U+001C..U+0020, U+0085, U+00A0, U+1680,
    U+2000..U+200A, U+2028, U+2029, U+202F, U+205F and U+3000.  In UTF-8
    the first ten are one byte each. *)
Definition is_space (a : ascii) : bool :=
  let n := nat_of_ascii a in
  ((9 <=? n)%nat && (n <=? 13)%nat) || ((28 <=? n)%nat && (n <=? 32)%nat).

(** U+0085 and U+00A0 are the two bytes C2 85 and C2 A0. *)
Definition is_space2 (a b : ascii) : bool :=
  let n := nat_of_ascii b in
  (nat_of_ascii a =? 194)%nat && ((n =? 133)%nat || (n =? 160)%nat).

(** U+1680 is E1 9A 80; U+2000..U+200A, U+2028, U+2029 and U+202F are
    E2 80 80..8A, A8, A9 and AF; U+205F is E2 81 9F; U+3000 is E3 80 80. *)
Definition is_space3 (a b c : ascii) : bool :=
  let l := nat_of_ascii a in
  let m := nat_of_ascii b in
  let n := nat_of_ascii c in
  ((l =? 225)%nat && (m =? 154)%nat && (n =? 128)%nat)
  || ((l =? 226)%nat && (m =? 128)%nat
      && (((128 <=? n)%nat && (n <=? 138)%nat)
          || (n =? 168)%nat || (n =? 169)%nat || (n =? 175)%nat))
  || ((l =? 226)%nat && (m =? 129)%nat && (n =? 159)%nat)
  || ((l =? 227)%nat && (m =? 128)%nat && (n =? 128)%nat).

(** [str.lstrip()]: the leading whitespace characters go. *)
Fixpoint lstrip (s : string) : string :=
  match s with
  | EmptyString => EmptyString
  | String a r1 =>
      if is_space a then lstrip r1
      else match r1 with
           | EmptyString => s
           | String b r2 =>
               if is_space2 a b then lstrip r2
               else match r2 with
                    | EmptyString => s
                    | String c r3 => if is_space3 a b c then lstrip r3 else s
                    end
           end
  end.

Definition reverse (s : string) : string :=
  string_of_list_ascii (rev (list_ascii_of_string s)).

(** The same on the bytes in reverse: a character shows its last byte
    first. *)
Fixpoint lstrip_reversed (s : string) : string :=
  match s with
  | EmptyString => EmptyString
  | String a r1 =>
      if is_space a then lstrip_reversed r1
      else match r1 with
           | EmptyString => s
           | String b r2 =>
               if is_space2 b a then lstrip_reversed r2
               else match r2 with
                    | EmptyString => s
                    | String c r3 => if is_space3 c b a then lstrip_reversed r3 else s
                    end
           end
  end.

(** [str.rstrip()] *)
Definition rstrip (s : string) : string := reverse (lstrip_reversed (reverse s)).

(** [str.strip()] *)
Definition strip (s : string) : string := rstrip (lstrip s).

(** One value under [Series.astype(str)]: a string stays, the float NaN of
    an empty cell becomes the text [nan], [pd.NA] becomes [<NA>], an
    integer is written in decimal. *)
Definition astype_str (c : cell) : string :=
  match c with
  | Str s => s
  | Num x => if is_nan x then "nan" else float_repr x
  | NA => "<NA>"
  | Int n => NilZero.string_of_int (Z.to_int n)
  end.

(** One value under [pd.to_numeric(..., errors='coerce')], as a float. *)
Definition to_numeric (c : cell) : f64 :=
  match c with
  | Num x => x
  | Str s => match to_float s with Some x => x | None => nan end
  | NA => nan
  | Int n => of_int n
  end.

(** Equality of two values as [drop_duplicates] sees it: two missing
    values are equal, floats and integers are compared with [==], strings
    by content. *)
Definition cell_same (a b : cell) : bool :=
  (isna a && isna b) ||
  match a, b with
  | Num x, Num y => (x =? y)%float
  | Str s, Str t => String.eqb s t
  | Int m, Int n => (m =? n)%Z
  | _, _ => false
  end.

Fixpoint cells_same (a b : list cell) : bool :=
  match a, b with
  | [], [] => true
  | x :: a', y :: b' => cell_same x y && cells_same a' b'
  | _, _ => false
  end.

Definition row_same (r s : row) : bool := cells_same (cells r) (cells s).

(** [DataFrame.duplicated(keep='first')] followed by the selection of the
    other rows: a row goes when a row above it is the same. *)
Fixpoint keep_first (above : list row) (rs : list row) : list row :=
  match rs with
  | [] => []
  | r :: rest =>
      if existsb (fun s => row_same s r) above
      then keep_first (r :: above) rest
      else r :: keep_first (r :: above) rest
  end.

Definition drop_duplicates (df : frame) : frame :=
  Frame (columns df) (keep_first [] (rows df)).

(** [df.dropna(subset=cols)] *)
Definition dropna (subset : list string) (df : frame) : frame :=
  select (fun r => forallb (fun c => negb (isna (cell_of df c r))) subset) df.

(** [pandas.core.sorting.nargsort] with [na_position='last']: the missing
    keys are set aside and come last in their original order; for a
    descending sort the other keys are reversed, sorted ascending, and the
    result is reversed again. *)
Definition nargsort (keys : list cell) (ascending : bool) : list nat :=
  let idx := seq 0 (length keys) in
  let non_nan_idx := filter (fun i => negb (isna (nth i keys NA))) idx in
  let nan_idx := filter (fun i => isna (nth i keys NA)) idx in
  let non_nan_idx := if ascending then non_nan_idx else rev non_nan_idx in
  let non_nans := map (fun i => nth i keys NA) non_nan_idx in
  let indexer := map (fun k => nth k non_nan_idx 0) (argsort non_nans) in
  let indexer := if ascending then indexer else rev indexer in
  indexer ++ nan_idx.

Definition take (indexer : list nat) (rs : list row) : list row :=
  map (fun i => nth i rs (Row 0 [])) indexer.

(** [df.sort_values(by=by, ascending=ascending)] on one column, default
    kind. *)
Definition sort_values (by_ : string) (ascending : bool) (df : frame) : frame :=
  Frame (columns df) (take (nargsort (column df by_) ascending) (rows df)).

End Pandas.

(** ** The world the script runs in *)

(** What a file holds: the input workbook (first sheet, as [read_excel]
    returns it), a CSV written with [to_csv(index=False)] (kept as the
    frame it was written from, labels included so that rows can be told
    apart), or a histogram saved with [savefig] (kept as its data). *)
Inductive artifact :=
| Workbook (df : frame)
| Csv (df : frame)
| Png (data : list f64).

(** One argument of a [print] call.  [Table] stands for a rendered Series
    or DataFrame, whose text is not modelled. *)
Inductive tok :=
| T (s : string)
| N (n : nat)
| Names (l : list string)
| Opt (o : option string)
| Table.

Definition line := list tok.

Inductive exn :=
| KeyError (key : string)
| ValueError (msg : string).

(** How a statement ends: normally, by [sys.exit(code)], or with an
    exception nothing catches. *)
Inductive result (A : Type) :=
| Ok (a : A)
| SystemExit (code : Z)
| Uncaught (e : exn).

Arguments Ok {A} a.
Arguments SystemExit {A} code.
Arguments Uncaught {A} e.

(** [disk] is the project folder as the run finds it, [written] the files
    the run has written so far and [stdout] the lines it has printed, both
    newest first. *)
Record world := World {
  disk : list (string * artifact);
  written : list (string * artifact);
  stdout : list line
}.

Definition M (A : Type) : Type := world -> result A * world.

Definition ret {A : Type} (a : A) : M A := fun w => (Ok a, w).

Definition bind {A B : Type} (m : M A) (k : A -> M B) : M B :=
  fun w =>
    match m w with
    | (Ok a, w') => k a w'
    | (SystemExit c, w') => (SystemExit c, w')
    | (Uncaught e, w') => (Uncaught e, w')
    end.

Declare Scope script_scope.
Delimit Scope script_scope with script.
Notation "x <- m ;; k" := (bind m (fun x => k))
  (at level 61, m at next level, right associativity) : script_scope.
Notation "m ;; k" := (bind m (fun _ => k))
  (at level 61, right associativity) : script_scope.
Local Open Scope script_scope.

Definition print (l : line) : M unit :=
  fun w => (Ok tt, World (disk w) (written w) (l :: stdout w)).

Definition sys_exit {A : Type} (code : Z) : M A := fun w => (SystemExit code, w).

Definition raise {A : Type} (e : exn) : M A := fun w => (Uncaught e, w).

Definition lookup {A : Type} (name : string) (l : list (string * A)) : option A :=
  option_map snd (find (fun p => String.eqb name (fst p)) l).

(** [os.path.exists(name)] *)
Definition path_exists (name : string) : M bool :=
  fun w => (Ok (match lookup name (written w), lookup name (disk w) with
                | None, None => false
                | _, _ => true
                end), w).

(** [pd.read_excel(name)]; a file that is not a workbook makes it raise. *)
Definition read_excel (name : string) : M frame :=
  fun w => match lookup name (disk w) with
           | Some (Workbook df) => (Ok df, w)
           | _ => (Uncaught (ValueError "Excel file format cannot be determined"), w)
           end.

Definition write (name : string) (a : artifact) : M unit :=
  fun w => (Ok tt, World (disk w) ((name, a) :: written w) (stdout w)).

(** [df.to_csv(name, index=False)] *)
Definition to_csv (df : frame) (name : string) : M unit := write name (Csv df).

Fixpoint for_each {A : Type} (l : list A) (body : A -> M unit) : M unit :=
  match l with
  | [] => ret tt
  | x :: rest => body x ;; for_each rest body
  end.

(** The process exit status: 0 when the script runs off its end, the code
    given to [sys.exit], 1 when an exception reaches the top level. *)
Definition exit_status {A : Type} (r : result A) : Z :=
  match r with
  | Ok _ => 0
  | SystemExit c => c
  | Uncaught _ => 1
  end.

(** ** The script *)

Section Script.
Context {R : Runtime}.

Definition nl : string := String (ascii_of_nat 10) EmptyString.

Definition file_name : string := "automotive_pricing_bi_dataset.xlsx".

(** Lines 14-23: the existence guard and the load. *)
Definition load : M frame :=
  found <- path_exists file_name ;;
  if negb found then
    print [T "ERROR: Excel file not found in project folder:"; T file_name] ;;
    print [T "Please put the file in the same folder as this script and run again."] ;;
    sys_exit 1
  else
    df <- read_excel file_name ;;
    print [T "Loaded file. Rows:"; N (length (rows df)); T "Columns:"; N (length (columns df))] ;;
    print [T "Column names:"; Names (names df)] ;;
    ret df.

(** Lines 26-31: [astype(str).str.strip()] on every [object] column.  The
    [try] around the assignment has nothing to catch here. *)
Definition text_cols (df : frame) : list string :=
  map fst (filter (fun c => match snd c with object => true | float64 => false end) (columns df)).

(** Line 29, one turn of the loop: [df[c] = df[c].astype(str).str.strip()]. *)
Definition strip_step (d : frame) (c : string) : frame :=
  assign c object (fun r => Str (strip (astype_str (cell_of d c r)))) d.

Definition strip_text (df : frame) : frame :=
  fold_left strip_step (text_cols df) df.

(** Lines 35-39. *)
Fixpoint find_col (df : frame) (possible_names : list string) : option string :=
  match possible_names with
  | [] => None
  | name :: rest => if has_col df name then Some name else find_col df rest
  end.

Record col_map := ColMap {
  price : option string;
  competitor_price : option string;
  cost : option string;
  units : option string;
  part : option string
}.

(** Lines 41-45. *)
Definition resolve (df : frame) : col_map :=
  ColMap (find_col df ["Price"; "price"; "Unit_Price"])
         (find_col df ["Competitor_Price"; "competitor_price"; "Comp_Price"; "Competitor price"])
         (find_col df ["Cost"; "cost"; "Unit_Cost"])
         (find_col df ["Units_Sold"; "Units"; "Quantity"; "units_sold"])
         (find_col df ["Part_Name"; "Part"; "Part_ID"; "PartName"]).

(** [pd.to_numeric] leaves the integers of an int64 column as they are;
    every other value becomes a float. *)
Definition coerce_cell (c : cell) : cell :=
  match c with
  | Int n => Int n
  | _ => Num (to_numeric c)
  end.

(** Lines 52-55, one turn of the loop. *)
Definition coerce_col (col : option string) (df : frame) : frame :=
  match col with
  | Some c => assign c float64 (fun r => coerce_cell (cell_of df c r)) df
  | None => df
  end.

Definition coerce (cm : col_map) (df : frame) : frame :=
  coerce_col (units cm)
    (coerce_col (cost cm)
      (coerce_col (competitor_price cm)
        (coerce_col (price cm) df))).

(** [a - b] between two numeric columns, at one row: in int64, wrapping
    around, when both columns are int64; in float64 otherwise. *)
Definition cell_sub (a b : cell) : cell :=
  match a, b with
  | Int m, Int n => Int (wrap (m - n))
  | _, _ => Num (num a - num b)%float
  end.

(** [a * b], likewise. *)
Definition cell_mul (a b : cell) : cell :=
  match a, b with
  | Int m, Int n => Int (wrap (m * n))
  | _, _ => Num (num a * num b)%float
  end.

(** [a / b * 100]: the division of pandas is the true division, in float64
    whatever the columns are. *)
Definition cell_pct (a b : cell) : cell := Num (num a / num b * 100)%float.

(** Lines 72-80: the four derived columns.  A column whose source is not
    resolved is filled with the scalar [pd.NA]. *)
Definition derive (cm : col_map) (pr : string) (df : frame) : frame :=
  let cp := competitor_price cm in
  let co := cost cm in
  let un := units cm in
  let df :=
    match cp with
    | Some cp => assign "Price_diff" float64
                   (fun r => cell_sub (cell_of df pr r) (cell_of df cp r)) df
    | None => assign "Price_diff" object (fun _ => NA) df
    end in
  let df :=
    match cp with
    | Some cp => assign "Price_pct_diff" float64
                   (fun r => cell_pct (cell_of df "Price_diff" r) (cell_of df cp r)) df
    | None => assign "Price_pct_diff" object (fun _ => NA) df
    end in
  let df :=
    match co with
    | Some co => assign "Margin" float64
                   (fun r => cell_sub (cell_of df pr r) (cell_of df co r)) df
    | None => assign "Margin" object (fun _ => NA) df
    end in
  match un with
  | Some un => assign "Revenue_calc" float64
                 (fun r => cell_mul (cell_of df pr r) (cell_of df un r)) df
  | None => assign "Revenue_calc" object (fun _ => NA) df
  end.

Definition clean_name : string := "cleaned_automotive_pricing.csv".

(** Lines 90-93. *)
Definition rev_col (df : frame) : string :=
  let rev_col := match find_col df ["Revenue"; "revenue"] with
                 | Some c => c
                 | None => "Revenue_calc"
                 end in
  if negb (has_col df rev_col) then "Revenue_calc" else rev_col.

Definition top_revenue (df : frame) : frame :=
  head 20 (sort_values (rev_col df) false df).

(** Line 99. *)
Definition overpriced (df : frame) : frame :=
  sort_values "Price_pct_diff" false
    (select (fun r => (10 <? num (cell_of df "Price_pct_diff" r))%float) df).

(** Lines 108-110. *)
Definition margin_q (df : frame) : f64 :=
  quantile (map num (column df "Margin")) 0.25%float.

Definition units_q (un : string) (df : frame) : f64 :=
  quantile (map num (column df un)) 0.75%float.

Definition low_margin_high_sales (un : string) (df : frame) : frame :=
  sort_values un false
    (select (fun r => (num (cell_of df "Margin" r) <=? margin_q df)%float
                      && (units_q un df <=? num (cell_of df un r))%float) df).

(** Lines 83-114: the CSV outputs. *)
Definition export (cm : col_map) (df : frame) : M unit :=
  to_csv df clean_name ;;
  print [T (nl ++ "✅ Cleaned CSV saved as:"); T clean_name] ;;
  to_csv (top_revenue df) "top20_by_revenue.csv" ;;
  print [T "Top 20 by revenue saved to top20_by_revenue.csv"] ;;
  match competitor_price cm with
  | Some _ =>
      to_csv (overpriced df) "parts_overpriced_gt10pct.csv" ;;
      print [T "Parts priced >10% above competitor saved to parts_overpriced_gt10pct.csv"]
  | None =>
      print [T "Competitor price column not found — skipping overpriced list."]
  end ;;
  match cost cm, units cm with
  | Some _, Some un =>
      to_csv (low_margin_high_sales un df) "low_margin_high_sales.csv" ;;
      print [T "Low margin & high sales parts saved to low_margin_high_sales.csv"]
  | _, _ =>
      print [T "Cost or Units column not found — skipping low-margin-high-sales list."]
  end.

(** [df[c].dropna().hist(bins=20)] and the [savefig] after it. *)
Definition hist (df : frame) (c name : string) : M unit :=
  let data := filter (fun x => negb (is_nan x)) (map num (column df c)) in
  if hist_ok data then write name (Png data)
  else raise (ValueError "supplied range is not finite").

(** Lines 117-138. *)
Definition charts (cm : col_map) (pr : string) (df : frame) : M unit :=
  hist df pr "chart_price_distribution.png" ;;
  print [T "Saved chart_price_distribution.png"] ;;
  match competitor_price cm with
  | Some _ =>
      hist df "Price_pct_diff" "chart_price_pct_diff.png" ;;
      print [T "Saved chart_price_pct_diff.png"]
  | None =>
      print [T "No competitor price -> skipped chart_price_pct_diff"]
  end.

(** A column read that raises [KeyError] when the column is absent. *)
Definition require (df : frame) (name : string) : M unit :=
  if has_col df name then ret tt else raise (KeyError name).

Definition extra_banner : line := [T (nl ++ "--- EXTRA ANALYTICS SUMMARY ---")].

(** Lines 153-171.  The aggregates are only printed; what is modelled of
    them is the columns they read. *)
Definition extra_body (df : frame) : M unit :=
  require df "Brand" ;;
  require df "Revenue" ;;
  print [T (nl ++ "💰 Revenue by Brand:")] ;;
  print [Table] ;;
  require df "Region" ;;
  require df "Gross_Margin_%" ;;
  print [T (nl ++ "🌍 Average Gross Margin (%) by Region:")] ;;
  print [Table] ;;
  require df "Profit" ;;
  to_csv (head 10 (sort_values "Profit" false df)) "top10_profitable_parts.csv" ;;
  print [T (nl ++ "📈 Top 10 profitable parts saved to top10_profitable_parts.csv")] ;;
  print [T (nl ++ "📊 Correlation between Cost, Price, and Profit:")] ;;
  require df "Cost" ;;
  require df "Price" ;;
  print [Table] ;;
  print [T (nl ++ "✅ Extra analytics completed.")].

(** Lines 150-171, the "extra analytics" block: everything under
    [if os.path.exists(f)] after the manifest line. *)
Definition extra_analytics (df : frame) : M unit :=
  print extra_banner ;;
  extra_body df.

Definition manifest_names : list string :=
  ["cleaned_automotive_pricing.csv"; "top20_by_revenue.csv";
   "parts_overpriced_gt10pct.csv"; "low_margin_high_sales.csv";
   "chart_price_distribution.png"; "chart_price_pct_diff.png"].

(** Lines 144-171: one turn of the manifest loop. *)
Definition manifest_entry (df : frame) (f : string) : M unit :=
  found <- path_exists f ;;
  if found then
    print [T " -"; T f] ;;
    extra_analytics df
  else ret tt.

(** Lines 140-171. *)
Definition manifest (df : frame) : M unit :=
  print [T (nl ++ "All done. Output files in project folder:")] ;;
  for_each manifest_names (manifest_entry df).

(** Lines 26-61: everything between the load and the mandatory-column
    guard. *)
Definition prepare (df : frame) : frame :=
  let df := strip_text df in
  drop_duplicates (coerce (resolve df) df).

(** Lines 82-171: everything after the derived columns. *)
Definition report (cm : col_map) (pr : string) (df : frame) : M unit :=
  export cm df ;;
  charts cm pr df ;;
  manifest df.

(** The whole script. *)
Definition script : M unit :=
  df <- load ;;
  let df := strip_text df in
  let cm := resolve df in
  print [T (nl ++ "Detected columns (may be None if missing):")] ;;
  print [T "price"; T "->"; Opt (price cm)] ;;
  print [T "competitor_price"; T "->"; Opt (competitor_price cm)] ;;
  print [T "cost"; T "->"; Opt (cost cm)] ;;
  print [T "units"; T "->"; Opt (units cm)] ;;
  print [T "part"; T "->"; Opt (part cm)] ;;
  let df := coerce cm df in
  let before := length (rows df) in
  let df := drop_duplicates df in
  let after := length (rows df) in
  print [T (nl ++ "Removed duplicates: "); N (before - after); T " rows dropped"] ;;
  match price cm, part cm with
  | Some pr, Some pa =>
      let df := dropna [pr; pa] df in
      print [T "Rows after dropping missing key fields:"; N (length (rows df))] ;;
      let df := derive cm pr df in
      report cm pr df
  | _, _ =>
      print [T "ERROR: Required column(s) missing (price or part). Please check column names and run again."] ;;
      sys_exit 1
  end.

(** One run of the script in a project folder. *)
Definition run (folder : list (string * artifact)) : result unit * world :=
  script (World folder [] []).

End Script.

(** ** A small runtime, to run the script on concrete tables *)

(** The parser of the small runtime reads unsigned decimal integers and
    nothing else (pandas reads far more); the tables below keep their
    numbers in numeric columns, or as text of that form. *)
Definition digit_of (a : ascii) : option f64 :=
  let n := nat_of_ascii a in
  if ((48 <=? n)%nat && (n <=? 57)%nat)
  then Some (nth (n - 48) [0; 1; 2; 3; 4; 5; 6; 7; 8; 9]%float 0%float)
  else None.

Fixpoint parse_digits (acc : f64) (s : string) : option f64 :=
  match s with
  | EmptyString => Some acc
  | String a rest =>
      match digit_of a with
      | Some d => parse_digits (acc * 10 + d)%float rest
      | None => None
      end
  end.

Definition parse_unsigned (s : string) : option f64 :=
  match s with
  | EmptyString => None
  | _ => parse_digits 0%float s
  end.

(** Insertion of position [i] into positions already in ascending key
    order, before the first position whose key is not smaller. *)
Fixpoint insert_pos (ks : list cell) (i : nat) (sorted : list nat) : list nat :=
  match sorted with
  | [] => [i]
  | j :: rest =>
      if cell_ltb (nth j ks NA) (nth i ks NA)
      then j :: insert_pos ks i rest
      else i :: j :: rest
  end.

Fixpoint insertion_sort (ks : list cell) (l : list nat) : list nat :=
  match l with
  | [] => []
  | i :: rest => insert_pos ks i (insertion_sort ks rest)
  end.

(** A stable argsort. *)
Definition stable_argsort (ks : list cell) : list nat :=
  insertion_sort ks (seq 0 (length ks)).

Fixpoint insert_float (x : f64) (sorted : list f64) : list f64 :=
  match sorted with
  | [] => [x]
  | y :: rest => if (y <? x)%float then y :: insert_float x rest else x :: y :: rest
  end.

Fixpoint float_of_nat (n : nat) : f64 :=
  match n with
  | O => 0%float
  | S m => (float_of_nat m + 1)%float
  end.

(** Linear interpolation between the two order statistics around
    [(n - 1) * q], over the values that are not NaN; NaN when there is
    none. *)
Definition linear_quantile (xs : list f64) (q : f64) : f64 :=
  let vs := fold_right insert_float [] (filter (fun x => negb (is_nan x)) xs) in
  match length vs with
  | O => nan
  | S m =>
      let h := (float_of_nat m * q)%float in
      let lo := length (filter (fun k => (float_of_nat k <=? h)%float) (seq 1 m)) in
      let g := (h - float_of_nat lo)%float in
      let a := nth lo vs nan in
      let b := nth (Nat.min (S lo) m) vs nan in
      if (g <? 0.5)%float then (a + (b - a) * g)%float
      else (b - (b - a) * (1 - g))%float
  end.

Definition finite_range (data : list f64) : bool :=
  forallb (fun x => negb (is_infinity x)) data.

Definition small_runtime : Runtime := {|
  to_float := parse_unsigned;
  float_repr := fun _ => "<float>";
  argsort := stable_argsort;
  quantile := linear_quantile;
  hist_ok := finite_range
|}.

(** ** numpy's default argsort *)

(** [numpy.argsort(kind='quicksort')] on an array that has no typed
    kernel, as the [object] array of a text column has none: the generic
    [npy_aquicksort] of numpy's [npysort/quicksort.cpp], an introsort on
    the array [tosort] of positions, which compares with the [<] of the
    values.  A segment of more than 17 positions is partitioned around
    the median of its first, middle and last key; a shorter one is sorted
    by insertion; a segment reached after more than [2 * floor(log2 n)]
    partitions is sorted by [npy_aheapsort].  The pointers [pl], [pr],
    [pi], [pj] of the C code are positions in [tosort] here.  (For a
    float64 or int64 array numpy has typed kernels, vectorised on some
    processors; they are not embedded.) *)
Section Quicksort.
Variable v : list cell.

(** [cmp(v + a*elsize, v + b*elsize, arr) < 0] *)
Definition less (a b : nat) : bool := cell_ltb (nth a v NA) (nth b v NA).

Definition INTP_SWAP (i j : nat) (tosort : list nat) : list nat :=
  set_nth i (nth j tosort 0) (set_nth j (nth i tosort 0) tosort).

(** [do { ++pi; } while (cmp(v[*pi], vp) < 0 && pi < pj);] *)
Fixpoint scan_up (fuel : nat) (tosort : list nat) (vp pi pj : nat) : nat :=
  match fuel with
  | O => pi
  | S fuel' =>
      let pi := S pi in
      if less (nth pi tosort 0) vp && (pi <? pj)%nat then scan_up fuel' tosort vp pi pj else pi
  end.

(** [do { --pj; } while (cmp(vp, v[*pj]) < 0 && pi < pj);] *)
Fixpoint scan_down (fuel : nat) (tosort : list nat) (vp pi pj : nat) : nat :=
  match fuel with
  | O => pj
  | S fuel' =>
      let pj := pj - 1 in
      if less vp (nth pj tosort 0) && (pi <? pj)%nat then scan_down fuel' tosort vp pi pj else pj
  end.

(** The [for (;;)] loop of the partition; [vp] is the position of the
    pivot's key in [v]. *)
Fixpoint partition_loop (fuel : nat) (tosort : list nat) (vp pi pj : nat)
  : list nat * nat :=
  match fuel with
  | O => (tosort, pi)
  | S fuel' =>
      let pi := scan_up (length tosort) tosort vp pi pj in
      let pj := scan_down (length tosort) tosort vp pi pj in
      if (pj <=? pi)%nat then (tosort, pi)
      else partition_loop fuel' (INTP_SWAP pi pj tosort) vp pi pj
  end.

(** One partition of the segment [pl..pr]: the new [tosort] and the final
    place [pi] of the pivot. *)
Definition aquicksort_partition (tosort : list nat) (pl pr : nat) : list nat * nat :=
  let pm := pl + (pr - pl) / 2 in
  let tosort := if less (nth pm tosort 0) (nth pl tosort 0)
                then INTP_SWAP pm pl tosort else tosort in
  let tosort := if less (nth pr tosort 0) (nth pm tosort 0)
                then INTP_SWAP pr pm tosort else tosort in
  let tosort := if less (nth pm tosort 0) (nth pl tosort 0)
                then INTP_SWAP pm pl tosort else tosort in
  let vp := nth pm tosort 0 in
  let tosort := INTP_SWAP pm (pr - 1) tosort in
  let (tosort, pi) := partition_loop (length tosort) tosort vp pl (pr - 1) in
  (INTP_SWAP pi (pr - 1) tosort, pi).

(** [while (pj > pl && cmp(vp, v[*pk]) < 0) { *pj-- = *pk--; }] *)
Fixpoint shift_up (fuel : nat) (tosort : list nat) (vp pl pj : nat) : list nat * nat :=
  match fuel with
  | O => (tosort, pj)
  | S fuel' =>
      if (pl <? pj)%nat && less vp (nth (pj - 1) tosort 0)
      then shift_up fuel' (set_nth pj (nth (pj - 1) tosort 0) tosort) vp pl (pj - 1)
      else (tosort, pj)
  end.

(** The insertion sort of a short segment: [count] positions, from [pi]
    on, are still to be inserted. *)
Fixpoint insert_from (count : nat) (tosort : list nat) (pl pi : nat) : list nat :=
  match count with
  | O => tosort
  | S count' =>
      let vi := nth pi tosort 0 in
      let (tosort, pj) := shift_up (length tosort) tosort vi pl pi in
      insert_from count' (set_nth pj vi tosort) pl (S pi)
  end.

(** [npy_aheapsort] on the [n] positions from [pl] on.  The C code
    indexes them from 1, as [a[1..n]]. *)
Definition heap_get (tosort : list nat) (pl k : nat) : nat := nth (pl + k - 1) tosort 0.

Definition heap_set (tosort : list nat) (pl k x : nat) : list nat :=
  set_nth (pl + k - 1) x tosort.

(** [for (i = l, j = l << 1; j <= n;) { ... } a[i] = tmp;] *)
Fixpoint sift_down (fuel : nat) (tosort : list nat) (pl n tmp i j : nat) : list nat :=
  match fuel with
  | O => heap_set tosort pl i tmp
  | S fuel' =>
      if (j <=? n)%nat then
        let j := if (j <? n)%nat && less (heap_get tosort pl j) (heap_get tosort pl (S j))
                 then S j else j in
        if less tmp (heap_get tosort pl j)
        then sift_down fuel' (heap_set tosort pl i (heap_get tosort pl j)) pl n tmp j (j + j)
        else heap_set tosort pl i tmp
      else heap_set tosort pl i tmp
  end.

(** [for (l = n >> 1; l > 0; --l)] *)
Fixpoint heapify (l : nat) (tosort : list nat) (pl n : nat) : list nat :=
  match l with
  | O => tosort
  | S l' =>
      heapify l' (sift_down (length tosort) tosort pl n (heap_get tosort pl l) l (2 * l)) pl n
  end.

(** [for (; n > 1;)] *)
Fixpoint sort_down (n : nat) (tosort : list nat) (pl : nat) : list nat :=
  match n with
  | S (S _ as n') =>
      let tmp := heap_get tosort pl n in
      let tosort := heap_set tosort pl n (heap_get tosort pl 1) in
      sort_down n' (sift_down (length tosort) tosort pl n' tmp 1 2) pl
  | _ => tosort
  end.

Definition npy_aheapsort (tosort : list nat) (pl n : nat) : list nat :=
  sort_down n (heapify (n / 2) tosort pl n) pl.

(** The outer loop.  [stack] holds the segments put aside with the depth
    left for them; [entered] says that the segment [pl..pr] comes from a
    partition, so that the test of [cdepth] at the top of the C loop is
    not made (again) for it.  Every turn partitions a segment or finishes
    one, so [2 * n + 2] turns do for [n] keys. *)
Fixpoint aquicksort_loop (fuel : nat) (tosort : list nat) (pl pr : nat)
         (stack : list (nat * nat * Z)) (cdepth : Z) (entered : bool) : list nat :=
  match fuel with
  | O => tosort
  | S fuel' =>
      let stack_pop (tosort : list nat) :=
        match stack with
        | [] => tosort
        | (pl', pr', cdepth') :: rest => aquicksort_loop fuel' tosort pl' pr' rest cdepth' false
        end in
      if negb entered && (cdepth <? 0)%Z then
        stack_pop (npy_aheapsort tosort pl (pr - pl + 1))
      else if (16 <? pr - pl)%nat then
        let (tosort, pi) := aquicksort_partition tosort pl pr in
        if (pi - pl <? pr - pi)%nat
        then aquicksort_loop fuel' tosort pl (pi - 1)
                             ((pi + 1, pr, (cdepth - 1)%Z) :: stack) (cdepth - 1)%Z true
        else aquicksort_loop fuel' tosort (pi + 1) pr
                             ((pl, pi - 1, (cdepth - 1)%Z) :: stack) (cdepth - 1)%Z true
      else
        stack_pop (insert_from (pr - pl) tosort pl (S pl))
  end.

End Quicksort.

(** [npy_get_msb(num) * 2], the depth at which the introsort gives up on
    partitioning. *)
Definition depth_limit (num : nat) : Z := (2 * Z.log2 (Z.of_nat num))%Z.

Definition npy_aquicksort (v : list cell) : list nat :=
  let num := length v in
  aquicksort_loop v (2 * num + 2) (seq 0 num) 0 (num - 1) [] (depth_limit num) false.

(** The small runtime with numpy's argsort in the place of the stable
    one. *)
Definition numpy_runtime : Runtime := {|
  to_float := parse_unsigned;
  float_repr := fun _ => "<float>";
  argsort := npy_aquicksort;
  quantile := linear_quantile;
  hist_ok := finite_range
|}.

(** * The vocabulary of the statements *)

(** The predicates, the intermediate tables and the concrete tables that
    the properties below are stated with. *)

Section Vocabulary.
Context {R : Runtime}.

(** The NaN of the specification floats. *)
Definition SFnan (a : spec_float) : bool :=
  match a with S754_nan => true | _ => false end.

(** The positions of the keys that are present, and of those missing. *)
Definition present (ks : list cell) : list nat :=
  filter (fun i => negb (isna (nth i ks NA))) (seq 0 (length ks)).

Definition absent (ks : list cell) : list nat :=
  filter (fun i => isna (nth i ks NA)) (seq 0 (length ks)).

(** The keys a sort compares: those present are all numbers or all text. *)
Definition sortable (ks : list cell) : Prop :=
  comparable (filter (fun c => negb (isna c)) ks).

(** A frame sorted descending on [c]: the rows whose key is present come
    first, in descending key order; the rows whose key is missing follow. *)
Definition descending_missing_last (ks : list cell) : Prop :=
  exists front back,
    ks = front ++ back /\
    forallb (fun c => negb (isna c)) front = true /\
    forallb isna back = true /\
    StronglySorted (fun a b => cell_le b a) front.

(** [df[c].dtype], when [df] has a column [c]. *)
Definition dtype_of (df : frame) (c : string) : option dtype := lookup c (columns df).

(** The row that [df[c] = f] makes of a row of [df]. *)
Definition assign_row (df : frame) (c : string) (f : row -> cell) (r : row) : row :=
  match position c (names df) with
  | Some i => Row (label r) (set_nth i (f r) (cells r))
  | None => Row (label r) (cells r ++ [f r])
  end.

(** Every row is as wide as the header. *)
Definition rectangular (df : frame) : Prop :=
  Forall (fun r => length (cells r) = length (columns df)) (rows df).

(** What [read_excel] delivers: a [float64] column holds floats, an
    [object] column holds anything. *)
Definition fits (dt : dtype) (c : cell) : bool :=
  match dt, c with
  | float64, Num _ => true
  | float64, _ => false
  | object, _ => true
  end.

(** What the text cleaning and the coercion leave: text in every [object]
    column. *)
Definition stripped (dt : dtype) (c : cell) : bool :=
  match dt, c with
  | float64, Num _ => true
  | object, Str _ => true
  | _, _ => false
  end.

(** What the script keeps from then on: text, or the [pd.NA] of an
    unresolved metric, in an [object] column. *)
Definition settled (dt : dtype) (c : cell) : bool :=
  match dt, c with
  | float64, Num _ => true
  | object, Str _ => true
  | object, NA => true
  | _, _ => false
  end.

(** Every cell of [df] is one that [ok] allows under the dtype of its
    column. *)
Definition typed (ok : dtype -> cell -> bool) (df : frame) : Prop :=
  rectangular df /\
  forall r c dt, In r (rows df) -> dtype_of df c = Some dt -> ok dt (cell_of df c r) = true.

(** A loaded table: distinct column names (pandas renames repeated
    headers), rows as wide as the header, floats in the float columns. *)
Definition well_formed (df : frame) : Prop :=
  NoDup (names df) /\ typed fits df.

(** The table after line 68, when price resolved to [pr] and part to
    [pa]: the cleaned table. *)
Definition cleaned (df0 : frame) (pr pa : string) : frame :=
  dropna [pr; pa] (prepare df0).

(** The table after line 80, which every output is taken from. *)
Definition derived (df0 : frame) (pr pa : string) : frame :=
  derive (resolve (strip_text df0)) pr (cleaned df0 pr pa).

(** [grows P Q w w']: from [w] to [w'] the folder is untouched, the files
    written have names in [P] and the lines printed are in [Q]. *)
Definition grows (P : string -> Prop) (Q : line -> Prop) (w w' : world) : Prop :=
  disk w' = disk w /\
  (exists files, written w' = files ++ written w /\ Forall (fun p => P (fst p)) files) /\
  (exists out, stdout w' = out ++ stdout w /\ Forall Q out).

(** [keeps P Q m]: [m] only does that, and never calls [sys.exit]. *)
Definition keeps {A : Type} (P : string -> Prop) (Q : line -> Prop) (m : M A) : Prop :=
  forall w, grows P Q w (snd (m w)) /\ forall c, fst (m w) <> SystemExit c.

(** The two images of lines 117-138. *)
Definition chart_name (f : string) : Prop :=
  f = "chart_price_distribution.png" \/ f = "chart_price_pct_diff.png".

(** The file that line 165 writes. *)
Definition top10_name (f : string) : Prop := f = "top10_profitable_parts.csv".

(** The files written after the export stage. *)
Definition side_name (f : string) : Prop := chart_name f \/ top10_name f.

(** Any line but the banner of the extra analytics block. *)
Definition not_banner (l : line) : Prop := l <> extra_banner.

(** The files of lines 83-114, newest first. *)
Definition exported (cm : col_map) (df : frame) : list (string * artifact) :=
  match cost cm, units cm with
  | Some _, Some un => [("low_margin_high_sales.csv", Csv (low_margin_high_sales un df))]
  | _, _ => []
  end ++
  match competitor_price cm with
  | Some _ => [("parts_overpriced_gt10pct.csv", Csv (overpriced df))]
  | None => []
  end ++
  [("top20_by_revenue.csv", Csv (top_revenue df)); (clean_name, Csv df)].

(** [df[c].dropna()], the data handed to [plt.hist]. *)
Definition hist_data (df : frame) (c : string) : list f64 :=
  filter (fun x => negb (is_nan x)) (map num (column df c)).

(** Both histograms can be drawn. *)
Definition charts_ok (cm : col_map) (pr : string) (df : frame) : bool :=
  hist_ok (hist_data df pr) &&
  match competitor_price cm with
  | Some _ => hist_ok (hist_data df "Price_pct_diff")
  | None => true
  end.

(** [subseq l l']: [l] is [l'] with some elements left out, order kept. *)
Inductive subseq {A : Type} : list A -> list A -> Prop :=
| subseq_nil : subseq [] []
| subseq_skip : forall x l l', subseq l l' -> subseq l (x :: l')
| subseq_keep : forall x l l', subseq l l' -> subseq (x :: l) (x :: l').

(** The rows that have no equal row above them, by position: what the
    words "keep the first occurrence" single out. *)
Definition first_occurrences (rs : list row) : list row :=
  map snd
    (filter (fun p => negb (existsb (fun s => row_same s (snd p)) (firstn (fst p) rs)))
            (combine (seq 0 (length rs)) rs)).

(** No name occurs twice. *)
Fixpoint distinct (l : list string) : bool :=
  match l with
  | [] => true
  | x :: rest => negb (existsb (String.eqb x) rest) && distinct rest
  end.

(** A row as wide as the header, every cell fitting its column. *)
Fixpoint fits_row (cols : list (string * dtype)) (cs : list cell) : bool :=
  match cols, cs with
  | [], [] => true
  | (_, dt) :: cols', c :: cs' => fits dt c && fits_row cols' cs'
  | _, _ => false
  end.

(** [well_formed], as a test that can be run. *)
Definition well_formedb (df : frame) : bool :=
  distinct (names df) && forallb (fun r => fits_row (columns df) (cells r)) (rows df).

(** The first character of [s], if [s] is long enough to show one, is not
    whitespace. *)
Definition starts_clean (s : string) : bool :=
  match s with
  | EmptyString => true
  | String a r1 =>
      negb (is_space a) &&
      match r1 with
      | EmptyString => true
      | String b r2 =>
          negb (is_space2 a b) &&
          match r2 with
          | EmptyString => true
          | String c _ => negb (is_space3 a b c)
          end
      end
  end.

(** The same of a string given last byte first. *)
Definition starts_clean_reversed (s : string) : bool :=
  match s with
  | EmptyString => true
  | String a r1 =>
      negb (is_space a) &&
      match r1 with
      | EmptyString => true
      | String b r2 =>
          negb (is_space2 b a) &&
          match r2 with
          | EmptyString => true
          | String c _ => negb (is_space3 c b a)
          end
      end
  end.

(** The no-break space U+00A0 and the ideographic space U+3000, in
    UTF-8. *)
Definition nbsp : string :=
  String (ascii_of_nat 194) (String (ascii_of_nat 160) EmptyString).

Definition ideographic_space : string :=
  String (ascii_of_nat 227) (String (ascii_of_nat 128) (String (ascii_of_nat 128) EmptyString)).

(** An integer that an int64 column can hold. *)
Definition int64 (n : Z) : bool := (- 2 ^ 63 <=? n)%Z && (n <? 2 ^ 63)%Z.

(** What [read_excel] delivers, whole-number columns included: a numeric
    column holds floats or int64 integers, an [object] column anything. *)
Definition holds (dt : dtype) (c : cell) : bool :=
  match dt, c with
  | float64, Num _ => true
  | float64, Int n => int64 n
  | float64, _ => false
  | object, _ => true
  end.

Definition is_int (c : cell) : bool :=
  match c with Int _ => true | _ => false end.

(** A numeric column is int64 as a whole or float64 as a whole. *)
Definition whole_columns (df : frame) : Prop :=
  forall c r r', dtype_of df c = Some float64 -> In r (rows df) -> In r' (rows df) ->
    is_int (cell_of df c r) = is_int (cell_of df c r').

(** A loaded table whose numeric columns may be int64: distinct column
    names, rows as wide as the header, numbers in the numeric columns, each
    numeric column of one kind. *)
Definition loaded (df : frame) : Prop :=
  NoDup (names df) /\ typed holds df /\ whole_columns df.

(** A row as wide as the header, every cell held by its column. *)
Fixpoint holds_row (cols : list (string * dtype)) (cs : list cell) : bool :=
  match cols, cs with
  | [], [] => true
  | (_, dt) :: cols', c :: cs' => holds dt c && holds_row cols' cs'
  | _, _ => false
  end.

(** [loaded], as a test that can be run. *)
Definition loadedb (df : frame) : bool :=
  distinct (names df) &&
  forallb (fun r => holds_row (columns df) (cells r)) (rows df) &&
  forallb (fun p =>
             match snd p with
             | float64 =>
                 forallb (fun r =>
                            forallb (fun r' => Bool.eqb (is_int (cell_of df (fst p) r))
                                                        (is_int (cell_of df (fst p) r')))
                                    (rows df))
                         (rows df)
             | object => true
             end)
          (columns df).

(** The numeric roles that resolved name numeric columns of [df]: the
    workbook holds numbers there, not text. *)
Definition numeric_roles (cm : col_map) (df : frame) : bool :=
  forallb (fun o => match o with
                    | Some c => match dtype_of df c with Some float64 => true | _ => false end
                    | None => true
                    end)
          [price cm; competitor_price cm; cost cm; units cm].

(** The names the four derived columns are written under. *)
Definition derived_names : list string :=
  ["Price_diff"; "Price_pct_diff"; "Margin"; "Revenue_calc"].

(** The names the four numeric roles can resolve to. *)
Definition numeric_names : list string :=
  ["Price"; "price"; "Unit_Price";
   "Competitor_Price"; "competitor_price"; "Comp_Price"; "Competitor price";
   "Cost"; "cost"; "Unit_Cost";
   "Units_Sold"; "Units"; "Quantity"; "units_sold"].

(** The names the part role can resolve to. *)
Definition part_names : list string := ["Part_Name"; "Part"; "Part_ID"; "PartName"].

(** A table with an empty part cell and an empty price cell, and a part
    name between a no-break space and an ideographic space. *)
Definition parts_with_gaps : frame :=
  Frame [("Price", float64); ("Part_Name", object)]
        [Row 0 [Num 10; Num nan]; Row 1 [Num nan; Str " bolt "];
         Row 2 [Num 7; Str (nbsp ++ "nut " ++ ideographic_space)]].

(** The dtype of a derived column: floats when its source resolved, a
    column of [pd.NA] otherwise. *)
Definition metric_dtype (source : option string) : dtype :=
  match source with Some _ => float64 | None => object end.

(** The four right-hand sides of lines 77-80, read off a frame [d]. *)
Definition price_diff (cp : option string) (pr : string) (d : frame) (r : row) : cell :=
  match cp with
  | Some cp => cell_sub (cell_of d pr r) (cell_of d cp r)
  | None => NA
  end.

Definition price_pct_diff (cp : option string) (d : frame) (r : row) : cell :=
  match cp with
  | Some cp => cell_pct (cell_of d "Price_diff" r) (cell_of d cp r)
  | None => NA
  end.

Definition margin (co : option string) (pr : string) (d : frame) (r : row) : cell :=
  match co with
  | Some co => cell_sub (cell_of d pr r) (cell_of d co r)
  | None => NA
  end.

Definition revenue_calc (un : option string) (pr : string) (d : frame) (r : row) : cell :=
  match un with
  | Some un => cell_mul (cell_of d pr r) (cell_of d un r)
  | None => NA
  end.

(** A table with all five roles: a part sold at 120 against a competitor
    at 100, and a part sold at 50 that costs 30 and sold 4 units. *)
Definition quoted_parts : frame :=
  Frame [("Price", float64); ("Competitor_Price", float64); ("Cost", float64);
         ("Units_Sold", float64); ("Part_Name", object)]
        [Row 0 [Num 120; Num 100; Num 80; Num 3; Str "pad"];
         Row 1 [Num 50; Num 40; Num 30; Num 4; Str "disc"]].

(** The same parts in a workbook of whole numbers, which pandas loads as
    int64 columns. *)
Definition whole_parts : frame :=
  Frame [("Price", float64); ("Competitor_Price", float64); ("Cost", float64);
         ("Units_Sold", float64); ("Part_Name", object)]
        [Row 0 [Int 120; Int 100; Int 80; Int 3; Str "pad"];
         Row 1 [Int 50; Int 40; Int 30; Int 4; Str "disc"]].

(** Whole numbers whose product leaves the floats that are exact, and
    then int64. *)
Definition large_parts : frame :=
  Frame [("Price", float64); ("Units_Sold", float64); ("Part_Name", object)]
        [Row 0 [Int 94906267; Int 94906267; Str "axle"];
         Row 1 [Int 4000000000; Int 4000000000; Str "engine"]].

(** No row is the same as a row above it, in the sense of
    [drop_duplicates]. *)
Definition no_duplicates (rs : list row) : Prop :=
  ForallOrdPairs (fun a b => row_same a b = false) rs.

(** A table that already has a column called [Margin], and no cost
    column: two rows that differ in that column only. *)
Definition margins_listed : frame :=
  Frame [("Price", float64); ("Part_Name", object); ("Margin", float64)]
        [Row 0 [Num 10; Str "cap"; Num 1]; Row 1 [Num 10; Str "cap"; Num 2]].

(** A column of numbers in descending order. *)
Definition descending_numbers (ks : list cell) : Prop :=
  StronglySorted (fun a b => (num b <=? num a)%float = true) ks.

(** The project folder with [quoted_parts] as the workbook. *)
Definition quoted_folder : list (string * artifact) :=
  [("automotive_pricing_bi_dataset.xlsx", Workbook quoted_parts)].

(** Position [i] may stand before position [j]: its key is not larger,
    and if the keys tie then [i] is the earlier position. *)
Definition before (ks : list cell) (i j : nat) : Prop :=
  cell_le (nth i ks NA) (nth j ks NA) /\
  (cell_le (nth j ks NA) (nth i ks NA) -> i < j).

(** Two parts with the same computed revenue, then a third. *)
Definition tied_parts : frame :=
  Frame [("Price", float64); ("Units_Sold", float64); ("Part_Name", object)]
        [Row 0 [Num 50; Num 4; Str "rotor"]; Row 1 [Num 100; Num 2; Str "hub"];
         Row 2 [Num 30; Num 1; Str "clip"]].

(** The project folder with [tied_parts] as the workbook. *)
Definition tied_folder : list (string * artifact) :=
  [("automotive_pricing_bi_dataset.xlsx", Workbook tied_parts)].

(** Eighteen parts whose revenue is the same text in every row: the
    workbook keeps that column as text, and the script does not coerce
    it. *)
Definition equal_revenue_parts : frame :=
  Frame [("Part_Name", object); ("Price", float64); ("Revenue", object)]
        [Row 0 [Str "pad"; Num 10; Str "100"]; Row 1 [Str "disc"; Num 11; Str "100"];
         Row 2 [Str "rotor"; Num 12; Str "100"]; Row 3 [Str "hub"; Num 13; Str "100"];
         Row 4 [Str "clip"; Num 14; Str "100"]; Row 5 [Str "cap"; Num 15; Str "100"];
         Row 6 [Str "bolt"; Num 16; Str "100"]; Row 7 [Str "nut"; Num 17; Str "100"];
         Row 8 [Str "axle"; Num 18; Str "100"]; Row 9 [Str "belt"; Num 19; Str "100"];
         Row 10 [Str "hose"; Num 20; Str "100"]; Row 11 [Str "lamp"; Num 21; Str "100"];
         Row 12 [Str "fuse"; Num 22; Str "100"]; Row 13 [Str "plug"; Num 23; Str "100"];
         Row 14 [Str "pump"; Num 24; Str "100"]; Row 15 [Str "seal"; Num 25; Str "100"];
         Row 16 [Str "gear"; Num 26; Str "100"]; Row 17 [Str "coil"; Num 27; Str "100"]].

Definition equal_revenue_folder : list (string * artifact) :=
  [("automotive_pricing_bi_dataset.xlsx", Workbook equal_revenue_parts)].

(** The notices of lines 103 and 114. *)
Definition skip_overpriced : line :=
  [T "Competitor price column not found — skipping overpriced list."].

Definition skip_low_margin : line :=
  [T "Cost or Units column not found — skipping low-margin-high-sales list."].

(** The five roles of lines 41-45, in the order the script resolves
    them. *)
Definition roles (cm : col_map) : list (option string) :=
  [price cm; competitor_price cm; cost cm; units cm; part cm].

(** Whether [c] is the column that [col] names. *)
Definition is_col (col : option string) (c : string) : bool :=
  match col with Some x => String.eqb c x | None => false end.

(** Whether [c] is the column of one of the four numeric roles. *)
Definition numeric_role (cm : col_map) (c : string) : bool :=
  existsb (fun o => is_col o c) [price cm; competitor_price cm; cost cm; units cm].

(** The lines of lines 22-61, newest first: what a run has printed when it
    reaches the guard of line 64. *)
Definition diagnostics (df0 : frame) : list line :=
  let d := strip_text df0 in
  let cm := resolve d in
  [[T (nl ++ "Removed duplicates: ");
    N (length (rows (coerce cm d)) - length (rows (prepare df0)));
    T " rows dropped"];
   [T "part"; T "->"; Opt (part cm)];
   [T "units"; T "->"; Opt (units cm)];
   [T "cost"; T "->"; Opt (cost cm)];
   [T "competitor_price"; T "->"; Opt (competitor_price cm)];
   [T "price"; T "->"; Opt (price cm)];
   [T (nl ++ "Detected columns (may be None if missing):")];
   [T "Column names:"; Names (names df0)];
   [T "Loaded file. Rows:"; N (length (rows df0)); T "Columns:"; N (length (columns df0))]].

(** Line 140. *)
Definition all_done : line := [T (nl ++ "All done. Output files in project folder:")].

(** A line that is none of those of lines 140-150. *)
Definition before_manifest (l : line) : Prop :=
  l <> all_done /\ l <> extra_banner /\ forall f, l <> [T " -"; T f].

(** The images of lines 117-138, newest first. *)
Definition chart_files (cm : col_map) (pr : string) (df : frame) : list (string * artifact) :=
  match competitor_price cm with
  | Some _ =>
      if hist_ok (hist_data df pr) && hist_ok (hist_data df "Price_pct_diff")
      then [("chart_price_pct_diff.png", Png (hist_data df "Price_pct_diff"))]
      else []
  | None => []
  end ++
  (if hist_ok (hist_data df pr)
   then [("chart_price_distribution.png", Png (hist_data df pr))]
   else []).

(** [os.path.exists(f)] in the world [w]. *)
Definition exists_in (w : world) (f : string) : bool :=
  match lookup f (written w), lookup f (disk w) with
  | None, None => false
  | _, _ => true
  end.

(** The columns that lines 153-169 read, in the order they read them. *)
Definition analytics_names : list string :=
  ["Brand"; "Revenue"; "Region"; "Gross_Margin_%"; "Profit"; "Cost"; "Price"].

(** Line 163. *)
Definition top_profit_parts (df : frame) : frame :=
  head 10 (sort_values "Profit" false df).

(** What the block prints when it runs to its end, newest first. *)
Definition analytics_lines : list line :=
  [[T (nl ++ "✅ Extra analytics completed.")];
   [Table];
   [T (nl ++ "📊 Correlation between Cost, Price, and Profit:")];
   [T (nl ++ "📈 Top 10 profitable parts saved to top10_profitable_parts.csv")];
   [Table];
   [T (nl ++ "🌍 Average Gross Margin (%) by Region:")];
   [Table];
   [T (nl ++ "💰 Revenue by Brand:")];
   extra_banner].

(** What one turn of the manifest loop prints for a file that exists,
    newest first. *)
Definition block_lines (f : string) : list line := analytics_lines ++ [[T " -"; T f]].

(** The columns of the block are there, and those it sums, averages, sorts
    and correlates are numeric: the aggregations of lines 153-169 raise on
    other columns, which the embedding of the block does not follow. *)
Definition analytics_ready (df : frame) : bool :=
  has_col df "Brand" && has_col df "Region" &&
  forallb (fun c => match dtype_of df c with Some float64 => true | _ => false end)
          ["Revenue"; "Gross_Margin_%"; "Profit"; "Cost"; "Price"].

(** A table with the columns of the extra analytics block. *)
Definition branded_parts : frame :=
  Frame [("Part_Name", object); ("Brand", object); ("Region", object);
         ("Price", float64); ("Cost", float64); ("Revenue", float64);
         ("Gross_Margin_%", float64); ("Profit", float64)]
        [Row 0 [Str "pad"; Str "Acme"; Str "North"; Num 120; Num 80; Num 360; Num 33; Num 40];
         Row 1 [Str "disc"; Str "Brix"; Str "South"; Num 50; Num 30; Num 200; Num 40; Num 20]].

(** The project folder with [branded_parts] as the workbook, and an
    over-priced extract left by an earlier run. *)
Definition branded_folder : list (string * artifact) :=
  [("automotive_pricing_bi_dataset.xlsx", Workbook branded_parts);
   ("parts_overpriced_gt10pct.csv", Csv quoted_parts)].

(** A cost column kept as text, with one cost that is not a number. *)
Definition unparsed_parts : frame :=
  Frame [("Part_Name", object); ("Price", float64); ("Cost", object)]
        [Row 0 [Str "pad"; Num 120; Str "80"]; Row 1 [Str "disc"; Num 50; Str "n/a"]].

(** The same table without its cost column: the cost role does not
    resolve. *)
Definition costless_parts : frame :=
  Frame [("Part_Name", object); ("Brand", object); ("Region", object);
         ("Price", float64); ("Revenue", float64);
         ("Gross_Margin_%", float64); ("Profit", float64)]
        [Row 0 [Str "pad"; Str "Acme"; Str "North"; Num 120; Num 360; Num 33; Num 40];
         Row 1 [Str "disc"; Str "Brix"; Str "South"; Num 50; Num 200; Num 40; Num 20]].

Definition costless_folder : list (string * artifact) :=
  [("automotive_pricing_bi_dataset.xlsx", Workbook costless_parts)].

(** A part whose competitor price is zero. *)
Definition zero_competitor : frame :=
  Frame [("Price", float64); ("Competitor_Price", float64); ("Part_Name", object)]
        [Row 0 [Num 120; Num 0; Str "pad"]].

Definition zero_folder : list (string * artifact) :=
  [("automotive_pricing_bi_dataset.xlsx", Workbook zero_competitor)].

End Vocabulary.

(** Proof steps used more than once. *)

Ltac compare_cases :=
  repeat match goal with
  | |- context [Pos.compare_cont Eq ?x ?y] => fold (Pos.compare x y)
  end;
  repeat match goal with
  | |- context [Z.compare ?a ?b] => destruct (Z.compare_spec a b); subst
  | |- context [Pos.compare ?a ?b] => destruct (Pos.compare_spec a b); subst
  end.

Ltac spec_float_cases :=
  repeat match goal with
  | x : spec_float |- _ => destruct x as [[|]|[|]| |[|] ? ?]
  end;
  simpl; try discriminate; try reflexivity; try (intros; discriminate);
  compare_cases; simpl; intros; try discriminate; try reflexivity; try lia.

Ltac step := cbn -[resolve strip_text coerce drop_duplicates dropna derive report file_name].

(** * Properties *)

(** ** The order on comparable keys *)

Lemma SFltb_irrefl (a : spec_float) : SFltb a a = false.
Proof. unfold SFltb, SFcompare. spec_float_cases. Qed.

Lemma SFltb_trans (a b c : spec_float) :
  SFltb a b = true -> SFltb b c = true -> SFltb a c = true.
Proof. unfold SFltb, SFcompare. spec_float_cases. Qed.

Lemma SFltb_negtrans (a b c : spec_float) :
  SFnan b = false ->
  SFltb a b = false -> SFltb b c = false -> SFltb a c = false.
Proof. unfold SFltb, SFcompare. spec_float_cases. Qed.

Lemma SFleb_ltb (a b : spec_float) :
  SFnan a = false -> SFnan b = false -> SFleb a b = negb (SFltb b a).
Proof. unfold SFltb, SFleb, SFcompare. spec_float_cases. Qed.

Lemma SFeqb_refl (a : spec_float) : SFnan a = false -> SFeqb a a = true.
Proof. unfold SFeqb, SFcompare. spec_float_cases. Qed.

Lemma SFltb_nan_l (a b : spec_float) : SFltb a b = true -> SFnan a = false.
Proof. unfold SFltb, SFcompare. spec_float_cases. Qed.

Lemma SFltb_nan_r (a b : spec_float) : SFltb a b = true -> SFnan b = false.
Proof. unfold SFltb, SFcompare. spec_float_cases. Qed.

Lemma SFleb_nan_l (a b : spec_float) : SFleb a b = true -> SFnan a = false.
Proof. unfold SFleb, SFcompare. spec_float_cases. Qed.

Lemma SFleb_nan_r (a b : spec_float) : SFleb a b = true -> SFnan b = false.
Proof. unfold SFleb, SFcompare. spec_float_cases. Qed.

Lemma is_nan_spec (x : f64) : is_nan x = SFnan (Prim2SF x).
Proof.
  unfold is_nan. rewrite FloatAxioms.eqb_spec.
  unfold SFeqb, SFcompare. generalize (Prim2SF x). intros s. spec_float_cases.
Qed.

Lemma ltb_irrefl (x : f64) : (x <? x)%float = false.
Proof. rewrite ltb_spec. apply SFltb_irrefl. Qed.

Lemma ltb_trans (x y z : f64) :
  (x <? y)%float = true -> (y <? z)%float = true -> (x <? z)%float = true.
Proof. rewrite !ltb_spec. apply SFltb_trans. Qed.

Lemma ltb_asym (x y : f64) : (x <? y)%float = true -> (y <? x)%float = false.
Proof.
  intros H. destruct (y <? x)%float eqn:E; [|reflexivity].
  pose proof (ltb_trans _ _ _ H E) as C. rewrite ltb_irrefl in C. discriminate.
Qed.

Lemma ltb_negtrans (x y z : f64) :
  is_nan y = false ->
  (x <? y)%float = false -> (y <? z)%float = false -> (x <? z)%float = false.
Proof. rewrite is_nan_spec, !ltb_spec. apply SFltb_negtrans. Qed.

Lemma leb_not_ltb (x y : f64) :
  is_nan x = false -> is_nan y = false -> (x <=? y)%float = negb (y <? x)%float.
Proof. rewrite !is_nan_spec, leb_spec, ltb_spec. apply SFleb_ltb. Qed.

Lemma ltb_not_nan_r (x y : f64) : (x <? y)%float = true -> is_nan y = false.
Proof. rewrite is_nan_spec, ltb_spec. apply SFltb_nan_r. Qed.

Lemma ltb_not_nan_l (x y : f64) : (x <? y)%float = true -> is_nan x = false.
Proof. rewrite is_nan_spec, ltb_spec. apply SFltb_nan_l. Qed.

Lemma leb_not_nan_l (x y : f64) : (x <=? y)%float = true -> is_nan x = false.
Proof. rewrite is_nan_spec, leb_spec. apply SFleb_nan_l. Qed.

Lemma leb_not_nan_r (x y : f64) : (x <=? y)%float = true -> is_nan y = false.
Proof. rewrite is_nan_spec, leb_spec. apply SFleb_nan_r. Qed.

Lemma ascii_compare_lt_trans (a b c : ascii) :
  Ascii.compare a b = Lt -> Ascii.compare b c = Lt -> Ascii.compare a c = Lt.
Proof.
  unfold Ascii.compare. rewrite !N.compare_lt_iff. apply N.lt_trans.
Qed.

Lemma string_compare_lt_trans (s t u : string) :
  String.compare s t = Lt -> String.compare t u = Lt -> String.compare s u = Lt.
Proof.
  revert t u. induction s as [|a s IH]; intros [|b t] [|c u]; simpl; try discriminate; auto.
  destruct (Ascii.compare a b) eqn:Eab; try discriminate;
    destruct (Ascii.compare b c) eqn:Ebc; try discriminate; intros H1 H2.
  - apply Ascii.compare_eq_iff in Eab, Ebc. subst.
    replace (Ascii.compare c c) with Eq by (unfold Ascii.compare; now rewrite N.compare_refl).
    eauto.
  - apply Ascii.compare_eq_iff in Eab. subst. rewrite Ebc. reflexivity.
  - apply Ascii.compare_eq_iff in Ebc. subst. rewrite Eab. reflexivity.
  - rewrite (ascii_compare_lt_trans _ _ _ Eab Ebc). reflexivity.
Qed.

Lemma string_ltb_irrefl (s : string) : String.ltb s s = false.
Proof.
  unfold String.ltb. destruct (String.compare s s) eqn:E; try reflexivity.
  pose proof (String.compare_antisym s s) as A. rewrite E in A. discriminate.
Qed.

Lemma string_ltb_trans (s t u : string) :
  String.ltb s t = true -> String.ltb t u = true -> String.ltb s u = true.
Proof.
  unfold String.ltb.
  destruct (String.compare s t) eqn:E1; try discriminate.
  destruct (String.compare t u) eqn:E2; try discriminate.
  rewrite (string_compare_lt_trans _ _ _ E1 E2). reflexivity.
Qed.

Lemma string_ltb_negtrans (s t u : string) :
  String.ltb s t = false -> String.ltb t u = false -> String.ltb s u = false.
Proof.
  unfold String.ltb. intros H1 H2.
  destruct (String.compare s t) eqn:E1; try discriminate.
  - apply String.compare_eq_iff in E1. subst. exact H2.
  - destruct (String.compare t u) eqn:E2; try discriminate.
    + apply String.compare_eq_iff in E2. subst. rewrite E1. reflexivity.
    + assert (A : String.compare u t = Lt)
        by (rewrite String.compare_antisym, E2; reflexivity).
      assert (B : String.compare t s = Lt)
        by (rewrite String.compare_antisym, E1; reflexivity).
      pose proof (string_compare_lt_trans _ _ _ A B) as C.
      rewrite String.compare_antisym, C. reflexivity.
Qed.

Lemma cell_ltb_irrefl (a : cell) : cell_ltb a a = false.
Proof. destruct a; simpl; auto using ltb_irrefl, string_ltb_irrefl, Z.ltb_irrefl. Qed.

Lemma cell_ltb_asym (a b : cell) : cell_ltb a b = true -> cell_ltb b a = false.
Proof.
  destruct a, b; simpl; try discriminate; auto using ltb_asym.
  - intros H. destruct (String.ltb s0 s) eqn:E; [|reflexivity].
    pose proof (string_ltb_trans _ _ _ H E) as C. rewrite string_ltb_irrefl in C. discriminate.
  - intros H. apply Z.ltb_lt in H. apply Z.ltb_ge. lia.
Qed.

(** Among numbers, and among strings, "not smaller" is transitive. *)
Lemma cell_le_trans_number (a b c : cell) :
  is_number a = true -> is_number b = true -> is_number c = true ->
  cell_le a b -> cell_le b c -> cell_le a c.
Proof.
  unfold cell_le. destruct a as [x| | |], b as [y| | |], c as [z| | |]; try discriminate. simpl.
  intros _ Hb _. apply negb_true_iff in Hb.
  intros H1 H2. eapply ltb_negtrans; eauto.
Qed.

Lemma cell_le_trans_text (a b c : cell) :
  is_text a = true -> is_text b = true -> is_text c = true ->
  cell_le a b -> cell_le b c -> cell_le a c.
Proof.
  unfold cell_le. destruct a, b, c; simpl; try discriminate. intros _ _ _ H1 H2.
  eapply string_ltb_negtrans; eauto.
Qed.

Lemma cell_le_trans_in (ks : list cell) (a b c : cell) :
  comparable ks -> In a ks -> In b ks -> In c ks ->
  cell_le a b -> cell_le b c -> cell_le a c.
Proof.
  intros [H|H] Ha Hb Hc; rewrite forallb_forall in H.
  - apply cell_le_trans_number; auto.
  - apply cell_le_trans_text; auto.
Qed.

(** ** The argsort of the small runtime keeps the laws *)

Lemma insert_pos_perm (ks : list cell) (i : nat) (l : list nat) :
  Permutation (insert_pos ks i l) (i :: l).
Proof.
  induction l as [|j l IH]; simpl; [reflexivity|].
  destruct (cell_ltb (nth j ks NA) (nth i ks NA)); [|reflexivity].
  rewrite IH. apply perm_swap.
Qed.

Lemma insertion_sort_perm (ks : list cell) (l : list nat) :
  Permutation (insertion_sort ks l) l.
Proof.
  induction l as [|i l IH]; simpl; [reflexivity|].
  rewrite insert_pos_perm. now apply perm_skip.
Qed.

Lemma stable_argsort_perm (ks : list cell) :
  Permutation (stable_argsort ks) (seq 0 (length ks)).
Proof. apply insertion_sort_perm. Qed.

Lemma insert_pos_sorted (ks : list cell) (i : nat) (l : list nat) :
  comparable ks -> i < length ks -> Forall (fun j => j < length ks) l ->
  StronglySorted cell_le (map (fun j => nth j ks NA) l) ->
  StronglySorted cell_le (map (fun j => nth j ks NA) (insert_pos ks i l)).
Proof.
  intros Hc Hi. induction l as [|j l IH]; simpl; intros Hl Hs.
  - repeat constructor.
  - inversion Hl as [|? ? Hj Hl']; subst. inversion Hs as [|? ? Hs' Hall]; subst.
    destruct (cell_ltb (nth j ks NA) (nth i ks NA)) eqn:E; simpl.
    + constructor; [now apply IH|].
      eapply Permutation_Forall.
      * apply Permutation_map, Permutation_sym, insert_pos_perm.
      * simpl. constructor; [|exact Hall]. now apply cell_ltb_asym.
    + constructor; [exact Hs|]. constructor; [exact E|].
      rewrite Forall_forall in *. intros k Hk. apply in_map_iff in Hk.
      destruct Hk as [m [<- Hm]].
      apply (cell_le_trans_in ks _ (nth j ks NA)); auto using nth_In.
      apply Hall, in_map_iff. eauto.
Qed.

Lemma insertion_sort_sorted (ks : list cell) (l : list nat) :
  comparable ks -> Forall (fun j => j < length ks) l ->
  StronglySorted cell_le (map (fun j => nth j ks NA) (insertion_sort ks l)).
Proof.
  intros Hc. induction l as [|i l IH]; simpl; intros Hl.
  - constructor.
  - inversion Hl; subst. apply insert_pos_sorted; auto.
    eapply Permutation_Forall; [apply Permutation_sym, insertion_sort_perm|assumption].
Qed.

Lemma seq_bounded (n : nat) : Forall (fun j => j < n) (seq 0 n).
Proof. apply Forall_forall. intros j Hj. apply in_seq in Hj. lia. Qed.

Lemma stable_argsort_sorted (ks : list cell) :
  comparable ks ->
  StronglySorted cell_le (map (fun j => nth j ks NA) (stable_argsort ks)).
Proof. intros Hc. apply insertion_sort_sorted; auto using seq_bounded. Qed.

Lemma small_runtime_laws : RuntimeLaws small_runtime.
Proof.
  constructor; simpl.
  - apply stable_argsort_perm.
  - apply stable_argsort_sorted.
Qed.

(** ** Sorting a frame *)

Lemma map_nth_seq {A : Type} (l : list A) (d : A) :
  map (fun i => nth i l d) (seq 0 (length l)) = l.
Proof.
  induction l as [|x l IH]; [reflexivity|].
  simpl. f_equal. rewrite <- seq_shift, map_map. exact IH.
Qed.

Lemma filter_partition {A : Type} (f : A -> bool) (l : list A) :
  Permutation (filter f l ++ filter (fun x => negb (f x)) l) l.
Proof.
  induction l as [|x l IH]; simpl; [constructor|].
  destruct (f x); simpl.
  - now constructor.
  - rewrite <- Permutation_middle. now constructor.
Qed.

Lemma StronglySorted_snoc {A : Type} (Q : A -> A -> Prop) (l : list A) (a : A) :
  StronglySorted Q l -> Forall (fun x => Q x a) l -> StronglySorted Q (l ++ [a]).
Proof.
  induction 1 as [|x l Hs IH Hx]; simpl; intros Ha.
  - repeat constructor.
  - inversion Ha; subst. constructor; [now apply IH|].
    apply Forall_app. split; [assumption|]. now repeat constructor.
Qed.

Lemma StronglySorted_rev {A : Type} (Q : A -> A -> Prop) (l : list A) :
  StronglySorted Q l -> StronglySorted (fun a b => Q b a) (rev l).
Proof.
  induction 1 as [|x l Hs IH Hx]; simpl; [constructor|].
  apply StronglySorted_snoc; [exact IH|].
  apply Forall_forall. intros y Hy. rewrite Forall_forall in Hx.
  apply Hx, in_rev, Hy.
Qed.

Section Sorting.
Context {R : Runtime} {L : RuntimeLaws R}.

Lemma argsort_bounded (ks : list cell) :
  Forall (fun k => k < length ks) (argsort ks).
Proof.
  eapply Permutation_Forall; [apply Permutation_sym, argsort_perm|apply seq_bounded].
Qed.

Lemma ordered_positions_perm (ks : list cell) (l : list nat) :
  Permutation (map (fun k => nth k l 0) (argsort (map (fun i => nth i ks NA) l))) l.
Proof.
  rewrite (Permutation_map _ (argsort_perm _)).
  rewrite length_map, map_nth_seq. reflexivity.
Qed.

Lemma ordered_positions_keys (ks : list cell) (l : list nat) :
  map (fun i => nth i ks NA)
      (map (fun k => nth k l 0) (argsort (map (fun i => nth i ks NA) l)))
  = map (fun k => nth k (map (fun i => nth i ks NA) l) NA)
        (argsort (map (fun i => nth i ks NA) l)).
Proof.
  rewrite map_map. apply map_ext_in. intros k Hk.
  pose proof (argsort_bounded (map (fun i => nth i ks NA) l)) as B.
  rewrite Forall_forall in B. specialize (B k Hk). rewrite length_map in B.
  rewrite (nth_indep (map (fun i => nth i ks NA) l) NA (nth 0 ks NA))
    by (rewrite length_map; exact B).
  now rewrite (map_nth (fun i => nth i ks NA)).
Qed.

Lemma nargsort_descending (ks : list cell) :
  nargsort ks false =
  rev (map (fun k => nth k (rev (present ks)) 0)
           (argsort (map (fun i => nth i ks NA) (rev (present ks)))))
  ++ absent ks.
Proof. reflexivity. Qed.

Lemma nargsort_perm (ks : list cell) (ascending : bool) :
  Permutation (nargsort ks ascending) (seq 0 (length ks)).
Proof.
  unfold nargsort. fold (present ks) (absent ks).
  rewrite <- (filter_partition (fun i => negb (isna (nth i ks NA))) (seq 0 (length ks))).
  fold (present ks).
  apply Permutation_app.
  - destruct ascending.
    + apply ordered_positions_perm.
    + rewrite <- Permutation_rev, ordered_positions_perm. apply Permutation_sym, Permutation_rev.
  - unfold absent. erewrite filter_ext; [reflexivity|].
    intros i. simpl. now rewrite negb_involutive.
Qed.

Lemma present_keys_comparable (ks : list cell) (l : list nat) :
  sortable ks -> incl l (present ks) ->
  comparable (map (fun i => nth i ks NA) l).
Proof.
  unfold sortable, comparable. intros H Hl.
  assert (K : forall c, In c (map (fun i => nth i ks NA) l) ->
                        In c (filter (fun c => negb (isna c)) ks)).
  { intros c Hc. apply in_map_iff in Hc. destruct Hc as [i [<- Hi]].
    apply Hl in Hi. unfold present in Hi. apply filter_In in Hi.
    destruct Hi as [Hi Hn]. apply in_seq in Hi.
    apply filter_In. split; [apply nth_In; lia|exact Hn]. }
  destruct H as [H|H]; [left|right]; rewrite forallb_forall in *; auto.
Qed.

(** The front part of a descending [nargsort]: a permutation of the
    positions of the keys present, in descending key order. *)
Lemma nargsort_front_perm (ks : list cell) :
  Permutation
    (rev (map (fun k => nth k (rev (present ks)) 0)
              (argsort (map (fun i => nth i ks NA) (rev (present ks))))))
    (present ks).
Proof.
  rewrite <- Permutation_rev, ordered_positions_perm.
  apply Permutation_sym, Permutation_rev.
Qed.

Lemma nargsort_front_sorted (ks : list cell) :
  sortable ks ->
  StronglySorted (fun a b => cell_le b a)
    (map (fun i => nth i ks NA)
      (rev (map (fun k => nth k (rev (present ks)) 0)
                (argsort (map (fun i => nth i ks NA) (rev (present ks))))))).
Proof.
  intros Hs. rewrite map_rev. apply StronglySorted_rev.
  rewrite ordered_positions_keys. apply argsort_sorted.
  apply present_keys_comparable; [exact Hs|].
  intros i Hi. apply in_rev, Hi.
Qed.

Lemma take_perm (idx : list nat) (rs : list row) :
  Permutation idx (seq 0 (length rs)) -> Permutation (take idx rs) rs.
Proof.
  intros H. unfold take. rewrite (Permutation_map _ H), map_nth_seq. reflexivity.
Qed.

Lemma column_length (df : frame) (c : string) : length (column df c) = length (rows df).
Proof. apply length_map. Qed.

Lemma sort_values_perm (c : string) (ascending : bool) (df : frame) :
  Permutation (rows (sort_values c ascending df)) (rows df).
Proof.
  simpl. apply take_perm. rewrite <- (column_length df c). apply nargsort_perm.
Qed.

Lemma sort_values_columns (c : string) (ascending : bool) (df : frame) :
  columns (sort_values c ascending df) = columns df.
Proof. reflexivity. Qed.

Lemma cell_of_columns (df df' : frame) (c : string) (r : row) :
  columns df' = columns df -> cell_of df' c r = cell_of df c r.
Proof. unfold cell_of, names. now intros ->. Qed.

Lemma cell_of_blank (df : frame) (c : string) : cell_of df c (Row 0 []) = NA.
Proof. unfold cell_of. destruct (position c (names df)) as [[|i]|]; reflexivity. Qed.

Lemma column_take (df df' : frame) (c : string) (idx : list nat) :
  columns df' = columns df -> rows df' = take idx (rows df) ->
  column df' c = map (fun i => nth i (column df c) NA) idx.
Proof.
  intros Hc Hr. unfold column. rewrite Hr. unfold take. rewrite map_map.
  apply map_ext. intros i. rewrite (cell_of_columns _ _ _ _ Hc).
  rewrite <- (map_nth (cell_of df c)). now rewrite cell_of_blank.
Qed.

Lemma sort_values_descending (c : string) (df : frame) :
  sortable (column df c) ->
  descending_missing_last (column (sort_values c false df) c).
Proof.
  intros Hs.
  rewrite (column_take df _ c (nargsort (column df c) false)) by reflexivity.
  rewrite nargsort_descending, map_app.
  eexists _, _. split; [reflexivity|]. split; [|split].
  - apply forallb_forall. intros k Hk. apply in_map_iff in Hk.
    destruct Hk as [i [<- Hi]].
    apply (Permutation_in _ (nargsort_front_perm _)) in Hi.
    unfold present in Hi. apply filter_In in Hi. apply Hi.
  - apply forallb_forall. intros k Hk. apply in_map_iff in Hk.
    destruct Hk as [i [<- Hi]]. unfold absent in Hi. apply filter_In in Hi. apply Hi.
  - now apply nargsort_front_sorted.
Qed.

End Sorting.

(** ** Columns, cells and assignment *)

Lemma position_bound (c : string) (l : list string) (i : nat) :
  position c l = Some i -> i < length l.
Proof.
  revert i. induction l as [|x l IH]; simpl; intros i; [discriminate|].
  destruct (String.eqb c x).
  - intros [= <-]. lia.
  - destruct (position c l) as [j|]; simpl; [|discriminate].
    intros [= <-]. specialize (IH j eq_refl). lia.
Qed.

Lemma position_nth (c : string) (l : list string) (i : nat) :
  position c l = Some i -> nth_error l i = Some c.
Proof.
  revert i. induction l as [|x l IH]; simpl; intros i; [discriminate|].
  destruct (String.eqb c x) eqn:E.
  - intros [= <-]. apply String.eqb_eq in E. now subst.
  - destruct (position c l) as [j|]; simpl; [|discriminate].
    intros [= <-]. now apply IH.
Qed.

Lemma position_has (c : string) (l : list string) :
  existsb (String.eqb c) l = match position c l with Some _ => true | None => false end.
Proof.
  induction l as [|x l IH]; simpl; [reflexivity|].
  destruct (String.eqb c x); [reflexivity|]. simpl. rewrite IH.
  now destruct (position c l).
Qed.

Lemma position_distinct (c c' : string) (l : list string) (i : nat) :
  position c l = Some i -> position c' l = Some i -> c = c'.
Proof.
  intros H H'. apply position_nth in H, H'. congruence.
Qed.

Lemma position_app_found (c : string) (l l' : list string) (i : nat) :
  position c l = Some i -> position c (l ++ l') = Some i.
Proof.
  revert i. induction l as [|x l IH]; simpl; intros i; [discriminate|].
  destruct (String.eqb c x); [auto|].
  destruct (position c l) as [j|]; simpl; [|discriminate].
  intros [= <-]. now rewrite (IH j eq_refl).
Qed.

Lemma position_app_fresh (c c' : string) (l : list string) :
  position c l = None ->
  position c (l ++ [c']) = if String.eqb c c' then Some (length l) else None.
Proof.
  induction l as [|x l IH]; simpl.
  - now destruct (String.eqb c c').
  - destruct (String.eqb c x); [discriminate|].
    destruct (position c l) as [j|]; simpl; [discriminate|].
    intros _. rewrite (IH eq_refl). now destruct (String.eqb c c').
Qed.

Lemma length_set_nth {A : Type} (i : nat) (x : A) (l : list A) :
  length (set_nth i x l) = length l.
Proof.
  revert i. induction l as [|y l IH]; intros [|i]; simpl; auto.
Qed.

Lemma nth_set_nth_same {A : Type} (i : nat) (x d : A) (l : list A) :
  i < length l -> nth i (set_nth i x l) d = x.
Proof.
  revert i. induction l as [|y l IH]; intros [|i]; simpl; try lia; auto.
  intros H. apply IH. lia.
Qed.

Lemma nth_set_nth_other {A : Type} (i j : nat) (x d : A) (l : list A) :
  i <> j -> nth j (set_nth i x l) d = nth j l d.
Proof.
  revert i j. induction l as [|y l IH]; intros [|i] [|j]; simpl; try lia; auto.
Qed.

Lemma set_nth_same {A : Type} (i : nat) (x : A) (l : list A) :
  nth_error l i = Some x -> set_nth i x l = l.
Proof.
  revert i. induction l as [|y l IH]; intros [|i]; simpl; try discriminate.
  - now intros [= ->].
  - intros H. f_equal. now apply IH.
Qed.

Lemma map_set_nth {A B : Type} (g : A -> B) (i : nat) (x : A) (l : list A) :
  map g (set_nth i x l) = set_nth i (g x) (map g l).
Proof.
  revert i. induction l as [|y l IH]; intros [|i]; simpl; auto. now rewrite IH.
Qed.

Lemma rows_assign (c : string) (dt : dtype) (f : row -> cell) (df : frame) :
  rows (assign c dt f df) = map (assign_row df c f) (rows df).
Proof.
  unfold assign, assign_row. now destruct (position c (names df)).
Qed.

Lemma names_assign (c : string) (dt : dtype) (f : row -> cell) (df : frame) :
  names (assign c dt f df) =
  if has_col df c then names df else names df ++ [c].
Proof.
  unfold assign, has_col. rewrite position_has.
  destruct (position c (names df)) as [i|] eqn:E; unfold names; simpl.
  - rewrite map_set_nth. apply set_nth_same. now apply position_nth.
  - now rewrite map_app.
Qed.

Lemma has_col_assign (c c' : string) (dt : dtype) (f : row -> cell) (df : frame) :
  has_col (assign c dt f df) c' = has_col df c' || String.eqb c' c.
Proof.
  unfold has_col at 1. rewrite names_assign.
  destruct (has_col df c) eqn:E.
  - fold (has_col df c'). destruct (String.eqb c' c) eqn:E'.
    + apply String.eqb_eq in E'. subst. rewrite E. reflexivity.
    + now rewrite orb_false_r.
  - rewrite existsb_app. simpl. now rewrite orb_false_r.
Qed.

Lemma label_assign_row (df : frame) (c : string) (f : row -> cell) (r : row) :
  label (assign_row df c f r) = label r.
Proof. unfold assign_row. now destruct (position c (names df)). Qed.

Lemma length_columns_names (df : frame) : length (names df) = length (columns df).
Proof. apply length_map. Qed.

Lemma length_assign_row (df : frame) (c : string) (dt : dtype) (f : row -> cell) (r : row) :
  length (cells r) = length (columns df) ->
  length (cells (assign_row df c f r)) = length (columns (assign c dt f df)).
Proof.
  unfold assign_row, assign. destruct (position c (names df)); simpl.
  - now rewrite !length_set_nth.
  - rewrite !length_app. simpl. lia.
Qed.

Lemma rectangular_assign (c : string) (dt : dtype) (f : row -> cell) (df : frame) :
  rectangular df -> rectangular (assign c dt f df).
Proof.
  unfold rectangular. rewrite rows_assign, Forall_map.
  apply Forall_impl. intros r. apply length_assign_row.
Qed.

(** Reading back the column just assigned. *)
Lemma cell_of_assign_same (c : string) (dt : dtype) (f : row -> cell) (df : frame) (r : row) :
  length (cells r) = length (columns df) ->
  cell_of (assign c dt f df) c (assign_row df c f r) = f r.
Proof.
  intros Hr. unfold cell_of. rewrite names_assign. unfold has_col. rewrite position_has.
  unfold assign_row.
  destruct (position c (names df)) as [i|] eqn:E.
  - rewrite E. simpl. apply nth_set_nth_same.
    apply position_bound in E. rewrite length_columns_names in E. lia.
  - rewrite (position_app_fresh _ _ _ E), String.eqb_refl. simpl.
    rewrite length_columns_names, <- Hr, app_nth2 by lia.
    now rewrite Nat.sub_diag.
Qed.

(** Reading another column after an assignment. *)
Lemma cell_of_assign_other (c c' : string) (dt : dtype) (f : row -> cell) (df : frame) (r : row) :
  c' <> c -> length (cells r) = length (columns df) ->
  cell_of (assign c dt f df) c' (assign_row df c f r) = cell_of df c' r.
Proof.
  intros Hc Hr. unfold cell_of. rewrite names_assign. unfold has_col. rewrite position_has.
  unfold assign_row.
  destruct (position c (names df)) as [i|] eqn:E.
  - destruct (position c' (names df)) as [j|] eqn:E'; [|reflexivity].
    simpl. apply nth_set_nth_other. intros ->. apply Hc. eapply position_distinct; eauto.
  - destruct (position c' (names df)) as [j|] eqn:E'.
    + rewrite (position_app_found _ _ _ _ E'). simpl.
      apply app_nth1. apply position_bound in E'.
      rewrite length_columns_names in E'. lia.
    + rewrite (position_app_fresh _ _ _ E').
      destruct (String.eqb c' c) eqn:Q; [|reflexivity].
      apply String.eqb_eq in Q. contradiction.
Qed.

Lemma lookup_set_nth (c : string) (dt : dtype) (cols : list (string * dtype)) (i : nat) (c' : string) :
  position c (map fst cols) = Some i ->
  lookup c' (set_nth i (c, dt) cols) = if String.eqb c' c then Some dt else lookup c' cols.
Proof.
  unfold lookup. revert i. induction cols as [|[x dx] cols IH]; simpl; intros i; [discriminate|].
  destruct (String.eqb c x) eqn:E.
  - intros [= <-]. simpl. apply String.eqb_eq in E. subst x.
    now destruct (String.eqb c' c).
  - destruct (position c (map fst cols)) as [j|] eqn:P; simpl; [|discriminate].
    intros [= <-]. simpl. destruct (String.eqb c' x) eqn:E'; simpl.
    + destruct (String.eqb c' c) eqn:Q; [|reflexivity].
      apply String.eqb_eq in E', Q. subst. rewrite String.eqb_refl in E. discriminate.
    + now apply IH.
Qed.

Lemma lookup_app_fresh (c : string) (dt : dtype) (cols : list (string * dtype)) (c' : string) :
  position c (map fst cols) = None ->
  lookup c' (cols ++ [(c, dt)]) = if String.eqb c' c
                                   then Some dt else lookup c' cols.
Proof.
  unfold lookup. induction cols as [|[x dx] cols IH]; simpl.
  - now destruct (String.eqb c' c).
  - destruct (String.eqb c x) eqn:E; [discriminate|].
    destruct (position c (map fst cols)) eqn:P; simpl; [discriminate|]. intros _.
    destruct (String.eqb c' x) eqn:E'; simpl.
    + destruct (String.eqb c' c) eqn:Q; [|reflexivity].
      apply String.eqb_eq in E', Q. subst. rewrite String.eqb_refl in E. discriminate.
    + now apply IH.
Qed.

Lemma dtype_of_assign (c c' : string) (dt : dtype) (f : row -> cell) (df : frame) :
  dtype_of (assign c dt f df) c' = if String.eqb c' c then Some dt else dtype_of df c'.
Proof.
  unfold dtype_of, assign. destruct (position c (names df)) eqn:E; simpl.
  - now apply lookup_set_nth.
  - now apply lookup_app_fresh.
Qed.

(** ** Typing of frames *)

Lemma typed_assign (ok : dtype -> cell -> bool) (c : string) (dt : dtype)
      (f : row -> cell) (df : frame) :
  typed ok df -> (forall r, In r (rows df) -> ok dt (f r) = true) ->
  typed ok (assign c dt f df).
Proof.
  intros [Hr Ht] Hf. split; [now apply rectangular_assign|].
  intros r' c' dt'. rewrite rows_assign, in_map_iff. intros [r [<- Hin]].
  unfold rectangular in Hr. rewrite Forall_forall in Hr.
  rewrite dtype_of_assign. destruct (String.eqb c' c) eqn:E.
  - apply String.eqb_eq in E. subst c'. intros [= <-].
    rewrite cell_of_assign_same; auto.
  - apply String.eqb_neq in E. intros Hd.
    rewrite cell_of_assign_other; auto.
Qed.

Lemma typed_rows (ok : dtype -> cell -> bool) (df df' : frame) :
  columns df' = columns df -> incl (rows df') (rows df) ->
  typed ok df -> typed ok df'.
Proof.
  intros Hc Hi [Hr Ht]. split.
  - unfold rectangular in *. rewrite Forall_forall in *. intros r Hin.
    rewrite Hc. auto.
  - intros r c dt Hin. unfold dtype_of. rewrite Hc.
    rewrite (cell_of_columns df df' c r Hc). intros Hd. apply Ht; auto.
Qed.

Lemma lookup_in (c : string) (dt : dtype) (cols : list (string * dtype)) :
  NoDup (map fst cols) -> In (c, dt) cols -> lookup c cols = Some dt.
Proof.
  unfold lookup. induction cols as [|[x dx] cols IH]; simpl; [tauto|].
  intros Hn [H|H]; inversion Hn as [|? ? Hx Hn']; subst.
  - inversion H; subst. now rewrite String.eqb_refl.
  - destruct (String.eqb c x) eqn:E; [|auto].
    apply String.eqb_eq in E. subst x. exfalso. apply Hx.
    apply in_map_iff. now exists (c, dt).
Qed.

Lemma lookup_found (c : string) (dt : dtype) (cols : list (string * dtype)) :
  lookup c cols = Some dt -> In (c, dt) cols.
Proof.
  unfold lookup. induction cols as [|[x dx] cols IH]; simpl; [discriminate|].
  destruct (String.eqb c x) eqn:E; simpl.
  - intros [= <-]. apply String.eqb_eq in E. subst. now left.
  - auto.
Qed.

Lemma position_lookup (c : string) (dt : dtype) (cols : list (string * dtype)) (i : nat) :
  position c (map fst cols) = Some i -> lookup c cols = Some dt ->
  nth_error cols i = Some (c, dt).
Proof.
  unfold lookup. revert i. induction cols as [|[x dx] cols IH]; simpl; intros i; [discriminate|].
  destruct (String.eqb c x) eqn:E; simpl.
  - intros [= <-] [= <-]. apply String.eqb_eq in E. now subst.
  - destruct (position c (map fst cols)) as [j|]; simpl; [|discriminate].
    intros [= <-] H. simpl. now apply IH.
Qed.

Lemma has_col_dtype (df : frame) (c : string) :
  has_col df c = match dtype_of df c with Some _ => true | None => false end.
Proof.
  unfold has_col, dtype_of, names, lookup.
  induction (columns df) as [|[x dx] cols IH]; simpl; [reflexivity|].
  destruct (String.eqb c x); simpl; auto.
Qed.

Section TextCleaning.
Context {R : Runtime}.

Lemma strip_step_columns (d : frame) (c : string) :
  dtype_of d c = Some object -> columns (strip_step d c) = columns d.
Proof.
  intros Hd. unfold strip_step, assign.
  destruct (position c (names d)) as [i|] eqn:E; simpl.
  - apply set_nth_same. now apply position_lookup.
  - pose proof (has_col_dtype d c) as H. rewrite Hd in H.
    unfold has_col in H. rewrite position_has, E in H. discriminate.
Qed.

(** The loop of lines 27-31 seen from the cells: the columns it visits
    hold the stripped text of what they held, the others are untouched. *)
Lemma strip_fold (cs : list string) (d : frame) :
  rectangular d -> NoDup cs ->
  (forall c, In c cs -> dtype_of d c = Some object) ->
  columns (fold_left strip_step cs d) = columns d /\
  exists phi,
    rows (fold_left strip_step cs d) = map phi (rows d) /\
    forall r, In r (rows d) ->
      label (phi r) = label r /\
      forall c, cell_of (fold_left strip_step cs d) c (phi r) =
                if existsb (String.eqb c) cs
                then Str (strip (astype_str (cell_of d c r)))
                else cell_of d c r.
Proof.
  revert d. induction cs as [|c cs IH]; intros d Hr Hn Hd; simpl.
  - split; [reflexivity|]. exists (fun r => r). split; [now rewrite map_id|].
    intros r _. split; reflexivity.
  - inversion Hn as [|? ? Hc Hn']; subst.
    assert (Hcol : columns (strip_step d c) = columns d)
      by (apply strip_step_columns, Hd; now left).
    destruct (IH (strip_step d c)) as [Hcols [phi [Hrows Hphi]]]; auto.
    { now apply rectangular_assign. }
    { intros c' Hc'. unfold dtype_of. rewrite Hcol. apply Hd. now right. }
    split; [congruence|].
    exists (fun r => phi (assign_row d c (fun r => Str (strip (astype_str (cell_of d c r)))) r)).
    split.
    { rewrite Hrows. unfold strip_step. now rewrite rows_assign, map_map. }
    intros r Hin.
    unfold rectangular in Hr. rewrite Forall_forall in Hr.
    destruct (Hphi (assign_row d c (fun r => Str (strip (astype_str (cell_of d c r)))) r))
      as [Hl Hcell].
    { unfold strip_step. rewrite rows_assign. now apply in_map. }
    split; [now rewrite Hl, label_assign_row|].
    intros c'. rewrite Hcell. unfold strip_step.
    destruct (String.eqb c' c) eqn:E; simpl.
    + apply String.eqb_eq in E. subst c'.
      rewrite cell_of_assign_same by auto.
      destruct (existsb (String.eqb c) cs) eqn:X; [|reflexivity].
      exfalso. apply Hc. apply existsb_exists in X. destruct X as [x [Hx Hx']].
      apply String.eqb_eq in Hx'. now subst.
    + apply String.eqb_neq in E. rewrite cell_of_assign_other by auto. reflexivity.
Qed.

Lemma strip_text_fold (df : frame) :
  strip_text df = fold_left strip_step (text_cols df) df.
Proof. reflexivity. Qed.

Lemma text_cols_spec (df : frame) (c : string) :
  NoDup (names df) ->
  (In c (text_cols df) <-> dtype_of df c = Some object).
Proof.
  intros Hn. unfold text_cols, dtype_of. rewrite in_map_iff. split.
  - intros [[x dx] [<- H]]. apply filter_In in H. destruct H as [H Hd]. simpl in *.
    destruct dx; [discriminate|]. now apply lookup_in.
  - intros H. exists (c, object). split; [reflexivity|].
    apply filter_In. split; [now apply lookup_found|reflexivity].
Qed.

Lemma NoDup_text_cols (df : frame) : NoDup (names df) -> NoDup (text_cols df).
Proof.
  unfold text_cols, names. induction (columns df) as [|[x dx] cols IH]; simpl; intros Hn.
  - constructor.
  - inversion Hn as [|? ? Hx Hn']; subst. destruct dx; simpl; auto.
    constructor; auto. intros H. apply Hx.
    apply in_map_iff in H. destruct H as [p [<- Hp]].
    apply filter_In in Hp. apply in_map, Hp.
Qed.

(** Lines 26-31 on a table with distinct column names. *)
Lemma strip_text_cells (df : frame) :
  NoDup (names df) -> rectangular df ->
  columns (strip_text df) = columns df /\
  exists phi,
    rows (strip_text df) = map phi (rows df) /\
    forall r, In r (rows df) ->
      label (phi r) = label r /\
      forall c, cell_of (strip_text df) c (phi r) =
                match dtype_of df c with
                | Some object => Str (strip (astype_str (cell_of df c r)))
                | _ => cell_of df c r
                end.
Proof.
  intros Hn Hr. rewrite strip_text_fold.
  destruct (strip_fold (text_cols df) df) as [Hc [phi [Hrows Hphi]]]; auto.
  { now apply NoDup_text_cols. }
  { intros c. now apply text_cols_spec. }
  split; [exact Hc|]. exists phi. split; [exact Hrows|].
  intros r Hin. destruct (Hphi r Hin) as [Hl Hcell]. split; [exact Hl|].
  intros c. rewrite Hcell.
  destruct (existsb (String.eqb c) (text_cols df)) eqn:X.
  - apply existsb_exists in X. destruct X as [x [Hx Hx']].
    apply String.eqb_eq in Hx'. subst x.
    apply (text_cols_spec df c Hn) in Hx. now rewrite Hx.
  - destruct (dtype_of df c) as [[|]|] eqn:D; try reflexivity.
    apply (text_cols_spec df c Hn) in D.
    assert (existsb (String.eqb c) (text_cols df) = true); [|congruence].
    apply existsb_exists. exists c. split; [exact D|apply String.eqb_refl].
Qed.

(** Lines 26-31 on a well-formed table. *)
Lemma strip_text_spec (df : frame) :
  well_formed df ->
  columns (strip_text df) = columns df /\
  exists phi,
    rows (strip_text df) = map phi (rows df) /\
    forall r, In r (rows df) ->
      label (phi r) = label r /\
      forall c, cell_of (strip_text df) c (phi r) =
                match dtype_of df c with
                | Some object => Str (strip (astype_str (cell_of df c r)))
                | _ => cell_of df c r
                end.
Proof. intros [Hn [Hr Ht]]. now apply strip_text_cells. Qed.

Lemma rectangular_strip_text (df : frame) : rectangular df -> rectangular (strip_text df).
Proof.
  rewrite strip_text_fold. generalize (text_cols df). intros cs. revert df.
  induction cs as [|c cs IH]; simpl; intros d Hd; [exact Hd|].
  apply IH. now apply rectangular_assign.
Qed.

Lemma strip_text_typed (df : frame) : well_formed df -> typed stripped (strip_text df).
Proof.
  intros Hw. destruct (strip_text_spec df Hw) as [Hc [phi [Hrows Hphi]]].
  destruct Hw as [Hn [Hr Ht]]. split.
  - now apply rectangular_strip_text.
  - intros r' c dt. rewrite Hrows, in_map_iff. intros [r [<- Hin]].
    unfold dtype_of. rewrite Hc. fold (dtype_of df c). intros Hd.
    destruct (Hphi r Hin) as [_ Hcell]. rewrite Hcell, Hd.
    destruct dt; [|reflexivity].
    specialize (Ht r c float64 Hin Hd).
    destruct (cell_of df c r); simpl in *; congruence.
Qed.

End TextCleaning.

(** ** The tables of a run *)

Section Tables.
Context {R : Runtime}.

Lemma keep_first_incl (above rs : list row) : incl (keep_first above rs) rs.
Proof.
  revert above. induction rs as [|r rs IH]; intros above; simpl.
  - apply incl_refl.
  - destruct (existsb (fun s => row_same s r) above).
    + apply incl_tl, IH.
    + apply incl_cons; [now left|]. apply incl_tl, IH.
Qed.

Lemma typed_weaken (ok ok' : dtype -> cell -> bool) (df : frame) :
  (forall dt c, ok dt c = true -> ok' dt c = true) -> typed ok df -> typed ok' df.
Proof. intros H [Hr Ht]. split; [exact Hr|]. intros r c dt Hin Hd. eauto. Qed.

Lemma stripped_settled (dt : dtype) (c : cell) : stripped dt c = true -> settled dt c = true.
Proof. destruct dt, c; simpl; auto. Qed.

Lemma typed_coerce_col (col : option string) (df : frame) :
  typed stripped df -> typed stripped (coerce_col col df).
Proof.
  destruct col as [c|]; simpl; [|auto]. intros H. apply typed_assign; [exact H|].
  intros r Hin. destruct H as [_ Ht].
  destruct (dtype_of df c) as [dt|] eqn:D.
  - specialize (Ht r c dt Hin D).
    destruct dt, (cell_of df c r); simpl in *; congruence.
  - pose proof (has_col_dtype df c) as E. rewrite D in E. unfold has_col in E.
    rewrite position_has in E. unfold cell_of.
    destruct (position c (names df)); [discriminate|reflexivity].
Qed.

Lemma typed_coerce (cm : col_map) (df : frame) :
  typed stripped df -> typed stripped (coerce cm df).
Proof. intros H. unfold coerce. now repeat apply typed_coerce_col. Qed.

Lemma typed_prepare (df0 : frame) : well_formed df0 -> typed stripped (prepare df0).
Proof.
  intros Hw. unfold prepare.
  apply (typed_rows stripped (coerce (resolve (strip_text df0)) (strip_text df0)));
    [reflexivity|apply keep_first_incl|].
  apply typed_coerce, strip_text_typed, Hw.
Qed.

Lemma typed_select (ok : dtype -> cell -> bool) (keep : row -> bool) (df : frame) :
  typed ok df -> typed ok (select keep df).
Proof.
  apply typed_rows; [reflexivity|]. intros r Hr. simpl in Hr.
  apply filter_In in Hr. apply Hr.
Qed.

Lemma typed_cleaned (df0 : frame) (pr pa : string) :
  well_formed df0 -> typed stripped (cleaned df0 pr pa).
Proof. intros Hw. apply typed_select, typed_prepare, Hw. Qed.

(** A settled table holds no integer: its numbers are floats. *)
Lemma settled_not_int (df : frame) (c : string) (r : row) (n : Z) :
  typed settled df -> In r (rows df) -> cell_of df c r <> Int n.
Proof.
  intros [_ Ht] Hin E. destruct (dtype_of df c) as [dt|] eqn:D.
  - specialize (Ht r c dt Hin D). rewrite E in Ht. destruct dt; discriminate.
  - pose proof (has_col_dtype df c) as K. rewrite D in K. unfold has_col in K.
    rewrite position_has in K. unfold cell_of in E.
    destruct (position c (names df)); discriminate.
Qed.

Lemma cell_sub_float (a b : cell) :
  (forall n, a <> Int n) -> cell_sub a b = Num (num a - num b)%float.
Proof. destruct a, b; simpl; intros H; try reflexivity. now destruct (H n). Qed.

Lemma cell_mul_float (a b : cell) :
  (forall n, a <> Int n) -> cell_mul a b = Num (num a * num b)%float.
Proof. destruct a, b; simpl; intros H; try reflexivity. now destruct (H n). Qed.

Lemma typed_assign_sub (name a b : string) (df : frame) :
  typed settled df ->
  typed settled (assign name float64 (fun r => cell_sub (cell_of df a r) (cell_of df b r)) df).
Proof.
  intros H. apply typed_assign; [exact H|]. intros r Hin.
  rewrite cell_sub_float; [reflexivity|]. intros n. now apply settled_not_int.
Qed.

Lemma typed_assign_mul (name a b : string) (df : frame) :
  typed settled df ->
  typed settled (assign name float64 (fun r => cell_mul (cell_of df a r) (cell_of df b r)) df).
Proof.
  intros H. apply typed_assign; [exact H|]. intros r Hin.
  rewrite cell_mul_float; [reflexivity|]. intros n. now apply settled_not_int.
Qed.

Lemma typed_derive (cm : col_map) (pr : string) (df : frame) :
  typed settled df -> typed settled (derive cm pr df).
Proof.
  intros H. unfold derive.
  destruct (competitor_price cm), (cost cm), (units cm);
    repeat first [ apply typed_assign_sub | apply typed_assign_mul
                 | apply typed_assign; [|reflexivity] ];
    exact H.
Qed.

Lemma typed_derived (df0 : frame) (pr pa : string) :
  well_formed df0 -> typed settled (derived df0 pr pa).
Proof.
  intros Hw. apply typed_derive.
  apply (typed_weaken stripped); [apply stripped_settled|].
  apply typed_cleaned, Hw.
Qed.

Lemma cell_of_absent (df : frame) (c : string) (r : row) :
  dtype_of df c = None -> cell_of df c r = NA.
Proof.
  intros H. pose proof (has_col_dtype df c) as E. rewrite H in E.
  unfold has_col in E. rewrite position_has in E. unfold cell_of.
  now destruct (position c (names df)).
Qed.

(** Any column of a settled table can be sorted. *)
Lemma typed_sortable (df : frame) (c : string) :
  typed settled df -> sortable (column df c).
Proof.
  intros [_ Ht]. unfold sortable, comparable, column.
  destruct (dtype_of df c) as [[|]|] eqn:D.
  - left. apply forallb_forall. intros k Hk. apply filter_In in Hk.
    destruct Hk as [Hk Hn]. apply in_map_iff in Hk. destruct Hk as [r [<- Hr]].
    specialize (Ht r c float64 Hr D).
    destruct (cell_of df c r); simpl in *; try discriminate. exact Hn.
  - right. apply forallb_forall. intros k Hk. apply filter_In in Hk.
    destruct Hk as [Hk Hn]. apply in_map_iff in Hk. destruct Hk as [r [<- Hr]].
    specialize (Ht r c object Hr D).
    destruct (cell_of df c r); simpl in *; try discriminate. reflexivity.
  - left. apply forallb_forall. intros k Hk. apply filter_In in Hk.
    destruct Hk as [Hk Hn]. apply in_map_iff in Hk. destruct Hk as [r [<- Hr]].
    rewrite cell_of_absent in Hn by assumption. discriminate.
Qed.

(** *** Tables with int64 columns *)

Lemma int64_wrap (z : Z) : int64 (wrap z) = true.
Proof.
  unfold int64, wrap.
  pose proof (Z.mod_pos_bound (z + 2 ^ 63) (2 ^ 64) eq_refl) as B.
  apply andb_true_iff. split; [apply Z.leb_le|apply Z.ltb_lt]; lia.
Qed.

Lemma holds_sub (a b : cell) : holds float64 (cell_sub a b) = true.
Proof. destruct a, b; simpl; auto using int64_wrap. Qed.

Lemma holds_mul (a b : cell) : holds float64 (cell_mul a b) = true.
Proof. destruct a, b; simpl; auto using int64_wrap. Qed.

Lemma typed_holds_strip_text (df : frame) :
  NoDup (names df) -> typed holds df -> typed holds (strip_text df).
Proof.
  intros Hn [Hr Ht].
  destruct (strip_text_cells df Hn Hr) as [Hc [phi [Hrows Hphi]]].
  split; [now apply rectangular_strip_text|].
  intros r' c dt. rewrite Hrows, in_map_iff. intros [r [<- Hin]].
  unfold dtype_of. rewrite Hc. fold (dtype_of df c). intros Hd.
  destruct (Hphi r Hin) as [_ Hcell]. rewrite Hcell, Hd.
  destruct dt; [|reflexivity]. now apply Ht.
Qed.

Lemma whole_assign (c : string) (dt : dtype) (f : row -> cell) (d : frame) :
  rectangular d -> whole_columns d ->
  (dt = float64 ->
   forall r r', In r (rows d) -> In r' (rows d) -> is_int (f r) = is_int (f r')) ->
  whole_columns (assign c dt f d).
Proof.
  intros Hr Hw Hf c' r1 r1'. rewrite dtype_of_assign, rows_assign, !in_map_iff.
  intros D [r [<- Hin]] [r' [<- Hin']].
  unfold rectangular in Hr. rewrite Forall_forall in Hr.
  destruct (String.eqb c' c) eqn:E.
  - apply String.eqb_eq in E. subst c'. injection D as D.
    rewrite !cell_of_assign_same by auto. now apply Hf.
  - apply String.eqb_neq in E. rewrite !cell_of_assign_other by auto. now apply Hw.
Qed.

Lemma whole_rows (df df' : frame) :
  columns df' = columns df -> incl (rows df') (rows df) ->
  whole_columns df -> whole_columns df'.
Proof.
  intros Hc Hi Hw c r r'. unfold dtype_of. rewrite Hc.
  rewrite !(cell_of_columns df df' c _ Hc). intros D Hin Hin'. apply Hw; auto.
Qed.

Lemma whole_strip_text (df : frame) :
  NoDup (names df) -> rectangular df -> whole_columns df -> whole_columns (strip_text df).
Proof.
  intros Hn Hr Hw c r1 r1'.
  destruct (strip_text_cells df Hn Hr) as [Hc [phi [Hrows Hphi]]].
  unfold dtype_of. rewrite Hc, Hrows, !in_map_iff. fold (dtype_of df c).
  intros D [r [<- Hin]] [r' [<- Hin']].
  rewrite (proj2 (Hphi r Hin)), (proj2 (Hphi r' Hin')), D. now apply Hw.
Qed.

Lemma is_int_coerce_cell (a : cell) : is_int (coerce_cell a) = is_int a.
Proof. now destruct a. Qed.

(** Lines 52-55 on a column that is numeric already: the column keeps
    its dtype and its numbers. *)
Lemma coerce_col_numeric (col : option string) (d : frame) :
  typed holds d -> whole_columns d ->
  (forall c, col = Some c -> dtype_of d c = Some float64) ->
  typed holds (coerce_col col d) /\ whole_columns (coerce_col col d) /\
  forall c, dtype_of (coerce_col col d) c = dtype_of d c.
Proof.
  destruct col as [x|]; simpl; [|auto]. intros H Hw Hx. specialize (Hx x eq_refl).
  split; [|split].
  - apply typed_assign; [exact H|]. intros r Hin. destruct H as [_ Ht].
    specialize (Ht r x float64 Hin Hx).
    destruct (cell_of d x r); simpl in *; congruence.
  - apply whole_assign; [apply H|exact Hw|]. intros _ r r' Hin Hin'.
    rewrite !is_int_coerce_cell. now apply Hw.
  - intros c. rewrite dtype_of_assign. destruct (String.eqb c x) eqn:E; [|reflexivity].
    apply String.eqb_eq in E. now subst.
Qed.

Lemma numeric_roles_spec (cm : col_map) (df : frame) :
  numeric_roles cm df = true ->
  (forall c, price cm = Some c -> dtype_of df c = Some float64) /\
  (forall c, competitor_price cm = Some c -> dtype_of df c = Some float64) /\
  (forall c, cost cm = Some c -> dtype_of df c = Some float64) /\
  (forall c, units cm = Some c -> dtype_of df c = Some float64).
Proof.
  unfold numeric_roles. cbn [forallb]. rewrite !andb_true_iff.
  intros [H1 [H2 [H3 [H4 _]]]].
  repeat split; intros c E; rewrite E in *;
    match goal with
    | K : match dtype_of df c with _ => _ end = true |- _ =>
        destruct (dtype_of df c) as [[|]|]; try discriminate K; reflexivity
    end.
Qed.

Lemma coerce_numeric (cm : col_map) (d : frame) :
  typed holds d -> whole_columns d -> numeric_roles cm d = true ->
  typed holds (coerce cm d) /\ whole_columns (coerce cm d) /\
  forall c, dtype_of (coerce cm d) c = dtype_of d c.
Proof.
  intros H Hw Hn. apply numeric_roles_spec in Hn. destruct Hn as [N1 [N2 [N3 N4]]].
  unfold coerce.
  destruct (coerce_col_numeric (price cm) d H Hw N1) as [T1 [W1 D1]].
  destruct (coerce_col_numeric (competitor_price cm) _ T1 W1) as [T2 [W2 D2]].
  { intros c E. rewrite D1. now apply N2. }
  destruct (coerce_col_numeric (cost cm) _ T2 W2) as [T3 [W3 D3]].
  { intros c E. rewrite D2, D1. now apply N3. }
  destruct (coerce_col_numeric (units cm) _ T3 W3) as [T4 [W4 D4]].
  { intros c E. rewrite D3, D2, D1. now apply N4. }
  split; [exact T4|]. split; [exact W4|]. intros c. now rewrite D4, D3, D2, D1.
Qed.

Lemma typed_holds_derive (cm : col_map) (pr : string) (df : frame) :
  typed holds df -> typed holds (derive cm pr df).
Proof.
  intros H. unfold derive.
  destruct (competitor_price cm), (cost cm), (units cm);
    repeat (apply typed_assign;
            [|intros r Hin; first [reflexivity | apply holds_sub | apply holds_mul]]);
    exact H.
Qed.

Lemma dtype_of_strip_text (df : frame) (c : string) :
  NoDup (names df) -> rectangular df -> dtype_of (strip_text df) c = dtype_of df c.
Proof.
  intros Hn Hr. unfold dtype_of. now rewrite (proj1 (strip_text_cells df Hn Hr)).
Qed.

(** The cleaned and the derived table of a loaded workbook whose numeric
    roles name numeric columns. *)
Lemma typed_holds_cleaned (df0 : frame) (pr pa : string) :
  loaded df0 -> numeric_roles (resolve (strip_text df0)) df0 = true ->
  typed holds (cleaned df0 pr pa) /\ whole_columns (cleaned df0 pr pa) /\
  forall c, dtype_of (cleaned df0 pr pa) c = dtype_of df0 c.
Proof.
  intros [Hn [Ht Hw]] Hr.
  pose proof (typed_holds_strip_text df0 Hn Ht) as T1.
  pose proof (whole_strip_text df0 Hn (proj1 Ht) Hw) as W1.
  assert (Hr' : numeric_roles (resolve (strip_text df0)) (strip_text df0) = true).
  { unfold numeric_roles, dtype_of in *.
    now rewrite (proj1 (strip_text_cells df0 Hn (proj1 Ht))). }
  destruct (coerce_numeric _ _ T1 W1 Hr') as [T2 [W2 D2]].
  assert (I : incl (rows (cleaned df0 pr pa))
                   (rows (coerce (resolve (strip_text df0)) (strip_text df0)))).
  { intros r Hin. unfold cleaned, dropna, select, prepare in Hin. cbn [rows] in Hin.
    apply filter_In in Hin. destruct Hin as [Hin _]. now apply keep_first_incl in Hin. }
  split; [|split].
  - unfold cleaned. apply typed_select. unfold prepare.
    apply (typed_rows holds (coerce (resolve (strip_text df0)) (strip_text df0)));
      [reflexivity|apply keep_first_incl|exact T2].
  - exact (whole_rows (coerce (resolve (strip_text df0)) (strip_text df0))
                      (cleaned df0 pr pa) eq_refl I W2).
  - intros c.
    change (dtype_of (cleaned df0 pr pa) c)
      with (dtype_of (coerce (resolve (strip_text df0)) (strip_text df0)) c).
    rewrite D2. apply dtype_of_strip_text; [exact Hn|apply Ht].
Qed.

End Tables.

(** ** What a stretch of the script may do to the world *)

Lemma grows_refl P Q w : grows P Q w w.
Proof.
  split; [reflexivity|]. split; exists []; split; auto.
Qed.

Lemma grows_trans P Q w1 w2 w3 :
  grows P Q w1 w2 -> grows P Q w2 w3 -> grows P Q w1 w3.
Proof.
  intros [D1 [[f1 [F1 P1]] [o1 [O1 Q1]]]] [D2 [[f2 [F2 P2]] [o2 [O2 Q2]]]].
  split; [congruence|]. split.
  - exists (f2 ++ f1). rewrite F2, F1, app_assoc. split; [reflexivity|].
    apply Forall_app; auto.
  - exists (o2 ++ o1). rewrite O2, O1, app_assoc. split; [reflexivity|].
    apply Forall_app; auto.
Qed.

Lemma grows_weaken (P P' : string -> Prop) (Q Q' : line -> Prop) w w' :
  (forall x, P x -> P' x) -> (forall l, Q l -> Q' l) ->
  grows P Q w w' -> grows P' Q' w w'.
Proof.
  intros HP HQ [D [[f [F Pf]] [o [O Qo]]]]. split; [exact D|]. split.
  - exists f. split; [exact F|]. eapply Forall_impl; [|exact Pf]. simpl. auto.
  - exists o. split; [exact O|]. eapply Forall_impl; [|exact Qo]. auto.
Qed.

Lemma grows_stdout P Q w w' (l : line) :
  grows P Q w w' -> In l (stdout w) -> In l (stdout w').
Proof.
  intros [_ [_ [o [O _]]]] H. rewrite O. apply in_or_app. now right.
Qed.

Lemma grows_written P Q w w' (p : string * artifact) :
  grows P Q w w' -> In p (written w) -> In p (written w').
Proof.
  intros [_ [[f [F _]] _]] H. rewrite F. apply in_or_app. now right.
Qed.

Lemma keeps_ret {A : Type} P Q (a : A) : keeps P Q (ret a).
Proof. intros w. split; [apply grows_refl|discriminate]. Qed.

Lemma keeps_raise {A : Type} P Q (e : exn) : keeps P Q (@raise A e).
Proof. intros w. split; [apply grows_refl|discriminate]. Qed.

Lemma keeps_print (P : string -> Prop) (Q : line -> Prop) (l : line) :
  Q l -> keeps P Q (print l).
Proof.
  intros H w. split; [|discriminate]. split; [reflexivity|]. split.
  - exists []. split; auto.
  - exists [l]. split; auto.
Qed.

Lemma keeps_write (P : string -> Prop) (Q : line -> Prop) (name : string) (a : artifact) :
  P name -> keeps P Q (write name a).
Proof.
  intros H w. split; [|discriminate]. split; [reflexivity|]. split.
  - exists [(name, a)]. split; auto.
  - exists []. split; auto.
Qed.

Lemma keeps_path_exists P Q (name : string) : keeps P Q (path_exists name).
Proof. intros w. split; [apply grows_refl|discriminate]. Qed.

Lemma keeps_bind {A B : Type} P Q (m : M A) (k : A -> M B) :
  keeps P Q m -> (forall a, keeps P Q (k a)) -> keeps P Q (bind m k).
Proof.
  intros Hm Hk w. unfold bind. destruct (Hm w) as [G E].
  destruct (m w) as [[a|c|e] w']; simpl in *.
  - destruct (Hk a w') as [G' E']. split; [|exact E'].
    eapply grows_trans; eauto.
  - exfalso. now apply (E c).
  - split; [exact G|discriminate].
Qed.

Lemma keeps_for_each {A : Type} P Q (l : list A) (body : A -> M unit) :
  (forall x, keeps P Q (body x)) -> keeps P Q (for_each l body).
Proof.
  intros H. induction l as [|x l IH]; simpl.
  - apply keeps_ret.
  - apply keeps_bind; auto.
Qed.

Lemma keeps_weaken {A : Type} (P P' : string -> Prop) (Q Q' : line -> Prop) (m : M A) :
  (forall x, P x -> P' x) -> (forall l, Q l -> Q' l) ->
  keeps P Q m -> keeps P' Q' m.
Proof.
  intros HP HQ H w. destruct (H w) as [G E]. split; [|exact E].
  eapply grows_weaken; eauto.
Qed.

(** A step that ends normally hands its world to the rest. *)
Lemma bind_ok {A B : Type} (m : M A) (k : A -> M B) (w w' : world) (a : A) :
  m w = (Ok a, w') -> bind m k w = k a w'.
Proof. unfold bind. now intros ->. Qed.

Lemma bind_uncaught {A B : Type} (m : M A) (k : A -> M B) (w w' : world) (e : exn) :
  m w = (Uncaught e, w') -> bind m k w = (Uncaught e, w').
Proof. unfold bind. now intros ->. Qed.

(** ** The stages of the script *)

Section Stages.
Context {R : Runtime}.

Lemma export_spec (cm : col_map) (df : frame) (w : world) :
  exists out,
    export cm df w = (Ok tt, World (disk w) (exported cm df ++ written w) (out ++ stdout w))
    /\ Forall not_banner out.
Proof.
  unfold export, exported, to_csv, write, print, bind.
  destruct (competitor_price cm), (cost cm), (units cm); simpl;
    (eexists (_ :: _ :: _ :: _ :: []); split; [reflexivity|];
     repeat constructor; discriminate).
Qed.

Lemma keeps_hist (df : frame) (c name : string) :
  chart_name name -> keeps chart_name not_banner (hist df c name).
Proof.
  intros H. unfold hist. destruct (hist_ok _).
  - now apply keeps_write.
  - apply keeps_raise.
Qed.

Lemma keeps_charts (cm : col_map) (pr : string) (df : frame) :
  keeps chart_name not_banner (charts cm pr df).
Proof.
  unfold charts.
  apply keeps_bind; [apply keeps_hist; now left|intros _].
  apply keeps_bind; [apply keeps_print; discriminate|intros _].
  destruct (competitor_price cm).
  - apply keeps_bind; [apply keeps_hist; now right|intros _].
    apply keeps_print. discriminate.
  - apply keeps_print. discriminate.
Qed.

Lemma charts_result (cm : col_map) (pr : string) (df : frame) (w : world) :
  if charts_ok cm pr df
  then fst (charts cm pr df w) = Ok tt
  else exists msg, fst (charts cm pr df w) = Uncaught (ValueError msg).
Proof.
  unfold charts_ok, charts, hist, bind, print, write, raise. fold (hist_data df pr).
  fold (hist_data df "Price_pct_diff").
  destruct (hist_ok (hist_data df pr)); simpl; [|eauto].
  destruct (competitor_price cm); simpl; [|reflexivity].
  destruct (hist_ok (hist_data df "Price_pct_diff")); simpl; eauto.
Qed.

Lemma keeps_require (P : string -> Prop) (Q : line -> Prop) (df : frame) (c : string) :
  keeps P Q (require df c).
Proof. unfold require. destruct (has_col df c); [apply keeps_ret|apply keeps_raise]. Qed.

Lemma keeps_extra_body (df : frame) :
  keeps top10_name (fun _ => True) (extra_body df).
Proof.
  unfold extra_body, to_csv.
  repeat (apply keeps_bind;
          [first [now apply keeps_print | apply keeps_require
                 | now apply keeps_write]|intros _]).
  now apply keeps_print.
Qed.

Lemma keeps_extra_analytics (df : frame) :
  keeps top10_name (fun _ => True) (extra_analytics df).
Proof.
  unfold extra_analytics. apply keeps_bind; [now apply keeps_print|intros _].
  apply keeps_extra_body.
Qed.

Lemma keeps_manifest_entry (df : frame) (f : string) :
  keeps top10_name (fun _ => True) (manifest_entry df f).
Proof.
  unfold manifest_entry.
  apply keeps_bind; [apply keeps_path_exists|intros [|]].
  - apply keeps_bind; [now apply keeps_print|intros _]. apply keeps_extra_analytics.
  - apply keeps_ret.
Qed.

Lemma keeps_manifest (df : frame) :
  keeps top10_name (fun _ => True) (manifest df).
Proof.
  unfold manifest. apply keeps_bind; [now apply keeps_print|intros _].
  apply keeps_for_each. intros f. apply keeps_manifest_entry.
Qed.

Lemma bind_continues {A B : Type} P Q (m : M A) (k : A -> M B) (w : world) :
  (forall a, keeps P Q (k a)) -> grows P Q (snd (m w)) (snd (bind m k w)).
Proof.
  intros Hk. unfold bind. destruct (m w) as [[a|c|e] w']; simpl;
    try apply grows_refl. apply Hk.
Qed.

(** The block prints its banner first, whatever happens next. *)
Lemma extra_analytics_banner (df : frame) (w : world) :
  In extra_banner (stdout (snd (extra_analytics df w))).
Proof.
  unfold extra_analytics.
  eapply grows_stdout.
  - apply (bind_continues top10_name (fun _ => True)). intros _. apply keeps_extra_body.
  - simpl. now left.
Qed.

(** Without a [Brand] column the block stops at line 153. *)
Lemma extra_analytics_brand (df : frame) (w : world) :
  has_col df "Brand" = false ->
  fst (extra_analytics df w) = Uncaught (KeyError "Brand").
Proof.
  intros H. unfold extra_analytics, extra_body, bind, print, require.
  simpl. rewrite H. reflexivity.
Qed.

(** A turn of the loop on a file that exists is the block itself. *)
Lemma manifest_entry_found (df : frame) (f : string) (w : world) (a : artifact) :
  lookup f (written w) = Some a ->
  manifest_entry df f w =
  extra_analytics df (World (disk w) (written w) ([T " -"; T f] :: stdout w)).
Proof.
  intros H. unfold manifest_entry, bind at 1, path_exists. rewrite H.
  reflexivity.
Qed.

Lemma manifest_unfold (df : frame) (w : world) :
  manifest df w =
  bind (manifest_entry df clean_name)
       (fun _ => for_each (tl manifest_names) (manifest_entry df))
       (World (disk w) (written w)
          ([T (nl ++ "All done. Output files in project folder:")] :: stdout w)).
Proof. reflexivity. Qed.

(** The manifest loop finds the cleaned CSV, so its first turn enters the
    block. *)
Lemma manifest_banner (df : frame) (w : world) (a : artifact) :
  lookup clean_name (written w) = Some a ->
  In extra_banner (stdout (snd (manifest df w))).
Proof.
  intros H. rewrite manifest_unfold.
  eapply grows_stdout.
  - apply (bind_continues top10_name (fun _ => True)). intros _.
    apply keeps_for_each. intros f. apply keeps_manifest_entry.
  - rewrite (manifest_entry_found df clean_name _ a) by exact H.
    apply extra_analytics_banner.
Qed.

Lemma manifest_brand (df : frame) (w : world) (a : artifact) :
  lookup clean_name (written w) = Some a ->
  has_col df "Brand" = false ->
  fst (manifest df w) = Uncaught (KeyError "Brand").
Proof.
  intros H Hb. rewrite manifest_unfold. unfold bind at 1.
  rewrite (manifest_entry_found df clean_name _ a) by exact H.
  pose proof (extra_analytics_brand df
    (World (disk w) (written w)
       ([T " -"; T clean_name]
        :: [T (nl ++ "All done. Output files in project folder:")] :: stdout w)) Hb) as E.
  destruct (extra_analytics df _) as [[u|c|e] w']; simpl in *; try discriminate.
  now inversion E.
Qed.

End Stages.

(** ** The three ways a run can go *)

Section Run.
Context {R : Runtime}.

(** No input file: lines 14-17. *)
Lemma run_missing (folder : list (string * artifact)) :
  lookup file_name folder = None ->
  run folder =
  (SystemExit 1,
   World folder []
     [[T "Please put the file in the same folder as this script and run again."];
      [T "ERROR: Excel file not found in project folder:"; T file_name]]).
Proof.
  intros H. unfold run, script, load, bind, path_exists, print, sys_exit. simpl.
  rewrite H. reflexivity.
Qed.

(** Price or part unresolved: lines 64-66. *)
Lemma run_unresolved (folder : list (string * artifact)) (df0 : frame) :
  lookup file_name folder = Some (Workbook df0) ->
  price (resolve (strip_text df0)) = None \/ part (resolve (strip_text df0)) = None ->
  exists out,
    run folder =
    (SystemExit 1,
     World folder []
       ([T "ERROR: Required column(s) missing (price or part). Please check column names and run again."]
        :: out))
    /\ Forall not_banner out.
Proof.
  intros H Hm. unfold run, script, load, bind, path_exists, read_excel, print, sys_exit.
  step. rewrite H. step. rewrite ?H. step.
  destruct Hm as [Hm|Hm]; rewrite Hm.
  - eexists. split; [reflexivity|]. repeat constructor; discriminate.
  - destruct (price (resolve (strip_text df0)));
      (eexists; split; [reflexivity|]; repeat constructor; discriminate).
Qed.

(** Both resolved: the run gets to line 82 with the derived table. *)
Lemma run_resolved (folder : list (string * artifact)) (df0 : frame) (pr pa : string) :
  lookup file_name folder = Some (Workbook df0) ->
  price (resolve (strip_text df0)) = Some pr ->
  part (resolve (strip_text df0)) = Some pa ->
  exists out,
    run folder =
    report (resolve (strip_text df0)) pr (derived df0 pr pa) (World folder [] out)
    /\ Forall not_banner out.
Proof.
  intros H Hp Ha. unfold run, script, load, bind, path_exists, read_excel, print.
  step. rewrite H. step. rewrite ?H. step. rewrite Hp, Ha.
  eexists. split; [reflexivity|]. repeat constructor; discriminate.
Qed.

(** An input file that is not a workbook: [read_excel] raises. *)
Lemma run_unreadable (folder : list (string * artifact)) (a : artifact) :
  lookup file_name folder = Some a ->
  (forall df0, a <> Workbook df0) ->
  exists msg, run folder = (Uncaught (ValueError msg), World folder [] []).
Proof.
  intros H Hn. unfold run, script, load, bind, path_exists, read_excel, print.
  step. rewrite H. step. rewrite ?H. step.
  destruct a as [df0| |]; [now destruct (Hn df0)| |]; eexists; reflexivity.
Qed.

End Run.

(** ** Order of the rows through cleaning *)

Lemma subseq_refl {A : Type} (l : list A) : subseq l l.
Proof. induction l; [constructor|now apply subseq_keep]. Qed.

Lemma subseq_trans {A : Type} (l1 l2 l3 : list A) :
  subseq l1 l2 -> subseq l2 l3 -> subseq l1 l3.
Proof.
  intros H12 H23. revert l1 H12.
  induction H23 as [|x l2 l3 H IH|x l2 l3 H IH]; intros l1 H12.
  - exact H12.
  - constructor. now apply IH.
  - inversion H12; subst.
    + constructor. now apply IH.
    + apply subseq_keep. now apply IH.
Qed.

Lemma subseq_filter {A : Type} (f : A -> bool) (l : list A) : subseq (filter f l) l.
Proof.
  induction l as [|x l IH]; simpl; [constructor|].
  destruct (f x); constructor; exact IH.
Qed.

Lemma subseq_map {A B : Type} (g : A -> B) (l l' : list A) :
  subseq l l' -> subseq (map g l) (map g l').
Proof.
  induction 1; simpl; [constructor|now apply subseq_skip|now apply subseq_keep].
Qed.

Section RowOrder.
Context {R : Runtime}.

Lemma keep_first_subseq (above rs : list row) : subseq (keep_first above rs) rs.
Proof.
  revert above. induction rs as [|r rs IH]; intros above; simpl; [constructor|].
  destruct (existsb (fun s => row_same s r) above); constructor; apply IH.
Qed.

Lemma combine_seq_shift {A : Type} (n : nat) (l : list A) :
  combine (seq 1 n) l = map (fun p => (S (fst p), snd p)) (combine (seq 0 n) l).
Proof.
  rewrite <- seq_shift. generalize (seq 0 n). intros s. revert l.
  induction s as [|i s IH]; intros [|x l]; simpl; auto. now rewrite IH.
Qed.

Lemma keep_first_positions (above rs : list row) :
  keep_first above rs =
  map snd
    (filter (fun p => negb (existsb (fun s => row_same s (snd p))
                                    (above ++ firstn (fst p) rs)))
            (combine (seq 0 (length rs)) rs)).
Proof.
  revert above. induction rs as [|r rs IH]; intros above; [reflexivity|].
  cbn [keep_first length seq combine filter fst snd firstn].
  rewrite app_nil_r, combine_seq_shift.
  assert (E : keep_first (r :: above) rs =
              map snd
                (filter (fun p => negb (existsb (fun s => row_same s (snd p))
                                                (above ++ firstn (fst p) (r :: rs))))
                        (map (fun p => (S (fst p), snd p)) (combine (seq 0 (length rs)) rs)))).
  { rewrite IH. clear IH. induction (combine (seq 0 (length rs)) rs) as [|[i x] l IHl];
      [reflexivity|].
    cbn [map filter fst snd firstn].
    replace (existsb (fun s => row_same s x) (above ++ r :: firstn i rs))
      with (existsb (fun s => row_same s x) ((r :: above) ++ firstn i rs)).
    - destruct (existsb _ _); cbn [negb map snd]; now rewrite IHl.
    - rewrite !existsb_app. cbn [existsb].
      destruct (row_same r x), (existsb (fun s => row_same s x) above); reflexivity. }
  destruct (existsb (fun s => row_same s r) above); cbn [negb map snd]; now rewrite E.
Qed.

Lemma labels_assign (c : string) (dt : dtype) (f : row -> cell) (df : frame) :
  map label (rows (assign c dt f df)) = map label (rows df).
Proof.
  rewrite rows_assign, map_map. apply map_ext. intros r. apply label_assign_row.
Qed.

Lemma labels_strip_text (df : frame) :
  map label (rows (strip_text df)) = map label (rows df).
Proof.
  rewrite strip_text_fold. generalize (text_cols df). intros cs. revert df.
  induction cs as [|c cs IH]; intros df; simpl; [reflexivity|].
  rewrite IH. apply labels_assign.
Qed.

Lemma labels_coerce (cm : col_map) (df : frame) :
  map label (rows (coerce cm df)) = map label (rows df).
Proof.
  unfold coerce, coerce_col.
  destruct (units cm), (cost cm), (competitor_price cm), (price cm);
    now rewrite ?labels_assign.
Qed.

Lemma labels_derive (cm : col_map) (pr : string) (df : frame) :
  map label (rows (derive cm pr df)) = map label (rows df).
Proof.
  unfold derive.
  destruct (units cm), (cost cm), (competitor_price cm); now rewrite ?labels_assign.
Qed.

(** C10: duplicate removal keeps exactly the rows without an equal row
    above them (the first occurrence of each group) and deletes the later
    ones; the labels of the cleaned table are the labels of the loaded
    table with some left out, in the same order, and the derived columns
    do not touch them. *)
Theorem C10_first_occurrence_kept_order_kept (df df0 : frame) (pr pa : string) :
  rows (drop_duplicates df) = first_occurrences (rows df) /\
  subseq (rows (drop_duplicates df)) (rows df) /\
  subseq (map label (rows (cleaned df0 pr pa))) (map label (rows df0)) /\
  map label (rows (derived df0 pr pa)) = map label (rows (cleaned df0 pr pa)).
Proof.
  split; [|split; [|split]].
  - unfold drop_duplicates, first_occurrences. simpl.
    now rewrite keep_first_positions.
  - apply keep_first_subseq.
  - unfold cleaned, dropna, select, prepare. cbn [rows].
    eapply subseq_trans; [apply subseq_map, subseq_filter|].
    eapply subseq_trans; [apply subseq_map, keep_first_subseq|].
    rewrite labels_coerce, labels_strip_text. apply subseq_refl.
  - apply labels_derive.
Qed.

End RowOrder.

(** ** Checking a concrete table, and what resolution returns *)

Lemma distinct_NoDup (l : list string) : distinct l = true -> NoDup l.
Proof.
  induction l as [|x l IH]; simpl; [constructor|].
  intros H. apply andb_true_iff in H. destruct H as [Hx Hl].
  constructor; [|auto]. intros Hin. apply negb_true_iff in Hx.
  assert (existsb (String.eqb x) l = true); [|congruence].
  apply existsb_exists. exists x. split; [exact Hin|apply String.eqb_refl].
Qed.

Lemma fits_row_length (cols : list (string * dtype)) (cs : list cell) :
  fits_row cols cs = true -> length cs = length cols.
Proof.
  revert cs. induction cols as [|[x dx] cols IH]; intros [|c cs]; simpl;
    try discriminate; auto.
  intros H. apply andb_true_iff in H. f_equal. apply IH, H.
Qed.

Lemma fits_row_cell (cols : list (string * dtype)) (cs : list cell)
      (c : string) (dt : dtype) (i : nat) :
  fits_row cols cs = true -> lookup c cols = Some dt ->
  position c (map fst cols) = Some i -> fits dt (nth i cs NA) = true.
Proof.
  unfold lookup. revert cs i.
  induction cols as [|[x dx] cols IH]; intros [|k cs] i; simpl; try discriminate.
  intros H. apply andb_true_iff in H. destruct H as [Hk Hr].
  destruct (String.eqb c x); simpl.
  - intros [= <-] [= <-]. exact Hk.
  - destruct (position c (map fst cols)) as [j|] eqn:E; simpl; [|discriminate].
    intros Hd [= <-]. eapply IH; eauto.
Qed.

Lemma well_formedb_sound (df : frame) : well_formedb df = true -> well_formed df.
Proof.
  unfold well_formedb. intros H. apply andb_true_iff in H. destruct H as [Hd Hr].
  rewrite forallb_forall in Hr.
  split; [now apply distinct_NoDup|]. split.
  - apply Forall_forall. intros r Hin. apply fits_row_length. auto.
  - intros r c dt Hin Hdt. unfold cell_of.
    destruct (position c (names df)) as [i|] eqn:E.
    + eapply fits_row_cell; eauto.
    + pose proof (has_col_dtype df c) as Q. rewrite Hdt in Q.
      unfold has_col in Q. rewrite position_has, E in Q. discriminate.
Qed.

Section Resolution.
Context {R : Runtime}.

Lemma find_col_in (df : frame) (l : list string) (c : string) :
  find_col df l = Some c -> In c l /\ has_col df c = true.
Proof.
  induction l as [|x l IH]; simpl; [discriminate|].
  destruct (has_col df x) eqn:E.
  - intros [= <-]. auto.
  - intros H. destruct (IH H). auto.
Qed.

Lemma resolve_numeric (df : frame) (c : string) :
  price (resolve df) = Some c \/ competitor_price (resolve df) = Some c \/
  cost (resolve df) = Some c \/ units (resolve df) = Some c ->
  In c numeric_names /\ has_col df c = true.
Proof.
  unfold resolve, numeric_names. cbn [price competitor_price cost units].
  intros [H|[H|[H|H]]]; apply find_col_in in H; destruct H as [H Hc];
    (split; [|exact Hc]); simpl in *; intuition.
Qed.

Lemma resolve_part (df : frame) (c : string) :
  part (resolve df) = Some c -> In c part_names /\ has_col df c = true.
Proof. unfold resolve. cbn [part]. apply find_col_in. Qed.

Lemma names_apart (c c' : string) (l l' : list string) :
  In c l -> In c' l' ->
  forallb (fun x => forallb (fun y => negb (String.eqb x y)) l') l = true ->
  c <> c'.
Proof.
  intros Hc Hc' H. rewrite forallb_forall in H. specialize (H c Hc).
  rewrite forallb_forall in H. specialize (H c' Hc').
  apply negb_true_iff, String.eqb_neq in H. exact H.
Qed.

Lemma names_strip_text (df : frame) : names (strip_text df) = names df.
Proof.
  rewrite strip_text_fold.
  assert (G : forall cs d, (forall c, In c cs -> has_col d c = true) ->
                           names (fold_left strip_step cs d) = names d).
  { induction cs as [|c cs IH]; intros d Hd; simpl; [reflexivity|].
    assert (E : names (strip_step d c) = names d).
    { unfold strip_step. rewrite names_assign. rewrite Hd; [reflexivity|now left]. }
    rewrite IH, E; [reflexivity|].
    intros c' Hc'. unfold has_col. rewrite E. apply Hd. now right. }
  apply G. clear G. intros c Hc. unfold text_cols in Hc.
  apply in_map_iff in Hc. destruct Hc as [[x dx] [<- Hx]]. apply filter_In in Hx.
  unfold has_col, names. apply existsb_exists. exists x. split.
  - apply in_map_iff. exists (x, dx). split; [reflexivity|apply Hx].
  - apply String.eqb_refl.
Qed.

Lemma has_col_strip_text (df : frame) (c : string) :
  has_col (strip_text df) c = has_col df c.
Proof. unfold has_col. now rewrite names_strip_text. Qed.

Lemma dtype_of_coerce_col (col : option string) (df : frame) (c : string) :
  col <> Some c -> dtype_of (coerce_col col df) c = dtype_of df c.
Proof.
  destruct col as [x|]; simpl; [|reflexivity]. intros H.
  rewrite dtype_of_assign. destruct (String.eqb c x) eqn:E; [|reflexivity].
  apply String.eqb_eq in E. congruence.
Qed.

Lemma dtype_of_coerce (df : frame) (c : string) :
  ~ In c numeric_names ->
  dtype_of (coerce (resolve df) df) c = dtype_of df c.
Proof.
  intros Hc. unfold coerce.
  assert (K : forall x, price (resolve df) = Some x \/ competitor_price (resolve df) = Some x \/
                        cost (resolve df) = Some x \/ units (resolve df) = Some x -> x <> c).
  { intros x Hx E. subst x. apply resolve_numeric in Hx. tauto. }
  rewrite !dtype_of_coerce_col; try reflexivity;
    intros E; eapply K; eauto.
Qed.

End Resolution.

(** ** Text cleaning and the missing-row filter *)

Section TextAndFilter.
Context {R : Runtime}.

Lemma dtype_of_prepare (df0 : frame) (c : string) :
  well_formed df0 -> ~ In c numeric_names ->
  dtype_of (prepare df0) c = dtype_of df0 c.
Proof.
  intros Hw Hc. unfold prepare.
  change (dtype_of (drop_duplicates ?d) c) with (dtype_of d c).
  rewrite dtype_of_coerce by exact Hc.
  unfold dtype_of. now rewrite (proj1 (strip_text_spec df0 Hw)).
Qed.

Lemma part_not_numeric (c : string) : In c part_names -> ~ In c numeric_names.
Proof.
  intros H H'. eapply (names_apart c c part_names numeric_names); eauto.
Qed.


End TextAndFilter.


(** ** The derived columns *)

Section Derived.
Context {R : Runtime}.

Lemma derive_assigns (cm : col_map) (pr : string) (d : frame) :
  derive cm pr d =
  let d1 := assign "Price_diff" (metric_dtype (competitor_price cm))
                   (price_diff (competitor_price cm) pr d) d in
  let d2 := assign "Price_pct_diff" (metric_dtype (competitor_price cm))
                   (price_pct_diff (competitor_price cm) d1) d1 in
  let d3 := assign "Margin" (metric_dtype (cost cm)) (margin (cost cm) pr d2) d2 in
  assign "Revenue_calc" (metric_dtype (units cm)) (revenue_calc (units cm) pr d3) d3.
Proof.
  unfold derive. destruct (competitor_price cm), (cost cm), (units cm); reflexivity.
Qed.

Lemma not_derived (c d : string) : ~ In c derived_names -> In d derived_names -> d <> c.
Proof. intros H Hd ->. contradiction. Qed.

Lemma numeric_not_derived (c : string) : In c numeric_names -> ~ In c derived_names.
Proof.
  intros H H'. eapply (names_apart c c numeric_names derived_names); eauto.
Qed.

(** A formula over columns other than [c] reads the same before and after
    [df[c] = f]. *)
Lemma price_diff_assign cp pr c dt f d r :
  length (cells r) = length (columns d) ->
  pr <> c -> (forall x, cp = Some x -> x <> c) ->
  price_diff cp pr (assign c dt f d) (assign_row d c f r) = price_diff cp pr d r.
Proof.
  intros Hr Hp Hc. destruct cp as [x|]; simpl; [|reflexivity].
  rewrite !cell_of_assign_other; auto.
Qed.

Lemma price_pct_diff_assign cp c dt f d r :
  length (cells r) = length (columns d) ->
  "Price_diff" <> c -> (forall x, cp = Some x -> x <> c) ->
  price_pct_diff cp (assign c dt f d) (assign_row d c f r) = price_pct_diff cp d r.
Proof.
  intros Hr Hp Hc. destruct cp as [x|]; simpl; [|reflexivity].
  rewrite !cell_of_assign_other; auto.
Qed.

Lemma margin_assign co pr c dt f d r :
  length (cells r) = length (columns d) ->
  pr <> c -> (forall x, co = Some x -> x <> c) ->
  margin co pr (assign c dt f d) (assign_row d c f r) = margin co pr d r.
Proof.
  intros Hr Hp Hc. destruct co as [x|]; simpl; [|reflexivity].
  rewrite !cell_of_assign_other; auto.
Qed.

Lemma revenue_calc_assign un pr c dt f d r :
  length (cells r) = length (columns d) ->
  pr <> c -> (forall x, un = Some x -> x <> c) ->
  revenue_calc un pr (assign c dt f d) (assign_row d c f r) = revenue_calc un pr d r.
Proof.
  intros Hr Hp Hc. destruct un as [x|]; simpl; [|reflexivity].
  rewrite !cell_of_assign_other; auto.
Qed.

(** Lines 77-80 on a rectangular table whose source columns are not named
    like a derived column: every row of the result satisfies the four
    formulas, read in the result itself. *)
Lemma derive_cells (cm : col_map) (pr : string) (d : frame) :
  rectangular d ->
  ~ In pr derived_names ->
  (forall x, competitor_price cm = Some x -> ~ In x derived_names) ->
  (forall x, cost cm = Some x -> ~ In x derived_names) ->
  (forall x, units cm = Some x -> ~ In x derived_names) ->
  forall r, In r (rows (derive cm pr d)) ->
    cell_of (derive cm pr d) "Price_diff" r
    = price_diff (competitor_price cm) pr (derive cm pr d) r /\
    cell_of (derive cm pr d) "Price_pct_diff" r
    = price_pct_diff (competitor_price cm) (derive cm pr d) r /\
    cell_of (derive cm pr d) "Margin" r = margin (cost cm) pr (derive cm pr d) r /\
    cell_of (derive cm pr d) "Revenue_calc" r
    = revenue_calc (units cm) pr (derive cm pr d) r.
Proof.
  intros Hrect Hpr Hcp Hco Hun r. rewrite derive_assigns. cbv zeta.
  set (d1 := assign "Price_diff" _ _ d).
  set (d2 := assign "Price_pct_diff" _ _ d1).
  set (d3 := assign "Margin" _ _ d2).
  rewrite rows_assign, in_map_iff. intros [r3 [<- H3]].
  unfold d3 in H3. rewrite rows_assign, in_map_iff in H3. destruct H3 as [r2 [<- H2]].
  unfold d2 in H2. rewrite rows_assign, in_map_iff in H2. destruct H2 as [r1 [<- H1]].
  unfold d1 in H1. rewrite rows_assign, in_map_iff in H1. destruct H1 as [r0 [<- H0]].
  unfold rectangular in Hrect. rewrite Forall_forall in Hrect. specialize (Hrect r0 H0).
  set (r1 := assign_row d "Price_diff" (price_diff (competitor_price cm) pr d) r0).
  assert (L1 : length (cells r1) = length (columns d1)) by now apply length_assign_row.
  fold d1.
  set (r2 := assign_row d1 "Price_pct_diff" (price_pct_diff (competitor_price cm) d1) r1).
  assert (L2 : length (cells r2) = length (columns d2)) by now apply length_assign_row.
  fold d2.
  set (r3 := assign_row d2 "Margin" (margin (cost cm) pr d2) r2).
  assert (L3 : length (cells r3) = length (columns d3)) by now apply length_assign_row.
  fold d3.
  assert (N : forall c x, ~ In c derived_names -> In x derived_names -> c <> x).
  { intros c x Hc Hx ->. contradiction. }
  assert (Ncp : forall c, In c derived_names ->
                          forall x, competitor_price cm = Some x -> x <> c).
  { intros c Hc x Hx. apply N; auto. }
  assert (Nco : forall c, In c derived_names -> forall x, cost cm = Some x -> x <> c).
  { intros c Hc x Hx. apply N; auto. }
  assert (Nun : forall c, In c derived_names -> forall x, units cm = Some x -> x <> c).
  { intros c Hc x Hx. apply N; auto. }
  assert (I1 : In "Price_diff" derived_names) by (simpl; tauto).
  assert (I2 : In "Price_pct_diff" derived_names) by (simpl; tauto).
  assert (I3 : In "Margin" derived_names) by (simpl; tauto).
  assert (I4 : In "Revenue_calc" derived_names) by (simpl; tauto).
  repeat split.
  - rewrite cell_of_assign_other by (auto; discriminate).
    unfold r3, d3. rewrite cell_of_assign_other by (auto; discriminate).
    unfold r2, d2. rewrite cell_of_assign_other by (auto; discriminate).
    unfold r1, d1. rewrite cell_of_assign_same by auto.
    fold d1 r1 d2 r2 d3 r3.
    rewrite price_diff_assign by auto. unfold r3, d3.
    rewrite price_diff_assign by auto. unfold r2, d2.
    rewrite price_diff_assign by auto. unfold r1, d1.
    rewrite price_diff_assign by auto. reflexivity.
  - rewrite cell_of_assign_other by (auto; discriminate).
    unfold r3, d3. rewrite cell_of_assign_other by (auto; discriminate).
    unfold r2, d2. rewrite cell_of_assign_same by auto.
    fold d1 r1 d2 r2 d3 r3.
    rewrite price_pct_diff_assign by (auto; discriminate). unfold r3, d3.
    rewrite price_pct_diff_assign by (auto; discriminate). unfold r2, d2.
    rewrite price_pct_diff_assign by (auto; discriminate). reflexivity.
  - rewrite cell_of_assign_other by (auto; discriminate).
    unfold r3, d3. rewrite cell_of_assign_same by auto.
    fold d1 r1 d2 r2 d3 r3.
    rewrite margin_assign by auto. unfold r3, d3.
    rewrite margin_assign by auto. reflexivity.
  - rewrite cell_of_assign_same by auto.
    rewrite revenue_calc_assign by auto. reflexivity.
Qed.

End Derived.

Section DerivedMetrics.
Context {R : Runtime}.

Lemma has_col_derive (cm : col_map) (pr : string) (d : frame) (c : string) :
  has_col (derive cm pr d) c = has_col d c || existsb (String.eqb c) derived_names.
Proof.
  rewrite derive_assigns. cbv zeta. rewrite !has_col_assign. simpl.
  now rewrite !orb_false_r, <- !orb_assoc.
Qed.

(** The four formulas in the table every output is taken from. *)
Lemma derived_cells (df0 : frame) (pr pa : string) :
  rectangular (cleaned df0 pr pa) ->
  price (resolve (strip_text df0)) = Some pr ->
  forall r, In r (rows (derived df0 pr pa)) ->
    cell_of (derived df0 pr pa) "Price_diff" r
    = price_diff (competitor_price (resolve (strip_text df0))) pr (derived df0 pr pa) r /\
    cell_of (derived df0 pr pa) "Price_pct_diff" r
    = price_pct_diff (competitor_price (resolve (strip_text df0))) (derived df0 pr pa) r /\
    cell_of (derived df0 pr pa) "Margin" r
    = margin (cost (resolve (strip_text df0))) pr (derived df0 pr pa) r /\
    cell_of (derived df0 pr pa) "Revenue_calc" r
    = revenue_calc (units (resolve (strip_text df0))) pr (derived df0 pr pa) r.
Proof.
  intros Hrc Hpr r Hin.
  assert (K : forall x, price (resolve (strip_text df0)) = Some x \/
                        competitor_price (resolve (strip_text df0)) = Some x \/
                        cost (resolve (strip_text df0)) = Some x \/
                        units (resolve (strip_text df0)) = Some x ->
                        ~ In x derived_names).
  { intros x Hx. apply resolve_numeric in Hx. apply numeric_not_derived, Hx. }
  exact (derive_cells (resolve (strip_text df0)) pr (cleaned df0 pr pa) Hrc
           (K pr (or_introl Hpr))
           (fun x H => K x (or_intror (or_introl H)))
           (fun x H => K x (or_intror (or_intror (or_introl H))))
           (fun x H => K x (or_intror (or_intror (or_intror H))))
           r Hin).
Qed.

Lemma derived_formulas (df0 : frame) (pr pa : string) :
  well_formed df0 ->
  price (resolve (strip_text df0)) = Some pr ->
  forall r, In r (rows (derived df0 pr pa)) ->
    cell_of (derived df0 pr pa) "Price_diff" r
    = price_diff (competitor_price (resolve (strip_text df0))) pr (derived df0 pr pa) r /\
    cell_of (derived df0 pr pa) "Price_pct_diff" r
    = price_pct_diff (competitor_price (resolve (strip_text df0))) (derived df0 pr pa) r /\
    cell_of (derived df0 pr pa) "Margin" r
    = margin (cost (resolve (strip_text df0))) pr (derived df0 pr pa) r /\
    cell_of (derived df0 pr pa) "Revenue_calc" r
    = revenue_calc (units (resolve (strip_text df0))) pr (derived df0 pr pa) r.
Proof.
  intros Hw. apply derived_cells. apply (typed_cleaned df0 pr pa Hw).
Qed.

Lemma is_int_sub (a b : cell) : is_int (cell_sub a b) = is_int a && is_int b.
Proof. now destruct a, b. Qed.

Lemma is_int_mul (a b : cell) : is_int (cell_mul a b) = is_int a && is_int b.
Proof. now destruct a, b. Qed.

(** One of lines 77-80 on a table whose numeric columns are whole. *)
Lemma whole_step (c : string) (dt : dtype) (f : row -> cell) (d : frame) :
  rectangular d -> whole_columns d ->
  (dt = float64 ->
   forall r r', In r (rows d) -> In r' (rows d) -> is_int (f r) = is_int (f r')) ->
  rectangular (assign c dt f d) /\ whole_columns (assign c dt f d) /\
  forall x, x <> c -> dtype_of (assign c dt f d) x = dtype_of d x.
Proof.
  intros Hr Hw Hf. split; [now apply rectangular_assign|].
  split; [now apply whole_assign|].
  intros x Hx. rewrite dtype_of_assign. apply String.eqb_neq in Hx. now rewrite Hx.
Qed.

(** Lines 77-80 keep the numeric columns whole: the difference and the
    product of two int64 columns are int64 columns, every other result is a
    float64 column. *)
Lemma whole_derive (cm : col_map) (pr : string) (d : frame) :
  rectangular d -> whole_columns d ->
  ~ In pr derived_names -> dtype_of d pr = Some float64 ->
  (forall x, competitor_price cm = Some x ->
             ~ In x derived_names /\ dtype_of d x = Some float64) ->
  (forall x, cost cm = Some x -> ~ In x derived_names /\ dtype_of d x = Some float64) ->
  (forall x, units cm = Some x -> ~ In x derived_names /\ dtype_of d x = Some float64) ->
  whole_columns (derive cm pr d).
Proof.
  intros Hr Hw Np Dp Hcp Hco Hun. rewrite derive_assigns. cbv zeta.
  assert (N : forall x n, ~ In x derived_names -> In n derived_names -> x <> n).
  { intros x n Hx Hn ->. contradiction. }
  assert (I1 : In "Price_diff" derived_names) by (simpl; tauto).
  assert (I2 : In "Price_pct_diff" derived_names) by (simpl; tauto).
  assert (I3 : In "Margin" derived_names) by (simpl; tauto).
  destruct (whole_step "Price_diff" (metric_dtype (competitor_price cm))
              (price_diff (competitor_price cm) pr d) d Hr Hw) as [R1 [W1 D1]].
  { intros _ r r' Hin Hin'. destruct (competitor_price cm) as [x|]; simpl; [|reflexivity].
    rewrite !is_int_sub, (Hw pr r r'), (Hw x r r'); auto. now apply Hcp. }
  set (d1 := assign "Price_diff" _ _ d) in *.
  destruct (whole_step "Price_pct_diff" (metric_dtype (competitor_price cm))
              (price_pct_diff (competitor_price cm) d1) d1 R1 W1) as [R2 [W2 D2]].
  { intros _ r r' _ _. now destruct (competitor_price cm). }
  set (d2 := assign "Price_pct_diff" _ _ d1) in *.
  destruct (whole_step "Margin" (metric_dtype (cost cm))
              (margin (cost cm) pr d2) d2 R2 W2) as [R3 [W3 D3]].
  { intros _ r r' Hin Hin'. destruct (cost cm) as [x|] eqn:E; simpl; [|reflexivity].
    destruct (Hco x eq_refl) as [Nx Dx].
    rewrite !is_int_sub, (W2 pr r r'), (W2 x r r'); auto.
    - rewrite D2, D1; auto.
    - rewrite D2, D1; auto. }
  set (d3 := assign "Margin" _ _ d2) in *.
  apply whole_assign; [exact R3|exact W3|].
  intros _ r r' Hin Hin'. destruct (units cm) as [x|] eqn:E; simpl; [|reflexivity].
  destruct (Hun x eq_refl) as [Nx Dx].
  rewrite !is_int_mul, (W3 pr r r'), (W3 x r r'); auto.
  - rewrite D3, D2, D1; auto.
  - rewrite D3, D2, D1; auto.
Qed.

Lemma dtype_of_derive (cm : col_map) (pr : string) (d : frame) (c : string) :
  ~ In c derived_names -> dtype_of (derive cm pr d) c = dtype_of d c.
Proof.
  intros Hc. rewrite derive_assigns. cbv zeta. rewrite !dtype_of_assign.
  repeat match goal with
         | |- context [String.eqb c ?n] =>
             let E := fresh in
             destruct (String.eqb c n) eqn:E;
             [apply String.eqb_eq in E; subst c; exfalso; apply Hc; simpl; tauto|]
         end.
  reflexivity.
Qed.

Lemma numeric_role_spec (cm : col_map) (c : string) :
  numeric_role cm c = true ->
  price cm = Some c \/ competitor_price cm = Some c \/ cost cm = Some c \/ units cm = Some c.
Proof.
  unfold numeric_role. cbn [existsb]. rewrite !orb_true_iff.
  assert (K : forall o, is_col o c = true -> o = Some c).
  { intros [x|]; simpl; [|discriminate]. intros E. apply String.eqb_eq in E. now subst. }
  intros [H|[H|[H|[H|H]]]]; try discriminate; apply K in H; tauto.
Qed.


End DerivedMetrics.

Lemma holds_row_length (cols : list (string * dtype)) (cs : list cell) :
  holds_row cols cs = true -> length cs = length cols.
Proof.
  revert cs. induction cols as [|[x dx] cols IH]; intros [|c cs]; simpl;
    try discriminate; auto.
  intros H. apply andb_true_iff in H. f_equal. apply IH, H.
Qed.

Lemma holds_row_cell (cols : list (string * dtype)) (cs : list cell)
      (c : string) (dt : dtype) (i : nat) :
  holds_row cols cs = true -> lookup c cols = Some dt ->
  position c (map fst cols) = Some i -> holds dt (nth i cs NA) = true.
Proof.
  unfold lookup. revert cs i.
  induction cols as [|[x dx] cols IH]; intros [|k cs] i; simpl; try discriminate.
  intros H. apply andb_true_iff in H. destruct H as [Hk Hr].
  destruct (String.eqb c x); simpl.
  - intros [= <-] [= <-]. exact Hk.
  - destruct (position c (map fst cols)) as [j|] eqn:E; simpl; [|discriminate].
    intros Hd [= <-]. eapply IH; eauto.
Qed.

Lemma loadedb_sound (df : frame) : loadedb df = true -> loaded df.
Proof.
  unfold loadedb. rewrite !andb_true_iff. intros [[Hd Hr] Hw].
  rewrite forallb_forall in Hr, Hw.
  split; [now apply distinct_NoDup|]. split; [split|].
  - apply Forall_forall. intros r Hin. apply holds_row_length. auto.
  - intros r c dt Hin Hdt. unfold cell_of.
    destruct (position c (names df)) as [i|] eqn:E.
    + eapply holds_row_cell; eauto.
    + pose proof (has_col_dtype df c) as Q. rewrite Hdt in Q.
      unfold has_col in Q. rewrite position_has, E in Q. discriminate.
  - intros c r r' D Hin Hin'. apply lookup_found in D. specialize (Hw _ D).
    cbn [fst snd] in Hw. rewrite forallb_forall in Hw. specialize (Hw r Hin).
    rewrite forallb_forall in Hw. specialize (Hw r' Hin').
    now apply Bool.eqb_prop in Hw.
Qed.


(** ** Duplicates and missing key fields *)

Lemma eqb_refl_float (x : f64) : is_nan x = false -> (x =? x)%float = true.
Proof. rewrite is_nan_spec, FloatAxioms.eqb_spec. apply SFeqb_refl. Qed.

Lemma cell_same_refl (c : cell) : cell_same c c = true.
Proof.
  destruct c as [x|s| |n]; unfold cell_same; simpl; auto.
  - destruct (is_nan x) eqn:E; simpl; [reflexivity|]. now apply eqb_refl_float.
  - apply String.eqb_refl.
  - apply Z.eqb_refl.
Qed.

Lemma cells_same_refl (l : list cell) : cells_same l l = true.
Proof. induction l; simpl; [reflexivity|]. now rewrite cell_same_refl. Qed.

Lemma cells_same_length (a b : list cell) : cells_same a b = true -> length a = length b.
Proof.
  revert b. induction a as [|x a IH]; intros [|y b]; simpl; try discriminate; auto.
  intros H. apply andb_true_iff in H. f_equal. apply IH, H.
Qed.

Lemma cells_same_app (a b x y : list cell) :
  length a = length b ->
  cells_same (a ++ x) (b ++ y) = cells_same a b && cells_same x y.
Proof.
  revert b. induction a as [|h a IH]; intros [|k b]; simpl; try discriminate; auto.
  intros [= H]. now rewrite IH, andb_assoc.
Qed.

Lemma ForallOrdPairs_filter {A : Type} (Q : A -> A -> Prop) (f : A -> bool) (l : list A) :
  ForallOrdPairs Q l -> ForallOrdPairs Q (filter f l).
Proof.
  induction 1 as [|a l Ha Hl IH]; simpl; [constructor|].
  destruct (f a); [|exact IH]. constructor; [|exact IH].
  rewrite Forall_forall in *. intros x Hx. apply filter_In in Hx. apply Ha, Hx.
Qed.

Lemma ForallOrdPairs_map {A B : Type} (Q : B -> B -> Prop) (g : A -> B) (l : list A) :
  ForallOrdPairs (fun a b => Q (g a) (g b)) l -> ForallOrdPairs Q (map g l).
Proof.
  induction 1 as [|a l Ha Hl IH]; simpl; constructor; [|exact IH].
  now apply Forall_map.
Qed.

Lemma ForallOrdPairs_impl_in {A : Type} (Q Q' : A -> A -> Prop) (l : list A) :
  (forall a b, In a l -> In b l -> Q a b -> Q' a b) ->
  ForallOrdPairs Q l -> ForallOrdPairs Q' l.
Proof.
  intros H. induction 1 as [|a l Ha Hl IH]; constructor.
  - rewrite Forall_forall in *. intros x Hx. apply H; simpl; auto.
  - apply IH. intros x y Hx Hy. apply H; simpl; auto.
Qed.

Section Invariants.
Context {R : Runtime}.

Lemma keep_first_distinct (above rs : list row) :
  no_duplicates (keep_first above rs) /\
  Forall (fun r => forall s, In s above -> row_same s r = false) (keep_first above rs).
Proof.
  revert above. induction rs as [|r rs IH]; intros above; simpl.
  - split; constructor.
  - destruct (IH (r :: above)) as [Hd Ha].
    assert (Ha' : Forall (fun x => forall s, In s above -> row_same s x = false)
                         (keep_first (r :: above) rs)).
    { eapply Forall_impl; [|exact Ha]. simpl. intros x Hx s Hs. apply Hx. now right. }
    destruct (existsb (fun s => row_same s r) above) eqn:E.
    + split; assumption.
    + split.
      * constructor; [|exact Hd].
        eapply Forall_impl; [|exact Ha]. simpl. intros x Hx. apply Hx. now left.
      * constructor; [|exact Ha'].
        intros s Hs. destruct (row_same s r) eqn:Q; [|reflexivity].
        assert (existsb (fun s => row_same s r) above = true); [|congruence].
        apply existsb_exists. eauto.
Qed.

Lemma no_duplicates_cleaned (df0 : frame) (pr pa : string) :
  no_duplicates (rows (cleaned df0 pr pa)).
Proof.
  unfold cleaned, dropna, select, prepare. cbn [rows].
  apply ForallOrdPairs_filter. apply keep_first_distinct.
Qed.

Lemma no_duplicates_differ (rs : list row) :
  no_duplicates rs -> ForallOrdPairs (fun a b => cells a <> cells b) rs.
Proof.
  apply ForallOrdPairs_impl_in. intros a b _ _ H E.
  unfold row_same in H. rewrite E, cells_same_refl in H. discriminate.
Qed.

Lemma present_cleaned (df0 : frame) (pr pa : string) (r : row) :
  In r (rows (cleaned df0 pr pa)) ->
  isna (cell_of (cleaned df0 pr pa) pr r) = false /\
  isna (cell_of (cleaned df0 pr pa) pa r) = false.
Proof.
  unfold cleaned at 1, dropna, select. cbn [rows]. intros H.
  apply filter_In in H. destruct H as [_ H]. cbn [forallb] in H.
  apply andb_true_iff in H. destruct H as [H1 H2].
  apply andb_true_iff in H2. destruct H2 as [H2 _].
  apply negb_true_iff in H1, H2.
  change (cell_of (cleaned df0 pr pa)) with (cell_of (prepare df0)). auto.
Qed.

Lemma assign_fresh (c : string) (dt : dtype) (f : row -> cell) (d : frame) :
  has_col d c = false ->
  rows (assign c dt f d) = map (fun r => Row (label r) (cells r ++ [f r])) (rows d).
Proof.
  unfold has_col, assign. rewrite position_has.
  destruct (position c (names d)); [discriminate|reflexivity].
Qed.

(** With no column named like a derived one, lines 77-80 only append. *)
Lemma derive_appends (cm : col_map) (pr : string) (d : frame) :
  (forall n, In n derived_names -> has_col d n = false) ->
  exists extra,
    rows (derive cm pr d) = map (fun r => Row (label r) (cells r ++ extra r)) (rows d).
Proof.
  intros H. rewrite derive_assigns. cbv zeta.
  set (d1 := assign "Price_diff" _ _ d).
  set (d2 := assign "Price_pct_diff" _ _ d1).
  set (d3 := assign "Margin" _ _ d2).
  assert (H1 : has_col d "Price_diff" = false) by (apply H; simpl; tauto).
  assert (H2 : has_col d1 "Price_pct_diff" = false).
  { unfold d1. rewrite has_col_assign, H by (simpl; tauto). reflexivity. }
  assert (H3 : has_col d2 "Margin" = false).
  { unfold d2, d1. rewrite !has_col_assign, H by (simpl; tauto). reflexivity. }
  assert (H4 : has_col d3 "Revenue_calc" = false).
  { unfold d3, d2, d1. rewrite !has_col_assign, H by (simpl; tauto). reflexivity. }
  rewrite (assign_fresh _ _ _ d3 H4). unfold d3 at 2.
  rewrite (assign_fresh _ _ _ d2 H3). unfold d2 at 2.
  rewrite (assign_fresh _ _ _ d1 H2). unfold d1 at 2.
  rewrite (assign_fresh _ _ _ d H1). rewrite !map_map. cbn [label cells].
  eexists (fun r => _ :: _ :: _ :: _ :: []).
  apply map_ext. intros r. rewrite <- !app_assoc. reflexivity.
Qed.

(** A column that is not a derived one reads the same before and after
    lines 77-80. *)
Lemma derive_keeps (cm : col_map) (pr : string) (d : frame) :
  rectangular d ->
  exists psi,
    rows (derive cm pr d) = map psi (rows d) /\
    (forall r, label (psi r) = label r) /\
    forall r c, In r (rows d) -> ~ In c derived_names ->
      cell_of (derive cm pr d) c (psi r) = cell_of d c r.
Proof.
  intros Hrect. rewrite derive_assigns. cbv zeta.
  set (d1 := assign "Price_diff" _ _ d).
  set (d2 := assign "Price_pct_diff" _ _ d1).
  set (d3 := assign "Margin" _ _ d2).
  assert (E1 : rows d1 = map (assign_row d "Price_diff"
                                (price_diff (competitor_price cm) pr d)) (rows d))
    by apply rows_assign.
  assert (E2 : rows d2 = map (assign_row d1 "Price_pct_diff"
                                (price_pct_diff (competitor_price cm) d1)) (rows d1))
    by apply rows_assign.
  assert (E3 : rows d3 = map (assign_row d2 "Margin" (margin (cost cm) pr d2)) (rows d2))
    by apply rows_assign.
  eexists. split; [|split].
  - rewrite rows_assign, E3, E2, E1, !map_map. reflexivity.
  - intros r. cbv beta. now rewrite !label_assign_row.
  - intros r c Hin Hc. cbv beta.
    unfold rectangular in Hrect. rewrite Forall_forall in Hrect. specialize (Hrect r Hin).
    set (r1 := assign_row d "Price_diff" _ r).
    assert (L1 : length (cells r1) = length (columns d1)) by now apply length_assign_row.
    set (r2 := assign_row d1 "Price_pct_diff" _ r1).
    assert (L2 : length (cells r2) = length (columns d2)) by now apply length_assign_row.
    set (r3 := assign_row d2 "Margin" _ r2).
    assert (L3 : length (cells r3) = length (columns d3)) by now apply length_assign_row.
    assert (N : forall x, In x derived_names -> c <> x).
    { intros x Hx ->. contradiction. }
    rewrite cell_of_assign_other by (auto; apply N; simpl; tauto).
    unfold r3, d3. rewrite cell_of_assign_other by (auto; apply N; simpl; tauto).
    unfold r2, d2. rewrite cell_of_assign_other by (auto; apply N; simpl; tauto).
    unfold r1, d1. rewrite cell_of_assign_other by (auto; apply N; simpl; tauto).
    reflexivity.
Qed.

Lemma names_coerce_col (col : option string) (df : frame) :
  (forall c, col = Some c -> has_col df c = true) ->
  names (coerce_col col df) = names df.
Proof.
  destruct col as [c|]; simpl; [|reflexivity]. intros H.
  rewrite names_assign, H; reflexivity.
Qed.

Lemma names_coerce (df : frame) : names (coerce (resolve df) df) = names df.
Proof.
  assert (K : forall x, price (resolve df) = Some x \/ competitor_price (resolve df) = Some x \/
                        cost (resolve df) = Some x \/ units (resolve df) = Some x ->
                        has_col df x = true).
  { intros x Hx. apply resolve_numeric in Hx. apply Hx. }
  unfold coerce.
  assert (E1 : names (coerce_col (price (resolve df)) df) = names df)
    by (apply names_coerce_col; auto).
  assert (E2 : names (coerce_col (competitor_price (resolve df))
                        (coerce_col (price (resolve df)) df)) = names df).
  { rewrite names_coerce_col; [exact E1|]. intros c Hc. unfold has_col. rewrite E1.
    apply K. auto. }
  assert (E3 : names (coerce_col (cost (resolve df))
                        (coerce_col (competitor_price (resolve df))
                           (coerce_col (price (resolve df)) df))) = names df).
  { rewrite names_coerce_col; [exact E2|]. intros c Hc. unfold has_col. rewrite E2.
    apply K. auto. }
  rewrite names_coerce_col; [exact E3|]. intros c Hc. unfold has_col. rewrite E3.
  apply K. auto.
Qed.

Lemma names_cleaned (df0 : frame) (pr pa : string) :
  names (cleaned df0 pr pa) = names df0.
Proof.
  change (names (cleaned df0 pr pa))
    with (names (coerce (resolve (strip_text df0)) (strip_text df0))).
  now rewrite names_coerce, names_strip_text.
Qed.

End Invariants.

Section CleaningInvariant.
Context {R : Runtime}.

Lemma part_not_derived (c : string) : In c part_names -> ~ In c derived_names.
Proof.
  intros H H'. eapply (names_apart c c part_names derived_names); eauto.
Qed.


End CleaningInvariant.



(** ** The files of a run *)

Section Files.
Context {R : Runtime}.

(** After line 82 the run writes the exported files, then only charts and
    the top-10 file of the extra analytics block. *)
Lemma report_written (cm : col_map) (pr : string) (df : frame) (w : world) :
  exists later,
    written (snd (report cm pr df w)) = later ++ exported cm df ++ written w /\
    Forall (fun p => side_name (fst p)) later.
Proof.
  unfold report. destruct (export_spec cm df w) as [out [E _]].
  rewrite (bind_ok _ _ _ _ _ E).
  assert (K : keeps side_name (fun _ => True) (charts cm pr df ;; manifest df)).
  { apply keeps_bind.
    - eapply keeps_weaken; [| |apply keeps_charts]; unfold side_name; auto.
    - intros _. eapply keeps_weaken; [| |apply keeps_manifest]; unfold side_name; auto. }
  destruct (K (World (disk w) (exported cm df ++ written w) (out ++ stdout w)))
    as [[_ [[later [F P]] _]] _].
  exists later. split; [exact F|exact P].
Qed.

Lemma run_written (folder : list (string * artifact)) (df0 : frame) (pr pa : string) :
  lookup file_name folder = Some (Workbook df0) ->
  price (resolve (strip_text df0)) = Some pr ->
  part (resolve (strip_text df0)) = Some pa ->
  exists later,
    written (snd (run folder)) =
      later ++ exported (resolve (strip_text df0)) (derived df0 pr pa) /\
    Forall (fun p => side_name (fst p)) later.
Proof.
  intros H Hp Ha. destruct (run_resolved folder df0 pr pa H Hp Ha) as [out [E _]].
  rewrite E.
  destruct (report_written (resolve (strip_text df0)) pr (derived df0 pr pa)
              (World folder [] out)) as [later [F P]].
  exists later. cbn [written] in F. rewrite app_nil_r in F. auto.
Qed.

(** Which exported file a name stands for. *)
Lemma exported_lookup (cm : col_map) (df : frame) (name : string) (a : artifact) :
  In (name, a) (exported cm df) <->
  (name = "low_margin_high_sales.csv" /\
   exists co un, cost cm = Some co /\ units cm = Some un /\
                 a = Csv (low_margin_high_sales un df)) \/
  (name = "parts_overpriced_gt10pct.csv" /\
   competitor_price cm <> None /\ a = Csv (overpriced df)) \/
  (name = "top20_by_revenue.csv" /\ a = Csv (top_revenue df)) \/
  (name = clean_name /\ a = Csv df).
Proof.
  unfold exported. rewrite !in_app_iff. split.
  - intros [H|[H|H]].
    + left. destruct (cost cm) as [co|], (units cm) as [un|]; simpl in H; try tauto.
      destruct H as [[= <- <-]|[]]. split; [reflexivity|]. eauto.
    + right. left. destruct (competitor_price cm); simpl in H; try tauto.
      destruct H as [[= <- <-]|[]]. repeat split. discriminate.
    + right. right. simpl in H. destruct H as [[= <- <-]|[[= <- <-]|[]]]; auto.
  - intros [[-> [co [un [Hc [Hu ->]]]]]|[[-> [Hc ->]]|[[-> ->]|[-> ->]]]].
    + left. rewrite Hc, Hu. now left.
    + right. left. destruct (competitor_price cm); [now left|congruence].
    + right. right. now left.
    + right. right. right. now left.
Qed.

Lemma side_name_exported (name : string) :
  side_name name ->
  name <> "low_margin_high_sales.csv" /\ name <> "parts_overpriced_gt10pct.csv" /\
  name <> "top20_by_revenue.csv" /\ name <> clean_name.
Proof.
  unfold side_name, chart_name, top10_name.
  intros [[->| ->]| ->]; repeat split; discriminate.
Qed.

(** The exported files of a run that passes both gates, by name. *)
Lemma run_exported (folder : list (string * artifact)) (df0 : frame) (pr pa : string)
      (name : string) (a : artifact) :
  lookup file_name folder = Some (Workbook df0) ->
  price (resolve (strip_text df0)) = Some pr ->
  part (resolve (strip_text df0)) = Some pa ->
  ~ side_name name ->
  (In (name, a) (written (snd (run folder))) <->
   In (name, a) (exported (resolve (strip_text df0)) (derived df0 pr pa))).
Proof.
  intros H Hp Ha Hn. destruct (run_written folder df0 pr pa H Hp Ha) as [later [F P]].
  rewrite F, in_app_iff. split; [|auto]. intros [Hin|Hin]; [|exact Hin].
  rewrite Forall_forall in P. specialize (P _ Hin). contradiction.
Qed.

(** A run that writes a file has passed both gates. *)
Lemma run_written_gates (folder : list (string * artifact)) (p : string * artifact) :
  In p (written (snd (run folder))) ->
  exists df0 pr pa,
    lookup file_name folder = Some (Workbook df0) /\
    price (resolve (strip_text df0)) = Some pr /\
    part (resolve (strip_text df0)) = Some pa.
Proof.
  intros Hin. destruct (lookup file_name folder) as [a|] eqn:H.
  - destruct a as [df0|d|d].
    + destruct (price (resolve (strip_text df0))) as [pr|] eqn:Hp.
      * destruct (part (resolve (strip_text df0))) as [pa|] eqn:Ha.
        -- exists df0, pr, pa. auto.
        -- exfalso. destruct (run_unresolved folder df0 H (or_intror Ha)) as [out [E _]].
           rewrite E in Hin. exact Hin.
      * exfalso. destruct (run_unresolved folder df0 H (or_introl Hp)) as [out [E _]].
        rewrite E in Hin. exact Hin.
    + exfalso. destruct (run_unreadable folder (Csv d) H) as [msg E]; [discriminate|].
      rewrite E in Hin. exact Hin.
    + exfalso. destruct (run_unreadable folder (Png d) H) as [msg E]; [discriminate|].
      rewrite E in Hin. exact Hin.
  - exfalso. rewrite (run_missing folder H) in Hin. exact Hin.
Qed.

End Files.

(** ** Sorted extracts *)

Lemma StronglySorted_impl_in {A : Type} (Q Q' : A -> A -> Prop) (l : list A) :
  (forall a b, In a l -> In b l -> Q a b -> Q' a b) ->
  StronglySorted Q l -> StronglySorted Q' l.
Proof.
  intros H. induction 1 as [|a l Hs IH Ha]; constructor.
  - apply IH. intros x y Hx Hy. apply H; simpl; auto.
  - rewrite Forall_forall in *. intros x Hx. apply H; simpl; auto.
Qed.

Lemma firstn_incl {A : Type} (n : nat) (l : list A) : incl (firstn n l) l.
Proof.
  revert n. induction l as [|x l IH]; intros [|n] y Hy; simpl in *; try tauto.
  destruct Hy as [Hy|Hy]; [now left|right; eapply IH; eauto].
Qed.

Lemma StronglySorted_firstn {A : Type} (Q : A -> A -> Prop) (n : nat) (l : list A) :
  StronglySorted Q l -> StronglySorted Q (firstn n l).
Proof.
  intros H. revert n. induction H as [|a l Hs IH Ha]; intros [|n]; simpl; try constructor.
  - apply IH.
  - rewrite Forall_forall in *. intros x Hx. apply Ha. eapply firstn_incl; eauto.
Qed.

Lemma number_present (c : cell) : is_number c = true -> isna c = false.
Proof. destruct c; simpl; try discriminate. now intros H%negb_true_iff. Qed.

Lemma descending_all_present (ks : list cell) :
  descending_missing_last ks -> forallb (fun c => negb (isna c)) ks = true ->
  StronglySorted (fun a b => cell_le b a) ks.
Proof.
  intros [front [back [-> [_ [Hb Hs]]]]] Hall.
  rewrite forallb_app in Hall. apply andb_true_iff in Hall. destruct Hall as [_ Hall].
  destruct back as [|k back]; [now rewrite app_nil_r|].
  simpl in *. apply andb_true_iff in Hb, Hall.
  destruct Hb as [Hb _], Hall as [Hall _]. rewrite Hb in Hall. discriminate.
Qed.

Lemma descending_of_numbers (ks : list cell) :
  forallb is_number ks = true ->
  StronglySorted (fun a b => cell_le b a) ks -> descending_numbers ks.
Proof.
  intros Hn. apply StronglySorted_impl_in. rewrite forallb_forall in Hn.
  intros a b Ha Hb. pose proof (Hn a Ha) as Na. pose proof (Hn b Hb) as Nb.
  destruct a as [x| | |], b as [y| | |]; try discriminate. unfold cell_le. simpl in *.
  apply negb_true_iff in Na, Nb. intros H.
  rewrite leb_not_ltb by assumption. now rewrite H.
Qed.

Lemma greater_is_number (c : cell) (x : f64) :
  (forall n, c <> Int n) -> (x <? num c)%float = true -> is_number c = true.
Proof.
  intros Hc H. pose proof (ltb_not_nan_r _ _ H) as N.
  destruct c; simpl in *;
    [now rewrite N|discriminate N|discriminate N|now destruct (Hc n)].
Qed.

Lemma at_least_is_number (c : cell) (x : f64) :
  (forall n, c <> Int n) -> (x <=? num c)%float = true -> is_number c = true.
Proof.
  intros Hc H. pose proof (leb_not_nan_r _ _ H) as N.
  destruct c; simpl in *;
    [now rewrite N|discriminate N|discriminate N|now destruct (Hc n)].
Qed.

Section Extracts.
Context {R : Runtime} {L : RuntimeLaws R}.

(** Sorting descending on a column that holds a number in every row. *)
Lemma sort_values_numbers (c : string) (df : frame) :
  typed settled df ->
  (forall r, In r (rows df) -> is_number (cell_of df c r) = true) ->
  descending_numbers (column (sort_values c false df) c).
Proof.
  intros Ht Hn.
  assert (N : forallb is_number (column (sort_values c false df) c) = true).
  { apply forallb_forall. intros k Hk. unfold column in Hk. apply in_map_iff in Hk.
    destruct Hk as [r [<- Hr]].
    apply (Permutation_in _ (sort_values_perm c false df)) in Hr.
    rewrite (cell_of_columns df) by reflexivity. auto. }
  apply descending_of_numbers; [exact N|].
  apply descending_all_present.
  - apply sort_values_descending. now apply typed_sortable.
  - apply forallb_forall. intros k Hk. rewrite forallb_forall in N.
    now rewrite (number_present k (N k Hk)).
Qed.

Lemma overpriced_spec (df : frame) :
  typed settled df ->
  Permutation (rows (overpriced df))
              (filter (fun r => (10 <? num (cell_of df "Price_pct_diff" r))%float) (rows df)) /\
  descending_numbers (column (overpriced df) "Price_pct_diff").
Proof.
  intros Ht. unfold overpriced. split; [apply sort_values_perm|].
  apply sort_values_numbers; [now apply typed_select|].
  intros r Hr. simpl in Hr. apply filter_In in Hr. destruct Hr as [Hin Hr].
  rewrite (cell_of_columns df) by reflexivity.
  eapply greater_is_number; [|eauto]. intros n. now apply settled_not_int.
Qed.

Lemma low_margin_high_sales_spec (un : string) (df : frame) :
  typed settled df ->
  Permutation (rows (low_margin_high_sales un df))
              (filter (fun r => (num (cell_of df "Margin" r) <=? margin_q df)%float
                                && (units_q un df <=? num (cell_of df un r))%float)
                      (rows df)) /\
  descending_numbers (column (low_margin_high_sales un df) un).
Proof.
  intros Ht. unfold low_margin_high_sales. split; [apply sort_values_perm|].
  apply sort_values_numbers; [now apply typed_select|].
  intros r Hr. simpl in Hr. apply filter_In in Hr. destruct Hr as [Hin Hr].
  apply andb_true_iff in Hr. destruct Hr as [_ Hr].
  rewrite (cell_of_columns df) by reflexivity.
  eapply at_least_is_number; [|eauto]. intros n. now apply settled_not_int.
Qed.

End Extracts.

Section OptionalExtracts.
Context {R : Runtime} {L : RuntimeLaws R}.



End OptionalExtracts.



(** ** Ties under a descending sort *)

Lemma StronglySorted_nth {A : Type} (Q : A -> A -> Prop) (l : list A) (d : A) :
  StronglySorted Q l ->
  forall u v, u < v < length l -> Q (nth u l d) (nth v l d).
Proof.
  induction 1 as [|a l Hs IH Ha]; intros u v Huv; simpl in *; [lia|].
  destruct v as [|v]; [lia|]. destruct u as [|u].
  - rewrite Forall_forall in Ha. apply Ha, nth_In. lia.
  - apply IH. lia.
Qed.

Lemma StronglySorted_filter {A : Type} (Q : A -> A -> Prop) (f : A -> bool) (l : list A) :
  StronglySorted Q l -> StronglySorted Q (filter f l).
Proof.
  induction 1 as [|a l Hs IH Ha]; simpl; [constructor|].
  destruct (f a); [|exact IH]. constructor; [exact IH|].
  rewrite Forall_forall in *. intros x Hx. apply filter_In in Hx. apply Ha, Hx.
Qed.

Lemma seq_increasing (start len : nat) : StronglySorted lt (seq start len).
Proof.
  revert start. induction len as [|len IH]; intros start; simpl; constructor; [apply IH|].
  apply Forall_forall. intros x Hx. apply in_seq in Hx. lia.
Qed.

Lemma present_increasing (ks : list cell) : StronglySorted lt (present ks).
Proof. apply StronglySorted_filter, seq_increasing. Qed.

Lemma absent_increasing (ks : list cell) : StronglySorted lt (absent ks).
Proof. apply StronglySorted_filter, seq_increasing. Qed.

Lemma tied_sym (a b : cell) : tied a b -> tied b a.
Proof. unfold tied. tauto. Qed.

Section Ties.
Context {R : Runtime} {L : RuntimeLaws R}.

Lemma argsort_length (ks : list cell) : length (argsort ks) = length ks.
Proof. rewrite (Permutation_length (argsort_perm ks)). apply length_seq. Qed.

(** The front of a descending [nargsort], position by position. *)
Lemma nargsort_front_nth (ks : list cell) (p : nat) :
  let rp := rev (present ks) in
  let a := argsort (map (fun i => nth i ks NA) rp) in
  let m := length (present ks) in
  p < m ->
  nth p (nargsort ks false) 0 = nth (m - 1 - nth (m - 1 - p) a 0) (present ks) 0 /\
  nth (nth p (nargsort ks false) 0) ks NA
  = nth (nth (m - 1 - p) a 0) (map (fun i => nth i ks NA) rp) NA /\
  nth (m - 1 - p) a 0 < m.
Proof.
  intros rp a m Hp.
  assert (La : length a = m).
  { unfold a. rewrite argsort_length, length_map. unfold rp. apply length_rev. }
  assert (Ba : nth (m - 1 - p) a 0 < m).
  { pose proof (argsort_bounded (map (fun i => nth i ks NA) rp)) as B.
    rewrite Forall_forall in B. fold a in B.
    specialize (B (nth (m - 1 - p) a 0)).
    rewrite length_map in B. unfold rp in B. rewrite length_rev in B.
    apply B, nth_In. lia. }
  assert (E : nth p (nargsort ks false) 0 = nth (nth (m - 1 - p) a 0) rp 0).
  { rewrite nargsort_descending. fold rp a.
    rewrite app_nth1 by (rewrite length_rev, length_map; lia).
    rewrite rev_nth by (rewrite length_map; lia).
    rewrite length_map, La.
    replace (m - S p) with (m - 1 - p) by lia.
    rewrite (nth_indep _ 0 ((fun k => nth k rp 0) 0)) by (rewrite length_map; lia).
    now rewrite (map_nth (fun k => nth k rp 0)). }
  split; [|split; [|exact Ba]].
  - rewrite E. unfold rp. rewrite rev_nth by (fold m; lia). fold m.
    f_equal. lia.
  - rewrite E.
    rewrite (nth_indep (map _ rp) NA ((fun i => nth i ks NA) 0))
      by (rewrite length_map; unfold rp; rewrite length_rev; exact Ba).
    now rewrite (map_nth (fun i => nth i ks NA)).
Qed.

Lemma nargsort_length (ks : list cell) (ascending : bool) :
  length (nargsort ks ascending) = length ks.
Proof. rewrite (Permutation_length (nargsort_perm ks ascending)). apply length_seq. Qed.

Lemma nargsort_front_length (ks : list cell) :
  length (rev (map (fun k => nth k (rev (present ks)) 0)
                   (argsort (map (fun i => nth i ks NA) (rev (present ks))))))
  = length (present ks).
Proof. now rewrite length_rev, length_map, argsort_length, length_map, length_rev. Qed.

(** Past the front come the positions of the missing keys. *)
Lemma nargsort_back_nth (ks : list cell) (p : nat) :
  length (present ks) <= p < length ks ->
  nth p (nargsort ks false) 0 = nth (p - length (present ks)) (absent ks) 0 /\
  p - length (present ks) < length (absent ks) /\
  isna (nth (nth p (nargsort ks false) 0) ks NA) = true.
Proof.
  intros Hp.
  assert (T : length (present ks) + length (absent ks) = length ks).
  { rewrite <- (nargsort_length ks false), nargsort_descending, length_app.
    now rewrite nargsort_front_length. }
  assert (E : nth p (nargsort ks false) 0 = nth (p - length (present ks)) (absent ks) 0).
  { rewrite nargsort_descending, app_nth2 by (rewrite nargsort_front_length; lia).
    now rewrite nargsort_front_length. }
  split; [exact E|]. split; [lia|]. rewrite E.
  assert (I : In (nth (p - length (present ks)) (absent ks) 0) (absent ks))
    by (apply nth_In; lia).
  unfold absent in I at 2. apply filter_In in I. apply I.
Qed.

Lemma nargsort_present_front (ks : list cell) (p : nat) :
  p < length ks ->
  isna (nth (nth p (nargsort ks false) 0) ks NA) = false ->
  p < length (present ks).
Proof.
  intros Hp Hn. destruct (Nat.lt_ge_cases p (length (present ks))) as [H|H]; [exact H|].
  destruct (nargsort_back_nth ks p) as [_ [_ E]]; [lia|]. congruence.
Qed.

(** Under a stable argsort, a descending sort leaves tied keys in their
    original order; the missing keys are in their original order under
    any argsort. *)
Lemma nargsort_ties (ks : list cell) (p q : nat) :
  p < q < length ks ->
  let i := nth p (nargsort ks false) 0 in
  let j := nth q (nargsort ks false) 0 in
  (stable_on R (map (fun i => nth i ks NA) (rev (present ks))) ->
   isna (nth i ks NA) = false -> isna (nth j ks NA) = false ->
   tied (nth i ks NA) (nth j ks NA) -> i < j) /\
  (isna (nth i ks NA) = true -> isna (nth j ks NA) = true -> i < j).
Proof.
  intros Hpq i j. split.
  - intros Hst Hi Hj Ht.
    assert (Hp : p < length (present ks)) by (apply nargsort_present_front; [lia|exact Hi]).
    assert (Hq : q < length (present ks)) by (apply nargsort_present_front; [lia|exact Hj]).
    destruct (nargsort_front_nth ks p Hp) as [Ei [Ki Bi]].
    destruct (nargsort_front_nth ks q Hq) as [Ej [Kj Bj]].
    fold i in Ei, Ki. fold j in Ej, Kj.
    set (m := length (present ks)) in *.
    set (K := map (fun i => nth i ks NA) (rev (present ks))) in *.
    assert (S : nth (m - 1 - q) (argsort K) 0 < nth (m - 1 - p) (argsort K) 0).
    { apply Hst.
      - unfold K. rewrite length_map, length_rev. fold m. lia.
      - rewrite <- Ki, <- Kj. now apply tied_sym. }
    rewrite Ei, Ej.
    apply (StronglySorted_nth lt (present ks) 0 (present_increasing ks)).
    fold m. lia.
  - intros Hi Hj.
    assert (Hp : length (present ks) <= p).
    { destruct (Nat.lt_ge_cases p (length (present ks))) as [H|H]; [|exact H].
      destruct (nargsort_front_nth ks p H) as [Ei [Ki Bi]]. fold i in Ei.
      assert (I : In i (present ks)) by (rewrite Ei; apply nth_In; lia).
      unfold present in I. apply filter_In in I. destruct I as [_ I].
      rewrite Hi in I. discriminate. }
    destruct (nargsort_back_nth ks p) as [Ei [Bi _]]; [lia|].
    destruct (nargsort_back_nth ks q) as [Ej [Bj _]]; [lia|].
    fold i in Ei. fold j in Ej. rewrite Ei, Ej.
    apply (StronglySorted_nth lt (absent ks) 0 (absent_increasing ks)). lia.
Qed.

End Ties.

(** ** The insertion argsort is stable *)

Lemma insert_pos_before (ks : list cell) (i : nat) (l : list nat) :
  comparable ks -> i < length ks -> Forall (fun j => j < length ks) l ->
  Forall (fun j => i < j) l ->
  StronglySorted (before ks) l -> StronglySorted (before ks) (insert_pos ks i l).
Proof.
  intros Hc Hi. induction l as [|j l IH]; simpl; intros Hl Hgt Hs.
  - repeat constructor.
  - inversion Hl as [|? ? Hj Hl']; subst. inversion Hgt as [|? ? Hij Hgt']; subst.
    inversion Hs as [|? ? Hs' Hall]; subst.
    destruct (cell_ltb (nth j ks NA) (nth i ks NA)) eqn:E.
    + constructor; [now apply IH|].
      eapply Permutation_Forall; [apply Permutation_sym, insert_pos_perm|].
      constructor; [|exact Hall]. split.
      * now apply cell_ltb_asym.
      * unfold cell_le. congruence.
    + constructor; [exact Hs|]. constructor.
      * split; [exact E|auto].
      * rewrite Forall_forall in *. intros x Hx. split.
        -- apply (cell_le_trans_in ks _ (nth j ks NA)); auto using nth_In.
           apply (Hall x Hx).
        -- intros _. auto.
Qed.

Lemma insertion_sort_before (ks : list cell) (l : list nat) :
  comparable ks -> Forall (fun j => j < length ks) l -> StronglySorted lt l ->
  StronglySorted (before ks) (insertion_sort ks l).
Proof.
  intros Hc. induction l as [|i l IH]; simpl; intros Hl Hs; [constructor|].
  inversion Hl; subst. inversion Hs; subst.
  apply insert_pos_before; auto.
  - eapply Permutation_Forall; [apply Permutation_sym, insertion_sort_perm|assumption].
  - eapply Permutation_Forall; [apply Permutation_sym, insertion_sort_perm|assumption].
Qed.

Lemma stable_argsort_stable (ks : list cell) :
  comparable ks -> stable_on small_runtime ks.
Proof.
  intros Hc p q Hpq [Ht _]. simpl.
  assert (S : StronglySorted (before ks) (stable_argsort ks)).
  { apply insertion_sort_before; auto using seq_bounded, seq_increasing. }
  apply (StronglySorted_nth _ _ 0 S p q); [|exact Ht].
  unfold stable_argsort.
  rewrite (Permutation_length (insertion_sort_perm ks _)), length_seq. exact Hpq.
Qed.

(** ** The top 20 by revenue *)

Lemma descending_missing_last_firstn (n : nat) (ks : list cell) :
  descending_missing_last ks -> descending_missing_last (firstn n ks).
Proof.
  intros [front [back [-> [Hf [Hb Hs]]]]].
  exists (firstn n front), (firstn (n - length front) back).
  split; [apply firstn_app|]. split; [|split].
  - apply forallb_forall. intros c Hc. rewrite forallb_forall in Hf.
    apply Hf. eapply firstn_incl; eauto.
  - apply forallb_forall. intros c Hc. rewrite forallb_forall in Hb.
    apply Hb. eapply firstn_incl; eauto.
  - now apply StronglySorted_firstn.
Qed.

Lemma column_head (n : nat) (df : frame) (c : string) :
  column (head n df) c = firstn n (column df c).
Proof. unfold column, head. cbn [rows]. now rewrite firstn_map. Qed.

Section TopRevenue.
Context {R : Runtime} {L : RuntimeLaws R}.

Lemma rev_col_spec (df : frame) :
  rev_col df = if has_col df "Revenue" then "Revenue"
               else if has_col df "revenue" then "revenue" else "Revenue_calc".
Proof.
  unfold rev_col. cbn [find_col].
  destruct (has_col df "Revenue") eqn:E1; [now rewrite E1|].
  destruct (has_col df "revenue") eqn:E2; [now rewrite E2|].
  now destruct (has_col df "Revenue_calc").
Qed.


End TopRevenue.



(** ** How a run ends *)

Lemma in_lookup {A : Type} (name : string) (a : A) (l : list (string * A)) :
  In (name, a) l -> exists a', lookup name l = Some a'.
Proof.
  unfold lookup. induction l as [|[x b] l IH]; simpl; [tauto|].
  intros [H|H].
  - inversion H; subst. rewrite String.eqb_refl. simpl. eauto.
  - destruct (String.eqb name x); simpl; eauto.
Qed.

Section Endings.
Context {R : Runtime}.

Lemma keeps_export (cm : col_map) (df : frame) :
  keeps (fun _ => True) (fun _ => True) (export cm df).
Proof.
  unfold export, to_csv.
  repeat (apply keeps_bind; [first [now apply keeps_print|now apply keeps_write]|intros _]).
  apply keeps_bind.
  - destruct (competitor_price cm).
    + apply keeps_bind; [now apply keeps_write|intros _]. now apply keeps_print.
    + now apply keeps_print.
  - intros _. destruct (cost cm), (units cm); try now apply keeps_print.
    apply keeps_bind; [now apply keeps_write|intros _]. now apply keeps_print.
Qed.

Lemma keeps_report (cm : col_map) (pr : string) (df : frame) :
  keeps (fun _ => True) (fun _ => True) (report cm pr df).
Proof.
  unfold report. apply keeps_bind; [apply keeps_export|intros _].
  apply keeps_bind.
  - eapply keeps_weaken; [| |apply keeps_charts]; auto.
  - intros _. eapply keeps_weaken; [| |apply keeps_manifest]; auto.
Qed.

(** When both histograms can be drawn, the run gets to the manifest with
    the exported files written and no banner printed yet. *)
Lemma report_charts_ok (cm : col_map) (pr : string) (df : frame) (w : world) :
  charts_ok cm pr df = true ->
  Forall not_banner (stdout w) ->
  exists w2,
    report cm pr df w = manifest df w2 /\
    (exists a, lookup clean_name (written w2) = Some a) /\
    Forall not_banner (stdout w2).
Proof.
  intros Hc Hw. unfold report. destruct (export_spec cm df w) as [out [E Ho]].
  rewrite (bind_ok _ _ _ _ _ E).
  set (w1 := World (disk w) (exported cm df ++ written w) (out ++ stdout w)).
  pose proof (charts_result cm pr df w1) as Cr. rewrite Hc in Cr.
  destruct (keeps_charts cm pr df w1) as [G _].
  destruct (charts cm pr df w1) as [r w2] eqn:Ec. simpl in Cr, G. subst r.
  exists w2. split; [now rewrite (bind_ok _ _ _ _ _ Ec)|]. split.
  - apply (in_lookup clean_name (Csv df)).
    eapply grows_written; [exact G|]. unfold w1. cbn [written].
    apply in_or_app. left. apply exported_lookup. tauto.
  - destruct G as [_ [_ [o [O Q]]]]. rewrite O. apply Forall_app. split; [exact Q|].
    unfold w1. cbn [stdout]. apply Forall_app. auto.
Qed.

(** When a histogram cannot be drawn, the run stops there. *)
Lemma report_charts_fail (cm : col_map) (pr : string) (df : frame) (w : world) :
  charts_ok cm pr df = false ->
  Forall not_banner (stdout w) ->
  exists msg w2,
    report cm pr df w = (Uncaught (ValueError msg), w2) /\
    Forall not_banner (stdout w2).
Proof.
  intros Hc Hw. unfold report. destruct (export_spec cm df w) as [out [E Ho]].
  rewrite (bind_ok _ _ _ _ _ E).
  set (w1 := World (disk w) (exported cm df ++ written w) (out ++ stdout w)).
  pose proof (charts_result cm pr df w1) as Cr. rewrite Hc in Cr.
  destruct Cr as [msg Cr].
  destruct (keeps_charts cm pr df w1) as [G _].
  destruct (charts cm pr df w1) as [r w2] eqn:Ec. simpl in Cr, G. subst r.
  exists msg, w2. split; [now rewrite (bind_uncaught _ _ _ _ _ Ec)|].
  destruct G as [_ [_ [o [O Q]]]]. rewrite O. apply Forall_app. split; [exact Q|].
  unfold w1. cbn [stdout]. apply Forall_app. auto.
Qed.

Lemma has_col_derived (df0 : frame) (pr pa : string) (c : string) :
  has_col (derived df0 pr pa) c = has_col df0 c || existsb (String.eqb c) derived_names.
Proof.
  unfold derived. rewrite has_col_derive. f_equal.
  unfold has_col. now rewrite names_cleaned.
Qed.

End Endings.

(** ** The run, stage by stage *)

Section RunStages.
Context {R : Runtime}.

(** A run that reads a workbook, up to the guard of line 64 and past
    it. *)
Lemma run_lines (folder : list (string * artifact)) (df0 : frame) :
  lookup file_name folder = Some (Workbook df0) ->
  run folder =
  match price (resolve (strip_text df0)), part (resolve (strip_text df0)) with
  | Some pr, Some pa =>
      report (resolve (strip_text df0)) pr (derived df0 pr pa)
        (World folder []
           ([T "Rows after dropping missing key fields:";
             N (length (rows (cleaned df0 pr pa)))] :: diagnostics df0))
  | _, _ =>
      (SystemExit 1,
       World folder []
         ([T "ERROR: Required column(s) missing (price or part). Please check column names and run again."]
          :: diagnostics df0))
  end.
Proof.
  intros H. unfold run, script, load, bind, path_exists, read_excel, print, sys_exit.
  step. rewrite H. step. rewrite ?H. step.
  unfold diagnostics, derived, cleaned, prepare.
  destruct (price (resolve (strip_text df0))), (part (resolve (strip_text df0)));
    reflexivity.
Qed.

Lemma before_manifest_diagnostics (df0 : frame) : Forall before_manifest (diagnostics df0).
Proof.
  unfold diagnostics, before_manifest.
  repeat constructor; try discriminate; intros f; discriminate.
Qed.

Lemma export_lines (cm : col_map) (df : frame) (w : world) :
  exists out,
    export cm df w = (Ok tt, World (disk w) (exported cm df ++ written w) (out ++ stdout w))
    /\ Forall before_manifest out.
Proof.
  unfold export, exported, to_csv, write, print, bind, before_manifest.
  destruct (competitor_price cm), (cost cm), (units cm); simpl;
    (eexists (_ :: _ :: _ :: _ :: []); split; [reflexivity|];
     repeat constructor; try discriminate; intros f; discriminate).
Qed.

Lemma charts_spec (cm : col_map) (pr : string) (df : frame) (w : world) :
  exists out,
    charts cm pr df w =
    (if charts_ok cm pr df then Ok tt
     else Uncaught (ValueError "supplied range is not finite"),
     World (disk w) (chart_files cm pr df ++ written w) (out ++ stdout w))
    /\ Forall before_manifest out.
Proof.
  unfold charts, hist, charts_ok, chart_files.
  fold (hist_data df pr). fold (hist_data df "Price_pct_diff").
  unfold bind, write, print, raise, before_manifest.
  destruct (hist_ok (hist_data df pr)); cbn [andb app].
  - destruct (competitor_price cm).
    + destruct (hist_ok (hist_data df "Price_pct_diff")); cbn [app].
      * eexists [_; _]. split; [destruct w; reflexivity|].
        repeat constructor; try discriminate; intros f; discriminate.
      * eexists [_]. split; [destruct w; reflexivity|].
        repeat constructor; try discriminate; intros f; discriminate.
    + eexists [_; _]. split; [destruct w; reflexivity|].
      repeat constructor; try discriminate; intros f; discriminate.
  - exists []. split; [|constructor].
    destruct (competitor_price cm); destruct w; reflexivity.
Qed.

Lemma report_spec (cm : col_map) (pr : string) (df : frame) (w : world) :
  exists out,
    Forall before_manifest out /\
    report cm pr df w =
    let w2 := World (disk w) (chart_files cm pr df ++ exported cm df ++ written w)
                    (out ++ stdout w) in
    if charts_ok cm pr df then manifest df w2
    else (Uncaught (ValueError "supplied range is not finite"), w2).
Proof.
  destruct (export_lines cm df w) as [o1 [E1 F1]].
  destruct (charts_spec cm pr df
              (World (disk w) (exported cm df ++ written w) (o1 ++ stdout w)))
    as [o2 [E2 F2]].
  cbn [disk written stdout] in E2.
  exists (o2 ++ o1). split; [now apply Forall_app|].
  unfold report. rewrite (bind_ok _ _ _ _ _ E1). cbv zeta. rewrite <- app_assoc.
  destruct (charts_ok cm pr df).
  - now rewrite (bind_ok _ _ _ _ _ E2).
  - now rewrite (bind_uncaught _ _ _ _ _ E2).
Qed.

(** With its seven columns there the block runs to its end. *)
Lemma extra_analytics_complete (df : frame) (w : world) :
  forallb (has_col df) analytics_names = true ->
  extra_analytics df w =
  (Ok tt, World (disk w)
             (("top10_profitable_parts.csv", Csv (top_profit_parts df)) :: written w)
             (analytics_lines ++ stdout w)).
Proof.
  intros H. cbn [forallb analytics_names] in H.
  repeat (apply andb_true_iff in H; destruct H as [? H]).
  unfold extra_analytics, extra_body, bind, print, require, to_csv, write.
  repeat match goal with E : has_col df _ = true |- _ => rewrite E; clear E end.
  reflexivity.
Qed.

(** With one of them missing it stops with a [KeyError]. *)
Lemma extra_analytics_incomplete (df : frame) (w : world) :
  forallb (has_col df) analytics_names = false ->
  exists k w', extra_analytics df w = (Uncaught (KeyError k), w').
Proof.
  cbn [forallb analytics_names].
  unfold extra_analytics, extra_body, bind, print, require, to_csv, write.
  do 7 (match goal with |- context [has_col df ?c] =>
          destruct (has_col df c); [|intros _; eexists _, _; reflexivity]
        end).
  discriminate.
Qed.

Lemma exists_in_top10 (d : list (string * artifact)) (wr : list (string * artifact))
      (o o' : list line) (a : artifact) (f : string) :
  f <> "top10_profitable_parts.csv" ->
  exists_in (World d (("top10_profitable_parts.csv", a) :: wr) o) f
  = exists_in (World d wr o') f.
Proof.
  intros H. unfold exists_in, lookup. cbn [written disk find fst].
  apply String.eqb_neq in H. now rewrite H.
Qed.

Lemma manifest_entry_complete (df : frame) (f : string) (w : world) :
  forallb (has_col df) analytics_names = true ->
  manifest_entry df f w =
  if exists_in w f
  then (Ok tt, World (disk w)
                  (("top10_profitable_parts.csv", Csv (top_profit_parts df)) :: written w)
                  (block_lines f ++ stdout w))
  else (Ok tt, w).
Proof.
  intros H. unfold manifest_entry, bind at 1, path_exists. fold (exists_in w f).
  destruct (exists_in w f); [|reflexivity].
  unfold bind, print. rewrite extra_analytics_complete by exact H.
  unfold block_lines. cbn [disk written stdout]. now rewrite <- app_assoc.
Qed.

Lemma manifest_loop (df : frame) (l : list string) (w : world) :
  forallb (has_col df) analytics_names = true ->
  ~ In "top10_profitable_parts.csv" l ->
  for_each l (manifest_entry df) w =
  (Ok tt,
   World (disk w)
     (repeat ("top10_profitable_parts.csv", Csv (top_profit_parts df))
             (length (filter (exists_in w) l)) ++ written w)
     (flat_map block_lines (rev (filter (exists_in w) l)) ++ stdout w)).
Proof.
  intros H. revert w. induction l as [|f l IH]; intros w Hn.
  - destruct w; reflexivity.
  - cbn [for_each]. unfold bind. rewrite manifest_entry_complete by exact H.
    cbn [filter]. destruct (exists_in w f) eqn:E.
    + rewrite IH by (intros Hin; apply Hn; now right).
      cbn [disk written stdout].
      assert (F : filter (exists_in
                   (World (disk w)
                      (("top10_profitable_parts.csv", Csv (top_profit_parts df)) :: written w)
                      (block_lines f ++ stdout w))) l
                  = filter (exists_in w) l).
      { apply filter_ext_in. intros x Hx. destruct w as [d wr o]. cbn [disk written stdout].
        apply exists_in_top10. intros ->. apply Hn. now right. }
      rewrite F. cbn [length rev]. rewrite flat_map_app. cbn [flat_map].
      rewrite app_nil_r, <- app_assoc. f_equal. f_equal.
      cbn [repeat]. now rewrite repeat_cons, <- app_assoc.
    + apply IH. intros Hin. apply Hn. now right.
Qed.

Lemma analytics_ready_columns (df : frame) :
  analytics_ready df = true -> forallb (has_col df) analytics_names = true.
Proof.
  unfold analytics_ready. cbn [forallb analytics_names]. intros H.
  rewrite !andb_true_iff in H.
  destruct H as [[Hb Hr] [H1 [H2 [H3 [H4 [H5 _]]]]]].
  rewrite Hb, Hr, !has_col_dtype.
  destruct (dtype_of df "Revenue"), (dtype_of df "Gross_Margin_%"),
    (dtype_of df "Profit"), (dtype_of df "Cost"), (dtype_of df "Price");
    try discriminate; reflexivity.
Qed.

Lemma in_block_lines (l : line) (f : string) :
  In l (block_lines f) <-> In l analytics_lines \/ l = [T " -"; T f].
Proof.
  unfold block_lines. rewrite in_app_iff. simpl. intuition.
Qed.

Lemma manifest_complete (df : frame) (w : world) :
  forallb (has_col df) analytics_names = true ->
  manifest df w =
  (Ok tt,
   World (disk w)
     (repeat ("top10_profitable_parts.csv", Csv (top_profit_parts df))
             (length (filter (exists_in w) manifest_names))
      ++ written w)
     (flat_map block_lines (rev (filter (exists_in w) manifest_names))
      ++ all_done :: stdout w)).
Proof.
  intros H. unfold manifest, bind at 1, print.
  rewrite manifest_loop; [reflexivity|exact H|].
  simpl. intros K. repeat (destruct K as [K|K]; [discriminate K|]). exact K.
Qed.

Lemma run_report (folder : list (string * artifact)) (df0 : frame) (pr pa : string) :
  lookup file_name folder = Some (Workbook df0) ->
  price (resolve (strip_text df0)) = Some pr ->
  part (resolve (strip_text df0)) = Some pa ->
  exists out,
    Forall before_manifest out /\
    (exists later, out = later ++ diagnostics df0) /\
    run folder =
    let cm := resolve (strip_text df0) in
    let df := derived df0 pr pa in
    let w2 := World folder (chart_files cm pr df ++ exported cm df) out in
    if charts_ok cm pr df then manifest df w2
    else (Uncaught (ValueError "supplied range is not finite"), w2).
Proof.
  intros H Hp Ha. rewrite (run_lines folder df0 H), Hp, Ha.
  destruct (report_spec (resolve (strip_text df0)) pr (derived df0 pr pa)
              (World folder []
                 ([T "Rows after dropping missing key fields:";
                   N (length (rows (cleaned df0 pr pa)))] :: diagnostics df0)))
    as [o [F E]].
  cbn [disk written stdout] in E. rewrite app_nil_r in E.
  eexists. split; [|split; [|exact E]].
  - apply Forall_app. split; [exact F|]. constructor.
    + unfold before_manifest. repeat split; try discriminate; intros f; discriminate.
    + apply before_manifest_diagnostics.
  - exists (o ++ [[T "Rows after dropping missing key fields:";
                   N (length (rows (cleaned df0 pr pa)))]]).
    now rewrite <- app_assoc.
Qed.

Lemma lookup_clean (cm : col_map) (pr : string) (df : frame) :
  lookup clean_name (chart_files cm pr df ++ exported cm df) = Some (Csv df).
Proof.
  unfold chart_files, exported.
  destruct (competitor_price cm), (cost cm), (units cm), (hist_ok (hist_data df pr)),
    (hist_ok (hist_data df "Price_pct_diff")); reflexivity.
Qed.

Lemma exists_in_written (w : world) (f : string) (a : artifact) :
  In (f, a) (written w) -> exists_in w f = true.
Proof.
  intros H. apply in_lookup in H. destruct H as [a' H]. unfold exists_in. now rewrite H.
Qed.

(** How the block ends depends on the table alone. *)
Lemma extra_analytics_outcome (df : frame) (w w' : world) :
  fst (extra_analytics df w) = fst (extra_analytics df w').
Proof.
  unfold extra_analytics, extra_body, bind, print, require, to_csv, write.
  do 7 (match goal with |- context [has_col df ?c] =>
          destruct (has_col df c); [|reflexivity]
        end).
  reflexivity.
Qed.

Lemma manifest_stops (df : frame) (w : world) (a : artifact) :
  lookup clean_name (written w) = Some a ->
  forallb (has_col df) analytics_names = false ->
  fst (manifest df w) = fst (extra_analytics df (World [] [] [])).
Proof.
  intros H E. rewrite manifest_unfold. unfold bind.
  rewrite (manifest_entry_found df clean_name _ a) by exact H.
  cbn [disk written stdout].
  destruct (extra_analytics_incomplete df
              (World (disk w) (written w)
                 ([T " -"; T clean_name]
                  :: [T (nl ++ "All done. Output files in project folder:")] :: stdout w)) E)
    as [k [v X]].
  rewrite <- (extra_analytics_outcome df
                (World (disk w) (written w)
                   ([T " -"; T clean_name]
                    :: [T (nl ++ "All done. Output files in project folder:")] :: stdout w))).
  now rewrite X.
Qed.

Lemma coerce_col_cells (col : option string) (d : frame) :
  rectangular d ->
  exists psi,
    rows (coerce_col col d) = map psi (rows d) /\
    forall r, In r (rows d) ->
      label (psi r) = label r /\
      forall c, cell_of (coerce_col col d) c (psi r) =
                if is_col col c then coerce_cell (cell_of d c r) else cell_of d c r.
Proof.
  intros Hr. unfold rectangular in Hr. rewrite Forall_forall in Hr.
  destruct col as [x|]; simpl.
  - exists (assign_row d x (fun r => coerce_cell (cell_of d x r))).
    split; [apply rows_assign|]. intros r Hin. split; [apply label_assign_row|].
    intros c. destruct (String.eqb c x) eqn:E.
    + apply String.eqb_eq in E. subst. apply cell_of_assign_same. auto.
    + apply String.eqb_neq in E. apply cell_of_assign_other; auto.
  - exists (fun r => r). split; [now rewrite map_id|]. auto.
Qed.

Lemma rectangular_coerce_col (col : option string) (d : frame) :
  rectangular d -> rectangular (coerce_col col d).
Proof. destruct col; simpl; [apply rectangular_assign|auto]. Qed.

Lemma coerce_cell_twice (a : cell) : coerce_cell (coerce_cell a) = coerce_cell a.
Proof. now destruct a. Qed.

(** Lines 52-55 seen from the cells: the columns of the resolved numeric
    roles are coerced, the others are untouched. *)
Lemma coerce_cells (cm : col_map) (d : frame) :
  rectangular d ->
  exists psi,
    rows (coerce cm d) = map psi (rows d) /\
    forall r, In r (rows d) ->
      label (psi r) = label r /\
      forall c, cell_of (coerce cm d) c (psi r) =
                if numeric_role cm c then coerce_cell (cell_of d c r) else cell_of d c r.
Proof.
  intros Hr0. unfold coerce.
  set (d1 := coerce_col (price cm) d).
  set (d2 := coerce_col (competitor_price cm) d1).
  set (d3 := coerce_col (cost cm) d2).
  assert (Hr1 : rectangular d1) by now apply rectangular_coerce_col.
  assert (Hr2 : rectangular d2) by now apply rectangular_coerce_col.
  assert (Hr3 : rectangular d3) by now apply rectangular_coerce_col.
  destruct (coerce_col_cells (price cm) d Hr0) as [p1 [E1 K1]]. fold d1 in E1, K1.
  destruct (coerce_col_cells (competitor_price cm) d1 Hr1) as [p2 [E2 K2]].
  fold d2 in E2, K2.
  destruct (coerce_col_cells (cost cm) d2 Hr2) as [p3 [E3 K3]]. fold d3 in E3, K3.
  destruct (coerce_col_cells (units cm) d3 Hr3) as [p4 [E4 K4]].
  exists (fun r => p4 (p3 (p2 (p1 r)))). split.
  - rewrite E4, E3, E2, E1, !map_map. reflexivity.
  - intros r Hin.
    assert (I1 : In (p1 r) (rows d1)) by (rewrite E1; now apply in_map).
    assert (I2 : In (p2 (p1 r)) (rows d2)) by (rewrite E2; now apply in_map).
    assert (I3 : In (p3 (p2 (p1 r))) (rows d3)) by (rewrite E3; now apply in_map).
    destruct (K1 r Hin) as [L1 C1]. destruct (K2 _ I1) as [L2 C2].
    destruct (K3 _ I2) as [L3 C3]. destruct (K4 _ I3) as [L4 C4].
    split; [congruence|]. intros c.
    rewrite C4, C3, C2, C1. unfold numeric_role. cbn [existsb].
    destruct (is_col (price cm) c), (is_col (competitor_price cm) c),
      (is_col (cost cm) c), (is_col (units cm) c);
      rewrite ?coerce_cell_twice; reflexivity.
Qed.

End RunStages.

(** ** Fatal and non-fatal conditions *)

Section Conditions.
Context {R : Runtime}.

Lemma export_notices (cm : col_map) (df : frame) (w : world) :
  (competitor_price cm = None -> In skip_overpriced (stdout (snd (export cm df w)))) /\
  (cost cm = None \/ units cm = None ->
   In skip_low_margin (stdout (snd (export cm df w)))).
Proof.
  unfold export, to_csv, write, print, bind, skip_overpriced, skip_low_margin.
  destruct (competitor_price cm), (cost cm), (units cm); simpl; split;
    intros H; try discriminate; try (destruct H; discriminate); tauto.
Qed.

Lemma report_notices (cm : col_map) (pr : string) (df : frame) (w : world) :
  (competitor_price cm = None ->
   In skip_overpriced (stdout (snd (report cm pr df w)))) /\
  (cost cm = None \/ units cm = None ->
   In skip_low_margin (stdout (snd (report cm pr df w)))).
Proof.
  assert (G : grows (fun _ => True) (fun _ => True)
                    (snd (export cm df w)) (snd (report cm pr df w))).
  { unfold report. apply bind_continues. intros _. apply keeps_bind.
    - eapply keeps_weaken; [| |apply keeps_charts]; auto.
    - intros _. eapply keeps_weaken; [| |apply keeps_manifest]; auto. }
  destruct (export_notices cm df w) as [N1 N2].
  split; intros H; (eapply grows_stdout; [exact G|]); auto.
Qed.

(** The manifest is announced and the cleaned CSV listed, however the
    loop ends. *)
Lemma manifest_listed (df : frame) (w : world) (a : artifact) :
  lookup clean_name (written w) = Some a ->
  In all_done (stdout (snd (manifest df w))) /\
  In [T " -"; T clean_name] (stdout (snd (manifest df w))).
Proof.
  intros H. rewrite manifest_unfold.
  set (w1 := World (disk w) (written w)
                   ([T (nl ++ "All done. Output files in project folder:")] :: stdout w)).
  assert (G : grows top10_name (fun _ => True)
                    (World (disk w1) (written w1) ([T " -"; T clean_name] :: stdout w1))
                    (snd (bind (manifest_entry df clean_name)
                               (fun _ => for_each (tl manifest_names) (manifest_entry df))
                               w1))).
  { eapply grows_trans.
    - apply (keeps_extra_analytics df).
    - rewrite <- (manifest_entry_found df clean_name w1 a) by exact H.
      apply (bind_continues top10_name (fun _ => True)). intros _.
      apply keeps_for_each. intros f. apply keeps_manifest_entry. }
  split; (eapply grows_stdout; [exact G|]); simpl; auto.
Qed.

Lemma rectangular_cleaned (df0 : frame) (pr pa : string) :
  rectangular df0 -> rectangular (cleaned df0 pr pa).
Proof.
  intros Hr. apply rectangular_strip_text in Hr.
  assert (Hc : rectangular (coerce (resolve (strip_text df0)) (strip_text df0))).
  { unfold coerce. now repeat apply rectangular_coerce_col. }
  unfold rectangular in *. rewrite Forall_forall in *. intros r Hin.
  unfold cleaned, dropna, select, prepare in Hin. cbn [rows] in Hin.
  apply filter_In in Hin. destruct Hin as [Hin _]. apply keep_first_incl in Hin.
  exact (Hc r Hin).
Qed.

(** Where a row of the table every output is taken from comes from: a row
    of the stripped table, with its label, coerced in the columns of the
    numeric roles and untouched in the others. *)
Lemma derived_rows (df0 : frame) (pr pa : string) :
  rectangular df0 ->
  forall r, In r (rows (derived df0 pr pa)) ->
    exists r0, In r0 (rows (strip_text df0)) /\ label r0 = label r /\
      forall c, ~ In c derived_names ->
        cell_of (derived df0 pr pa) c r =
        if numeric_role (resolve (strip_text df0)) c
        then coerce_cell (cell_of (strip_text df0) c r0)
        else cell_of (strip_text df0) c r0.
Proof.
  intros Hr r Hin.
  destruct (derive_keeps (resolve (strip_text df0)) pr (cleaned df0 pr pa)
              (rectangular_cleaned df0 pr pa Hr)) as [psi [Hrows [Hl Hpsi]]].
  destruct (coerce_cells (resolve (strip_text df0)) (strip_text df0)
              (rectangular_strip_text df0 Hr)) as [phi [Erows Hphi]].
  unfold derived in Hin. rewrite Hrows in Hin. apply in_map_iff in Hin.
  destruct Hin as [r1 [<- Hin1]].
  assert (Hin2 : In r1 (rows (coerce (resolve (strip_text df0)) (strip_text df0)))).
  { unfold cleaned, dropna, select, prepare in Hin1. cbn [rows] in Hin1.
    apply filter_In in Hin1. destruct Hin1 as [Hin1 _]. now apply keep_first_incl in Hin1. }
  rewrite Erows in Hin2. apply in_map_iff in Hin2. destruct Hin2 as [r0 [<- Hin0]].
  destruct (Hphi r0 Hin0) as [L0 C0].
  exists r0. split; [exact Hin0|]. split; [now rewrite Hl, L0|].
  intros c Hc. unfold derived. rewrite Hpsi by assumption.
  rewrite <- C0. now apply cell_of_columns.
Qed.

(** C6: with the input file absent, or with price or part unresolved, the
    run prints its diagnostic, ends with [sys.exit(1)] and has written no
    file.  Past these two gates the run never calls [sys.exit]: it writes
    the cleaned table and the top-20 extract whatever else resolved; for an
    unresolved optional column it prints the skip notice and leaves the
    dependent extract out; every row of the cleaned output is a row of the
    loaded table in which a text of a numeric column that does not parse
    has become a missing number (no such row is kept for its price), the
    other columns being as the text cleaning left them; after the skip
    points the run goes on: it draws the price histogram and, the
    histograms drawn, announces the manifest and lists the cleaned CSV.
    It ends normally only when the histograms are drawn and the table has
    the seven columns that the extra analytics block reads, and it does so
    when these are numeric where the block computes.  One of the seven is
    [Cost]: when the optional cost column is unresolved, the run, after
    all it has omitted and written, ends with an exception that nothing
    catches and with exit status 1. *)
Theorem C6_fatal_and_nonfatal (folder : list (string * artifact)) :
  (lookup file_name folder = None ->
   fst (run folder) = SystemExit 1 /\
   exit_status (fst (run folder)) <> 0%Z /\
   written (snd (run folder)) = [] /\
   In [T "ERROR: Excel file not found in project folder:"; T file_name]
      (stdout (snd (run folder)))) /\
  (forall df0,
     lookup file_name folder = Some (Workbook df0) ->
     price (resolve (strip_text df0)) = None \/ part (resolve (strip_text df0)) = None ->
     fst (run folder) = SystemExit 1 /\
     exit_status (fst (run folder)) <> 0%Z /\
     written (snd (run folder)) = [] /\
     In [T "ERROR: Required column(s) missing (price or part). Please check column names and run again."]
        (stdout (snd (run folder)))) /\
  (forall df0 pr pa,
     lookup file_name folder = Some (Workbook df0) ->
     price (resolve (strip_text df0)) = Some pr ->
     part (resolve (strip_text df0)) = Some pa ->
     let d := strip_text df0 in
     let cm := resolve d in
     let df := derived df0 pr pa in
     (forall c, fst (run folder) <> SystemExit c) /\
     In (clean_name, Csv df) (written (snd (run folder))) /\
     In ("top20_by_revenue.csv", Csv (top_revenue df)) (written (snd (run folder))) /\
     (competitor_price cm = None ->
      In skip_overpriced (stdout (snd (run folder))) /\
      ~ exists a, In ("parts_overpriced_gt10pct.csv", a) (written (snd (run folder)))) /\
     (cost cm = None \/ units cm = None ->
      In skip_low_margin (stdout (snd (run folder))) /\
      ~ exists a, In ("low_margin_high_sales.csv", a) (written (snd (run folder)))) /\
     (rectangular df0 ->
      forall r, In r (rows df) ->
        isna (cell_of df pr r) = false /\
        exists r0, In r0 (rows d) /\ label r0 = label r /\
          (forall c s, numeric_role cm c = true -> cell_of d c r0 = Str s ->
             to_float s = None -> isna (cell_of df c r) = true) /\
          (forall c, numeric_role cm c = false -> ~ In c derived_names ->
             cell_of df c r = cell_of d c r0)) /\
     (hist_ok (hist_data df pr) = true ->
      In ("chart_price_distribution.png", Png (hist_data df pr))
         (written (snd (run folder)))) /\
     (charts_ok cm pr df = true ->
      In all_done (stdout (snd (run folder))) /\
      In [T " -"; T clean_name] (stdout (snd (run folder)))) /\
     (fst (run folder) = Ok tt ->
      charts_ok cm pr df = true /\ forallb (has_col df) analytics_names = true) /\
     (charts_ok cm pr df = true -> analytics_ready df = true ->
      fst (run folder) = Ok tt) /\
     (cost cm = None ->
      exit_status (fst (run folder)) = 1%Z /\ exists e, fst (run folder) = Uncaught e)).
Proof.
  split; [|split].
  - intros H. rewrite (run_missing folder H). cbn [fst snd written stdout exit_status].
    repeat split; [discriminate|simpl; tauto].
  - intros df0 H Hm. destruct (run_unresolved folder df0 H Hm) as [out [E _]].
    rewrite E. cbn [fst snd written stdout exit_status].
    repeat split; [discriminate|now left].
  - intros df0 pr pa H Hp Ha d cm df.
    destruct (run_resolved folder df0 pr pa H Hp Ha) as [out [E _]].
    destruct (run_report folder df0 pr pa H Hp Ha) as [out2 [_ [_ E2]]].
    cbv zeta in E2. fold d cm df in E2.
    set (w2 := World folder (chart_files cm pr df ++ exported cm df) out2) in E2.
    assert (Lc : lookup clean_name (written w2) = Some (Csv df)) by apply lookup_clean.
    assert (X : forall name a, ~ side_name name ->
                  (In (name, a) (written (snd (run folder))) <-> In (name, a) (exported cm df))).
    { intros name a Hn. now apply run_exported. }
    assert (S : forall name, In name ["parts_overpriced_gt10pct.csv"; clean_name;
                                      "top20_by_revenue.csv"; "low_margin_high_sales.csv"]
                             -> ~ side_name name).
    { intros name Hn Hs. apply side_name_exported in Hs. simpl in Hn.
      destruct Hn as [<-|[<-|[<-|[<-|[]]]]]; tauto. }
    assert (NE : forall c, fst (run folder) <> SystemExit c).
    { rewrite E. apply keeps_report. }
    assert (OK : fst (run folder) = Ok tt <->
                 charts_ok cm pr df = true /\ forallb (has_col df) analytics_names = true).
    { rewrite E2. destruct (charts_ok cm pr df) eqn:Hc.
      - destruct (forallb (has_col df) analytics_names) eqn:Hh.
        + rewrite (manifest_complete df w2 Hh). cbn [fst]. tauto.
        + rewrite (manifest_stops df w2 _ Lc Hh).
          destruct (extra_analytics_incomplete df (World [] [] []) Hh) as [k [w' Q]].
          rewrite Q. cbn [fst]. split; [discriminate|]. intros [_ K]. discriminate K.
      - cbn [fst]. split; [discriminate|]. intros [K _]. discriminate K. }
    split; [exact NE|].
    split; [apply X; [apply S; simpl; tauto|]; apply exported_lookup; tauto|].
    split; [apply X; [apply S; simpl; tauto|]; apply exported_lookup; tauto|].
    split; [|split; [|split; [|split; [|split; [|split; [apply OK|split]]]]]].
    + intros Hc. split.
      * rewrite E. now apply report_notices.
      * intros [a Hin]. apply X in Hin; [|apply S; simpl; tauto].
        apply exported_lookup in Hin.
        destruct Hin as [[Hn _]|[[_ [Hc' _]]|[[Hn _]|[Hn _]]]];
          try discriminate Hn. contradiction.
    + intros Hc. split.
      * rewrite E. now apply report_notices.
      * intros [a Hin]. apply X in Hin; [|apply S; simpl; tauto].
        apply exported_lookup in Hin.
        destruct Hin as [[_ [co [un [Hco [Hun _]]]]]|[[Hn _]|[[Hn _]|[Hn _]]]];
          try discriminate Hn. destruct Hc; congruence.
    + intros Hr r Hin. split.
      * destruct (derive_keeps cm pr (cleaned df0 pr pa) (rectangular_cleaned df0 pr pa Hr))
          as [psi [Hrows [_ Hpsi]]].
        unfold df, derived in Hin. fold d cm in Hin. rewrite Hrows in Hin.
        apply in_map_iff in Hin. destruct Hin as [r1 [<- Hin1]].
        unfold df, derived. fold d cm. rewrite Hpsi.
        -- now apply present_cleaned.
        -- exact Hin1.
        -- apply numeric_not_derived. apply (resolve_numeric d pr). auto.
      * destruct (derived_rows df0 pr pa Hr r Hin) as [r0 [Hin0 [Hl F]]].
        fold d cm df in F. exists r0. split; [exact Hin0|]. split; [exact Hl|]. split.
        -- intros c s Hc Hs Hf.
           assert (Nc : ~ In c derived_names).
           { apply numeric_role_spec in Hc.
             apply (resolve_numeric d) in Hc. apply numeric_not_derived, Hc. }
           rewrite (F c Nc), Hc, Hs. simpl. now rewrite Hf.
        -- intros c Hc Nc. now rewrite (F c Nc), Hc.
    + intros Hh.
      assert (Hin : In ("chart_price_distribution.png", Png (hist_data df pr)) (written w2)).
      { unfold w2. cbn [written]. apply in_or_app. left. unfold chart_files.
        apply in_or_app. right. rewrite Hh. now left. }
      rewrite E2. destruct (charts_ok cm pr df); [|exact Hin].
      eapply grows_written; [apply (keeps_manifest df w2)|exact Hin].
    + intros Hc. rewrite E2, Hc. exact (manifest_listed df w2 _ Lc).
    + intros Hc Hr. apply OK. split; [exact Hc|]. now apply analytics_ready_columns.
    + intros Hco.
      assert (Hh : forallb (has_col df) analytics_names = false).
      { assert (K : has_col df "Cost" = false).
        { unfold df. rewrite has_col_derived, <- (has_col_strip_text df0). fold d.
          unfold cm, resolve in Hco. cbn [cost find_col] in Hco.
          destruct (has_col d "Cost"); [discriminate Hco|reflexivity]. }
        cbn [forallb analytics_names]. rewrite K. now rewrite !andb_false_r. }
      assert (NO : fst (run folder) <> Ok tt).
      { intros F. apply OK in F. destruct F as [_ F]. congruence. }
      clear OK. destruct (fst (run folder)) as [[]|c|e].
      * now destruct NO.
      * now destruct (NE c).
      * split; [reflexivity|now exists e].
Qed.

End Conditions.

(** ** The extra analytics block and the exit status *)

Section ExtraAnalytics.
Context {R : Runtime}.

(** C2, as the code has it: the extra analytics block (its first
    statement prints the banner of line 150) is entered exactly on the
    runs that pass both gates and draw their histograms: the manifest loop
    finds the cleaned CSV that line 84 has just written.  Runs that stop
    at a gate, or on a histogram, never enter it. *)
Theorem C2_extra_analytics_reached (folder : list (string * artifact)) :
  In extra_banner (stdout (snd (run folder))) <->
  exists df0 pr pa,
    lookup file_name folder = Some (Workbook df0) /\
    price (resolve (strip_text df0)) = Some pr /\
    part (resolve (strip_text df0)) = Some pa /\
    charts_ok (resolve (strip_text df0)) pr (derived df0 pr pa) = true.
Proof.
  split.
  - intros Hin.
    destruct (lookup file_name folder) as [a|] eqn:H.
    + destruct a as [df0|d|d].
      * destruct (price (resolve (strip_text df0))) as [pr|] eqn:Hp.
        -- destruct (part (resolve (strip_text df0))) as [pa|] eqn:Ha.
           ++ destruct (charts_ok (resolve (strip_text df0)) pr (derived df0 pr pa)) eqn:Hc.
              ** exists df0, pr, pa. auto.
              ** exfalso. destruct (run_resolved folder df0 pr pa H Hp Ha) as [out [E Ho]].
                 destruct (report_charts_fail (resolve (strip_text df0)) pr
                             (derived df0 pr pa) (World folder [] out) Hc Ho)
                   as [msg [w2 [E2 Q]]].
                 rewrite E, E2 in Hin. cbn [snd] in Hin.
                 rewrite Forall_forall in Q. now apply (Q _ Hin).
           ++ exfalso. destruct (run_unresolved folder df0 H (or_intror Ha)) as [out [E Ho]].
              rewrite E in Hin. cbn [snd stdout] in Hin. destruct Hin as [Hin|Hin].
              ** discriminate Hin.
              ** rewrite Forall_forall in Ho. now apply (Ho _ Hin).
        -- exfalso. destruct (run_unresolved folder df0 H (or_introl Hp)) as [out [E Ho]].
           rewrite E in Hin. cbn [snd stdout] in Hin. destruct Hin as [Hin|Hin].
           ++ discriminate Hin.
           ++ rewrite Forall_forall in Ho. now apply (Ho _ Hin).
      * exfalso. destruct (run_unreadable folder (Csv d) H) as [msg E]; [discriminate|].
        rewrite E in Hin. exact Hin.
      * exfalso. destruct (run_unreadable folder (Png d) H) as [msg E]; [discriminate|].
        rewrite E in Hin. exact Hin.
    + exfalso. rewrite (run_missing folder H) in Hin. cbn [snd stdout] in Hin.
      destruct Hin as [Hin|[Hin|[]]]; discriminate Hin.
  - intros [df0 [pr [pa [H [Hp [Ha Hc]]]]]].
    destruct (run_resolved folder df0 pr pa H Hp Ha) as [out [E Ho]].
    destruct (report_charts_ok (resolve (strip_text df0)) pr
                (derived df0 pr pa) (World folder [] out) Hc Ho)
      as [w2 [E2 [[a Hl] _]]].
    rewrite E, E2. eapply manifest_banner; eauto.
Qed.

(** C1, what the code does where the claim expects status 0: on a table
    without a [Brand] column both gates pass and the outputs are written,
    then the block entered from the manifest loop raises [KeyError] at
    line 153 (or a histogram raised before it); the process ends with
    status 1. *)
Theorem C1_exit_status_without_brand (folder : list (string * artifact)) (df0 : frame)
        (pr pa : string) :
  lookup file_name folder = Some (Workbook df0) ->
  price (resolve (strip_text df0)) = Some pr ->
  part (resolve (strip_text df0)) = Some pa ->
  has_col df0 "Brand" = false ->
  exit_status (fst (run folder)) = 1%Z /\
  In (clean_name, Csv (derived df0 pr pa)) (written (snd (run folder))) /\
  (charts_ok (resolve (strip_text df0)) pr (derived df0 pr pa) = true ->
   fst (run folder) = Uncaught (KeyError "Brand")).
Proof.
  intros H Hp Ha Hb.
  destruct (run_resolved folder df0 pr pa H Hp Ha) as [out [E Ho]].
  assert (Hb' : has_col (derived df0 pr pa) "Brand" = false).
  { rewrite has_col_derived, Hb. reflexivity. }
  assert (K : charts_ok (resolve (strip_text df0)) pr (derived df0 pr pa) = true ->
              fst (run folder) = Uncaught (KeyError "Brand")).
  { intros Hc.
    destruct (report_charts_ok (resolve (strip_text df0)) pr
                (derived df0 pr pa) (World folder [] out) Hc Ho)
      as [w2 [E2 [[a Hl] _]]].
    rewrite E, E2. eapply manifest_brand; eauto. }
  split; [|split; [|exact K]].
  - destruct (charts_ok (resolve (strip_text df0)) pr (derived df0 pr pa)) eqn:Hc.
    + now rewrite K.
    + destruct (report_charts_fail (resolve (strip_text df0)) pr
                  (derived df0 pr pa) (World folder [] out) Hc Ho)
        as [msg [w2 [E2 _]]].
      now rewrite E, E2.
  - apply (run_exported folder df0 pr pa); auto.
    + intros Hs. apply side_name_exported in Hs. tauto.
    + apply exported_lookup. tauto.
Qed.

End ExtraAnalytics.

Lemma C6_witness :
  fst (@run small_runtime []) = SystemExit 1 /\
  written (snd (@run small_runtime [])) = [] /\
  cost (resolve (@strip_text small_runtime costless_parts)) = None /\
  In skip_low_margin (stdout (snd (@run small_runtime costless_folder))) /\
  In all_done (stdout (snd (@run small_runtime costless_folder))) /\
  fst (@run small_runtime costless_folder) = Uncaught (KeyError "Cost") /\
  exit_status (fst (@run small_runtime costless_folder)) = 1%Z /\
  units (resolve (@strip_text small_runtime branded_parts)) = None /\
  In skip_low_margin (stdout (snd (@run small_runtime branded_folder))) /\
  fst (@run small_runtime branded_folder) = Ok tt /\
  map (fun r => (label r,
                 cell_of (@derived small_runtime unparsed_parts "Price" "Part_Name") "Cost" r,
                 cell_of (@derived small_runtime unparsed_parts "Price" "Part_Name") "Margin" r))
      (rows (@derived small_runtime unparsed_parts "Price" "Part_Name"))
  = [(0, Num 80, Num 40); (1, Num nan, Num nan)].
Proof.
  destruct (@C6_fatal_and_nonfatal small_runtime []) as [A _].
  destruct (A eq_refl) as [A1 [_ [A2 _]]].
  destruct (@C6_fatal_and_nonfatal small_runtime costless_folder) as [_ [_ K]].
  destruct (K costless_parts "Price" "Part_Name" eq_refl eq_refl eq_refl)
    as [_ [_ [_ [_ [K1 [_ [_ [K2 [_ [_ K3]]]]]]]]]].
  destruct (@C6_fatal_and_nonfatal small_runtime branded_folder) as [_ [_ B]].
  destruct (B branded_parts "Price" "Part_Name" eq_refl eq_refl eq_refl)
    as [_ [_ [_ [_ [B1 [_ [_ [_ [_ [B2 _]]]]]]]]]].
  exact (conj A1 (conj A2 (conj eq_refl
          (conj (proj1 (K1 (or_introl eq_refl)))
            (conj (proj1 (K2 eq_refl))
              (conj eq_refl
                (conj (proj1 (K3 eq_refl))
                  (conj eq_refl
                    (conj (proj1 (B1 (or_intror eq_refl)))
                      (conj (B2 eq_refl eq_refl) eq_refl)))))))))).
Defined.

(** C2 as stated fails on [quoted_folder]: the run prints the banner of
    the block and stops inside it, at line 153. *)
Lemma C2_counterexample :
  In (@extra_banner) (stdout (snd (@run small_runtime quoted_folder))) /\
  fst (@run small_runtime quoted_folder) = Uncaught (KeyError "Brand").
Proof.
  split; [|vm_compute; reflexivity].
  vm_compute. repeat (first [left; reflexivity|right]).
Qed.

Lemma C1_witness :
  lookup (@file_name) quoted_folder = Some (Workbook quoted_parts) /\
  has_col quoted_parts "Brand" = false /\
  exit_status (fst (@run small_runtime quoted_folder)) = 1%Z.
Proof.
  split; [reflexivity|]. split; [reflexivity|].
  exact (proj1 (@C1_exit_status_without_brand small_runtime quoted_folder quoted_parts
                  "Price" "Part_Name" eq_refl eq_refl eq_refl eq_refl)).
Defined.

(** * Further properties of the script *)

(** ** Column resolution *)

(** X1: [find_col] returns the first of the names it is given that is a
    column of the table: every name before it is not a column; it returns
    [None] exactly when none of the names is a column. *)
Theorem find_col_first_match (df : frame) (possible_names : list string) :
  (forall c, find_col df possible_names = Some c <->
     exists earlier later,
       possible_names = earlier ++ c :: later /\
       has_col df c = true /\
       forall x, In x earlier -> has_col df x = false) /\
  (find_col df possible_names = None <->
     forall x, In x possible_names -> has_col df x = false).
Proof.
  induction possible_names as [|n l [IH1 IH2]]; simpl.
  - split.
    + intros c. split; [discriminate|].
      intros [e [la [H _]]]. destruct e; discriminate.
    + split; [intros _ x []|reflexivity].
  - destruct (has_col df n) eqn:E.
    + split.
      * intros c. split.
        -- intros [= <-]. exists [], l. repeat split; auto. intros x [].
        -- intros [e [la [H [Hc He]]]]. destruct e as [|y e].
           ++ simpl in H. now inversion H.
           ++ simpl in H. inversion H; subst.
              rewrite (He y (or_introl eq_refl)) in E. discriminate.
      * split; [discriminate|]. intros H. rewrite (H n (or_introl eq_refl)) in E.
        discriminate.
    + split.
      * intros c. rewrite IH1. split.
        -- intros [e [la [-> [Hc He]]]]. exists (n :: e), la.
           repeat split; auto. intros x [<-|Hx]; auto.
        -- intros [e [la [H [Hc He]]]]. destruct e as [|y e].
           ++ simpl in H. inversion H; subst. congruence.
           ++ simpl in H. inversion H; subst. exists e, la.
              repeat split; auto. intros x Hx. apply He. now right.
      * rewrite IH2. split.
        -- intros H x [<-|Hx]; auto.
        -- intros H x Hx. apply H. now right.
Qed.

Section Roles.
Context {R : Runtime}.

(** A resolved role names a column of the table, taken from the
    candidates of that role. *)
Lemma roles_in (df : frame) (i : nat) (c : string) :
  nth_error (roles (resolve df)) i = Some (Some c) ->
  has_col df c = true /\
  In c (nth i [["Price"; "price"; "Unit_Price"];
               ["Competitor_Price"; "competitor_price"; "Comp_Price"; "Competitor price"];
               ["Cost"; "cost"; "Unit_Cost"];
               ["Units_Sold"; "Units"; "Quantity"; "units_sold"];
               ["Part_Name"; "Part"; "Part_ID"; "PartName"]] []).
Proof.
  unfold roles, resolve. cbn [price competitor_price cost units part].
  do 5 (destruct i as [|i];
        [cbn [nth_error nth]; intros H;
         apply (f_equal (fun o => match o with Some x => x | None => None end)) in H;
         cbv beta iota in H; apply find_col_in in H; tauto|]).
  destruct i; discriminate.
Qed.

(** X2: every role that resolves names a column of the loaded table, which
    is still a column of the table the outputs are taken from; and no two
    roles resolve to the same column. *)
Theorem resolved_roles_apart (df0 : frame) (pr pa : string) :
  let cm := resolve (strip_text df0) in
  (forall o c, In o (roles cm) -> o = Some c ->
     has_col df0 c = true /\ has_col (derived df0 pr pa) c = true) /\
  (forall i j c, i < j ->
     nth_error (roles cm) i = Some (Some c) ->
     nth_error (roles cm) j <> Some (Some c)).
Proof.
  intros cm. split.
  - intros o c Hin ->. apply In_nth_error in Hin. destruct Hin as [i Hi].
    apply roles_in in Hi. destruct Hi as [Hc _].
    rewrite has_col_strip_text in Hc. rewrite has_col_derived, Hc. auto.
  - intros i j c Hij Hi Hj. apply roles_in in Hi. apply roles_in in Hj.
    destruct Hi as [_ Hi]. destruct Hj as [_ Hj].
    do 5 (destruct i as [|i];
          [do 5 (destruct j as [|j];
                 [try lia; simpl in Hi, Hj; intuition (subst; discriminate)|]);
           destruct j; simpl in Hj; tauto|]).
    destruct i; simpl in Hi; tauto.
Qed.

End Roles.

(** ** The text cleaning, once more *)

Lemma string_of_list_app (l1 l2 : list ascii) :
  string_of_list_ascii (l1 ++ l2)
  = (string_of_list_ascii l1 ++ string_of_list_ascii l2)%string.
Proof. induction l1 as [|a l1 IH]; simpl; [reflexivity|now rewrite IH]. Qed.

Lemma list_of_string_app (s t : string) :
  list_ascii_of_string (s ++ t)%string
  = list_ascii_of_string s ++ list_ascii_of_string t.
Proof. induction s as [|a s IH]; simpl; [reflexivity|now rewrite IH]. Qed.

Section Strip.
Context {R : Runtime}.

Lemma reverse_involutive (s : string) : reverse (reverse s) = s.
Proof.
  unfold reverse. rewrite list_ascii_of_string_of_list_ascii, rev_involutive.
  apply string_of_list_ascii_of_string.
Qed.

Lemma reverse_app (s t : string) : reverse (s ++ t)%string = (reverse t ++ reverse s)%string.
Proof.
  unfold reverse. now rewrite list_of_string_app, rev_app_distr, string_of_list_app.
Qed.

Lemma lstrip_clean (s : string) : starts_clean s = true -> lstrip s = s.
Proof.
  destruct s as [|a [|b [|c r]]]; simpl; try reflexivity;
    rewrite ?andb_true_iff, ?negb_true_iff; intros H;
    repeat match goal with K : _ /\ _ |- _ => destruct K end;
    repeat match goal with K : _ = false |- _ => rewrite K; clear K end; reflexivity.
Qed.

Lemma lstrip_reversed_clean (s : string) :
  starts_clean_reversed s = true -> lstrip_reversed s = s.
Proof.
  destruct s as [|a [|b [|c r]]]; simpl; try reflexivity;
    rewrite ?andb_true_iff, ?negb_true_iff; intros H;
    repeat match goal with K : _ /\ _ |- _ => destruct K end;
    repeat match goal with K : _ = false |- _ => rewrite K; clear K end; reflexivity.
Qed.

(** What [lstrip] returns is the end of its argument and starts with no
    whitespace. *)
Lemma lstrip_spec (s : string) :
  starts_clean (lstrip s) = true /\ exists u, s = (u ++ lstrip s)%string.
Proof.
  assert (G : forall n s, String.length s <= n ->
                starts_clean (lstrip s) = true /\ exists u, s = (u ++ lstrip s)%string).
  { clear s. induction n as [|n IH]; intros s Hs.
    - destruct s; simpl in Hs; [|lia]. split; [reflexivity|now exists EmptyString].
    - destruct s as [|a r1]; [split; [reflexivity|now exists EmptyString]|].
      simpl in Hs. cbn [lstrip]. destruct (is_space a) eqn:E1.
      { destruct (IH r1) as [C [u Hu]]; [lia|]. split; [exact C|].
        exists (String a u). simpl. now rewrite <- Hu. }
      destruct r1 as [|b r2].
      { split; [simpl; now rewrite E1|now exists EmptyString]. }
      simpl in Hs. destruct (is_space2 a b) eqn:E2.
      { destruct (IH r2) as [C [u Hu]]; [lia|]. split; [exact C|].
        exists (String a (String b u)). simpl. now rewrite <- Hu. }
      destruct r2 as [|c r3].
      { split; [simpl; now rewrite E1, E2|now exists EmptyString]. }
      simpl in Hs. destruct (is_space3 a b c) eqn:E3.
      { destruct (IH r3) as [C [u Hu]]; [lia|]. split; [exact C|].
        exists (String a (String b (String c u))). simpl. now rewrite <- Hu. }
      split; [simpl; now rewrite E1, E2, E3|now exists EmptyString]. }
  now apply (G (String.length s)).
Qed.

Lemma lstrip_reversed_spec (s : string) :
  starts_clean_reversed (lstrip_reversed s) = true /\
  exists u, s = (u ++ lstrip_reversed s)%string.
Proof.
  assert (G : forall n s, String.length s <= n ->
                starts_clean_reversed (lstrip_reversed s) = true /\
                exists u, s = (u ++ lstrip_reversed s)%string).
  { clear s. induction n as [|n IH]; intros s Hs.
    - destruct s; simpl in Hs; [|lia]. split; [reflexivity|now exists EmptyString].
    - destruct s as [|a r1]; [split; [reflexivity|now exists EmptyString]|].
      simpl in Hs. cbn [lstrip_reversed]. destruct (is_space a) eqn:E1.
      { destruct (IH r1) as [C [u Hu]]; [lia|]. split; [exact C|].
        exists (String a u). simpl. now rewrite <- Hu. }
      destruct r1 as [|b r2].
      { split; [simpl; now rewrite E1|now exists EmptyString]. }
      simpl in Hs. destruct (is_space2 b a) eqn:E2.
      { destruct (IH r2) as [C [u Hu]]; [lia|]. split; [exact C|].
        exists (String a (String b u)). simpl. now rewrite <- Hu. }
      destruct r2 as [|c r3].
      { split; [simpl; now rewrite E1, E2|now exists EmptyString]. }
      simpl in Hs. destruct (is_space3 c b a) eqn:E3.
      { destruct (IH r3) as [C [u Hu]]; [lia|]. split; [exact C|].
        exists (String a (String b (String c u))). simpl. now rewrite <- Hu. }
      split; [simpl; now rewrite E1, E2, E3|now exists EmptyString]. }
  now apply (G (String.length s)).
Qed.

Lemma lstrip_idempotent (s : string) : lstrip (lstrip s) = lstrip s.
Proof. apply lstrip_clean, lstrip_spec. Qed.

(** The start of a string that starts with no whitespace does so too. *)
Lemma starts_clean_prefix (p u : string) :
  starts_clean (p ++ u)%string = true -> starts_clean p = true.
Proof.
  destruct p as [|a [|b [|c r]]]; simpl; try reflexivity;
    rewrite ?andb_true_iff; intros H;
    repeat match goal with K : _ /\ _ |- _ => destruct K end;
    repeat split; try assumption; try reflexivity.
Qed.

(** [rstrip] returns the start of its argument. *)
Lemma rstrip_prefix (s : string) : exists u, s = (rstrip s ++ u)%string.
Proof.
  unfold rstrip. destruct (lstrip_reversed_spec (reverse s)) as [_ [u Hu]].
  exists (reverse u). rewrite <- reverse_app, <- Hu. now rewrite reverse_involutive.
Qed.

Lemma lstrip_rstrip (s : string) : lstrip (rstrip (lstrip s)) = rstrip (lstrip s).
Proof.
  apply lstrip_clean. destruct (rstrip_prefix (lstrip s)) as [u Hu].
  apply (starts_clean_prefix _ u). rewrite <- Hu. apply lstrip_spec.
Qed.

Lemma rstrip_idempotent (s : string) : rstrip (rstrip s) = rstrip s.
Proof.
  unfold rstrip. rewrite reverse_involutive. f_equal.
  apply lstrip_reversed_clean, lstrip_reversed_spec.
Qed.

Lemma strip_idempotent (s : string) : strip (strip s) = strip s.
Proof. unfold strip. now rewrite lstrip_rstrip, rstrip_idempotent. Qed.

(** Line 29 changes nothing in a column that holds stripped text. *)
Lemma strip_step_fixed (d : frame) (c : string) :
  rectangular d -> dtype_of d c = Some object ->
  (forall r, In r (rows d) -> exists s, cell_of d c r = Str s /\ strip s = s) ->
  strip_step d c = d.
Proof.
  intros Hr Hd Hc. unfold strip_step, assign.
  pose proof (has_col_dtype d c) as Hh. rewrite Hd in Hh.
  unfold has_col in Hh. rewrite position_has in Hh.
  destruct (position c (names d)) as [i|] eqn:E; [|discriminate].
  destruct d as [cols rs]. cbn [columns rows] in *. f_equal.
  - apply set_nth_same. now apply position_lookup.
  - rewrite <- (map_id rs) at 2. apply map_ext_in. intros r Hin.
    destruct (Hc r Hin) as [s [Es Hs]]. rewrite Es. cbn [astype_str]. rewrite Hs.
    destruct r as [l cs]. cbn [label cells]. f_equal.
    apply set_nth_same.
    unfold cell_of, names in Es. cbn [columns cells] in Es. unfold names in E.
    cbn [columns] in E. rewrite E in Es.
    unfold rectangular in Hr. rewrite Forall_forall in Hr. specialize (Hr _ Hin).
    cbn [cells columns] in Hr.
    apply position_bound in E. rewrite length_map in E.
    rewrite <- Es. apply nth_error_nth'. lia.
Qed.


End Strip.


(** ** The numeric coercion *)

Section Coerce.
Context {R : Runtime}.


End Coerce.


(** ** Duplicate removal, once more *)

Section Reshaping.
Context {R : Runtime}.

Lemma keep_first_fixed (above rs : list row) :
  no_duplicates rs ->
  Forall (fun r => existsb (fun s => row_same s r) above = false) rs ->
  keep_first above rs = rs.
Proof.
  revert above. induction rs as [|r rs IH]; intros above Hn Ha; [reflexivity|].
  simpl. inversion Ha as [|? ? Hr Ha']; subst. rewrite Hr.
  inversion Hn as [|? ? Hrs Hn']; subst.
  f_equal. apply IH; [exact Hn'|].
  rewrite Forall_forall in *. intros s Hs. simpl.
  rewrite (Hrs s Hs). apply Ha'. exact Hs.
Qed.

Lemma keep_first_length (above rs : list row) :
  length (keep_first above rs) <= length rs.
Proof.
  revert above. induction rs as [|r rs IH]; intros above; simpl; [lia|].
  destruct (existsb _ above); simpl; specialize (IH (r :: above)); lia.
Qed.

(** X5: [drop_duplicates] on a table it has already been through removes
    nothing more: the table comes back as it is, labels included. *)
Theorem drop_duplicates_idempotent (df : frame) :
  drop_duplicates (drop_duplicates df) = drop_duplicates df.
Proof.
  unfold drop_duplicates. cbn [rows columns]. f_equal.
  apply keep_first_fixed.
  - apply keep_first_distinct.
  - apply Forall_forall. intros r _. reflexivity.
Qed.

(** ** The header of the cleaned output *)

(** X6: the header of the table that the outputs are taken from is the
    header of the loaded table, followed by those of Price_diff,
    Price_pct_diff, Margin and Revenue_calc, in this order, that the loaded
    table did not have already. *)
Theorem derived_header (df0 : frame) (pr pa : string) :
  names (derived df0 pr pa) =
  names df0 ++ filter (fun n => negb (has_col df0 n)) derived_names.
Proof.
  assert (H : forall c, has_col (cleaned df0 pr pa) c = has_col df0 c).
  { intros c. unfold has_col. now rewrite names_cleaned. }
  unfold derived. rewrite derive_assigns. cbv zeta.
  repeat rewrite ?names_assign, ?has_col_assign.
  rewrite !H, names_cleaned. unfold derived_names.
  cbn [filter String.eqb Ascii.eqb Bool.eqb orb].
  destruct (has_col df0 "Price_diff"), (has_col df0 "Price_pct_diff"),
    (has_col df0 "Margin"), (has_col df0 "Revenue_calc");
    cbn [negb orb app]; rewrite <- ?app_assoc, ?app_nil_r; reflexivity.
Qed.

End Reshaping.

(** ** The extracts, once more *)

Lemma filter_all {A : Type} (f : A -> bool) (l : list A) :
  (forall x, In x l -> f x = true) -> filter f l = l.
Proof.
  induction l as [|x l IH]; intros H; [reflexivity|]. simpl.
  rewrite (H x (or_introl eq_refl)). f_equal. apply IH. intros y Hy. apply H. now right.
Qed.

Lemma filter_none {A : Type} (f : A -> bool) (l : list A) :
  (forall x, In x l -> f x = false) -> filter f l = [].
Proof.
  induction l as [|x l IH]; intros H; [reflexivity|]. simpl.
  rewrite (H x (or_introl eq_refl)). apply IH. intros y Hy. apply H. now right.
Qed.

Lemma SFnan_true (a : spec_float) : SFnan a = true -> a = S754_nan.
Proof. destruct a; simpl; congruence. Qed.

(** NaN goes through the arithmetic of lines 77-79. *)
Lemma div_nan_r (a b : f64) : is_nan b = true -> is_nan (a / b)%float = true.
Proof.
  rewrite !is_nan_spec, div_spec. intros H. apply SFnan_true in H. rewrite H.
  destruct (Prim2SF a); reflexivity.
Qed.

Lemma mul_nan_l (a b : f64) : is_nan a = true -> is_nan (a * b)%float = true.
Proof.
  rewrite !is_nan_spec, mul_spec. intros H. apply SFnan_true in H. rewrite H.
  reflexivity.
Qed.

Lemma sub_nan_r (a b : f64) : is_nan b = true -> is_nan (a - b)%float = true.
Proof.
  rewrite !is_nan_spec, sub_spec. intros H. apply SFnan_true in H. rewrite H.
  destruct (Prim2SF a); reflexivity.
Qed.

Lemma number_of_num (c : cell) :
  (forall n, c <> Int n) -> is_nan (num c) = false -> is_number c = true.
Proof.
  destruct c; simpl; intros Hc H; try discriminate; [now rewrite H|now destruct (Hc n)].
Qed.

Section ExtractsMore.
Context {R : Runtime} {L : RuntimeLaws R}.

(** With every key missing there is nothing to sort: the rows stay as
    they are. *)
Lemma nargsort_all_missing (ks : list cell) (ascending : bool) :
  forallb isna ks = true -> nargsort ks ascending = seq 0 (length ks).
Proof.
  intros H. unfold nargsort.
  assert (A : forall i, In i (seq 0 (length ks)) -> isna (nth i ks NA) = true).
  { intros i Hi. apply in_seq in Hi. rewrite forallb_forall in H.
    apply H, nth_In. lia. }
  rewrite filter_none, filter_all; [|exact A|intros i Hi; now rewrite A].
  assert (E3 : argsort (@nil cell) = []).
  { apply Permutation_nil. apply Permutation_sym. exact (argsort_perm []). }
  destruct ascending; cbn [rev map]; rewrite E3; reflexivity.
Qed.



End ExtractsMore.



(** ** The run, line by line *)

Section RunMore.
Context {R : Runtime}.

(** X9: on a table that has the columns of the extra analytics block, the
    manifest loop ends normally; it lists exactly those of its six names
    that exist when it runs, whether this run wrote them or they were in
    the folder already, in the order of the list, and it runs the block,
    which rewrites top10_profitable_parts.csv, once for each listed
    file. *)
Theorem manifest_lists_existing_files (df : frame) (w : world) :
  analytics_ready df = true ->
  let listed := filter (exists_in w) manifest_names in
  manifest df w =
  (Ok tt,
   World (disk w)
     (repeat ("top10_profitable_parts.csv", Csv (top_profit_parts df)) (length listed)
      ++ written w)
     (flat_map block_lines (rev listed) ++ all_done :: stdout w)) /\
  (forall f, In [T " -"; T f] (stdout (snd (manifest df w))) <->
             In [T " -"; T f] (stdout w) \/
             (In f manifest_names /\ exists_in w f = true)).
Proof.
  intros H listed. apply analytics_ready_columns in H.
  pose proof (manifest_complete df w H) as E. fold listed in E.
  split; [exact E|]. intros f. rewrite E. cbn [snd stdout].
  rewrite in_app_iff, in_flat_map. split.
  - intros [[x [Hx Hl]]|[Hl|Hl]].
    + apply in_block_lines in Hl. destruct Hl as [Hl|Hl].
      * exfalso. simpl in Hl.
        repeat (destruct Hl as [Hl|Hl]; [discriminate Hl|]). exact Hl.
      * inversion Hl; subst. right. apply in_rev in Hx. unfold listed in Hx.
        apply filter_In in Hx. exact Hx.
    + discriminate Hl.
    + now left.
  - intros [Hl|[Hf He]].
    + right. now right.
    + left. exists f. split.
      * apply in_rev. rewrite rev_involutive. unfold listed. apply filter_In. auto.
      * apply in_block_lines. now right.
Qed.

(** X10: whatever the folder holds, a run writes files under seven names
    only: the six of the manifest and top10_profitable_parts.csv; it never
    writes to the input workbook. *)
Theorem run_writes_known_names (folder : list (string * artifact)) :
  Forall (fun p => In (fst p) (manifest_names ++ ["top10_profitable_parts.csv"]) /\
                   fst p <> file_name)
         (written (snd (run folder))).
Proof.
  apply Forall_forall. intros [name a] Hin. cbn [fst].
  assert (K : In name (manifest_names ++ ["top10_profitable_parts.csv"])).
  { destruct (run_written_gates folder _ Hin) as [df0 [pr [pa [H [Hp Ha]]]]].
    destruct (run_written folder df0 pr pa H Hp Ha) as [later [E Hl]].
    rewrite E in Hin. apply in_app_or in Hin. destruct Hin as [Hin|Hin].
    - rewrite Forall_forall in Hl. specialize (Hl _ Hin). simpl in Hl.
      destruct Hl as [[->| ->]| ->]; simpl; tauto.
    - apply exported_lookup in Hin.
      destruct Hin as [[-> _]|[[-> _]|[[-> _]|[-> _]]]]; simpl; tauto. }
  split; [exact K|]. intros ->. simpl in K.
  repeat (destruct K as [K|K]; [discriminate K|]). exact K.
Qed.

(** X11: every run that reads a workbook prints the diagnostics of lines
    22-61 first, in the order of the script, also when it then stops at the
    guard of line 64; the count it prints with "Removed duplicates" and the
    rows that are left add up to the rows loaded. *)
Theorem diagnostics_printed (folder : list (string * artifact)) (df0 : frame) :
  lookup file_name folder = Some (Workbook df0) ->
  (exists later, stdout (snd (run folder)) = later ++ diagnostics df0) /\
  (exists dropped,
     In [T (nl ++ "Removed duplicates: "); N dropped; T " rows dropped"]
        (stdout (snd (run folder))) /\
     dropped + length (rows (prepare df0)) = length (rows df0)).
Proof.
  intros H.
  assert (A : exists later, stdout (snd (run folder)) = later ++ diagnostics df0).
  { destruct (price (resolve (strip_text df0))) as [pr|] eqn:Hp;
      [destruct (part (resolve (strip_text df0))) as [pa|] eqn:Ha|].
    - destruct (run_resolved folder df0 pr pa H Hp Ha) as [o [E _]].
      pose proof (run_lines folder df0 H) as E'. rewrite Hp, Ha in E'.
      destruct (keeps_report (resolve (strip_text df0)) pr (derived df0 pr pa)
                  (World folder []
                     ([T "Rows after dropping missing key fields:";
                       N (length (rows (cleaned df0 pr pa)))] :: diagnostics df0)))
        as [[_ [_ [out [O _]]]] _].
      rewrite <- E' in O. rewrite O. cbn [stdout].
      exists (out ++ [[T "Rows after dropping missing key fields:";
                       N (length (rows (cleaned df0 pr pa)))]]).
      now rewrite <- app_assoc.
    - rewrite (run_lines folder df0 H), Hp, Ha. cbn [snd stdout].
      now exists [[T "ERROR: Required column(s) missing (price or part). Please check column names and run again."]].
    - rewrite (run_lines folder df0 H), Hp. cbn [snd stdout].
      now exists [[T "ERROR: Required column(s) missing (price or part). Please check column names and run again."]]. }
  split; [exact A|].
  exists (length (rows (coerce (resolve (strip_text df0)) (strip_text df0)))
          - length (rows (prepare df0))).
  split.
  - destruct A as [later ->]. apply in_or_app. right. unfold diagnostics. now left.
  - assert (E : length (rows (coerce (resolve (strip_text df0)) (strip_text df0)))
                = length (rows df0)).
    { rewrite <- (length_map label (rows (coerce _ _))), labels_coerce, labels_strip_text.
      apply length_map. }
    assert (B : length (rows (prepare df0))
                <= length (rows (coerce (resolve (strip_text df0)) (strip_text df0)))).
    { unfold prepare, drop_duplicates. cbn [rows]. apply keep_first_length. }
    lia.
Qed.

(** X12: when a histogram cannot be drawn the run ends there with an
    uncaught [ValueError], status 1: the CSV extracts written before it
    stay written (with the price chart, if it was the other one that
    failed), nothing is rolled back, and the manifest of lines 140-171 is
    never printed. *)
Theorem run_histogram_failure (folder : list (string * artifact)) (df0 : frame)
        (pr pa : string) :
  lookup file_name folder = Some (Workbook df0) ->
  price (resolve (strip_text df0)) = Some pr ->
  part (resolve (strip_text df0)) = Some pa ->
  let cm := resolve (strip_text df0) in
  let df := derived df0 pr pa in
  charts_ok cm pr df = false ->
  (exists msg, fst (run folder) = Uncaught (ValueError msg)) /\
  exit_status (fst (run folder)) = 1%Z /\
  written (snd (run folder)) = chart_files cm pr df ++ exported cm df /\
  In (clean_name, Csv df) (written (snd (run folder))) /\
  In ("top20_by_revenue.csv", Csv (top_revenue df)) (written (snd (run folder))) /\
  ~ In all_done (stdout (snd (run folder))) /\
  ~ In extra_banner (stdout (snd (run folder))).
Proof.
  intros H Hp Ha cm df Hc.
  destruct (run_report folder df0 pr pa H Hp Ha) as [out [F [_ E]]].
  cbv zeta in E. fold cm df in E. rewrite Hc in E. rewrite E. cbn [fst snd written stdout].
  split; [eexists; reflexivity|]. split; [reflexivity|]. split; [reflexivity|].
  rewrite Forall_forall in F.
  split; [|split; [|split]].
  - apply in_or_app. right. apply exported_lookup. tauto.
  - apply in_or_app. right. apply exported_lookup. tauto.
  - intros K. destruct (F _ K) as [N _]. now apply N.
  - intros K. destruct (F _ K) as [_ [N _]]. now apply N.
Qed.

(** X13: on a table without a Brand column the manifest stops after its
    first line: the last three lines printed are the heading, the name of
    the cleaned CSV and the banner of the block; no other output is ever
    listed and top10_profitable_parts.csv is not written. *)
Theorem manifest_cut_without_brand (folder : list (string * artifact)) (df0 : frame)
        (pr pa : string) :
  lookup file_name folder = Some (Workbook df0) ->
  price (resolve (strip_text df0)) = Some pr ->
  part (resolve (strip_text df0)) = Some pa ->
  let cm := resolve (strip_text df0) in
  let df := derived df0 pr pa in
  charts_ok cm pr df = true ->
  has_col df0 "Brand" = false ->
  (exists out,
     stdout (snd (run folder)) = extra_banner :: [T " -"; T clean_name] :: all_done :: out /\
     Forall before_manifest out) /\
  written (snd (run folder)) = chart_files cm pr df ++ exported cm df.
Proof.
  intros H Hp Ha cm df Hc Hb.
  destruct (run_report folder df0 pr pa H Hp Ha) as [out [F [_ E]]].
  cbv zeta in E. fold cm df in E. rewrite Hc in E.
  assert (Hb' : has_col df "Brand" = false).
  { unfold df. rewrite has_col_derived, Hb. reflexivity. }
  assert (X : run folder =
              (Uncaught (KeyError "Brand"),
               World folder (chart_files cm pr df ++ exported cm df)
                     (extra_banner :: [T " -"; T clean_name] :: all_done :: out))).
  { rewrite E, manifest_unfold. unfold bind at 1.
    rewrite (manifest_entry_found df clean_name _ (Csv df))
      by (cbn [written]; apply lookup_clean).
    unfold extra_analytics, extra_body, bind, print, require. cbn [disk written stdout].
    rewrite Hb'. reflexivity. }
  rewrite X. cbn [snd stdout written]. split; [|reflexivity].
  exists out. auto.
Qed.

Lemma has_col_analytics (df0 : frame) (pr pa : string) :
  forallb (has_col (derived df0 pr pa)) analytics_names
  = forallb (has_col df0) analytics_names.
Proof.
  cbn [forallb analytics_names]. rewrite !has_col_derived. cbn.
  now rewrite !orb_false_r.
Qed.

(** X14: the script ends with status 0 only if it read a workbook, price
    and part resolved, both histograms were drawn, and the loaded table has
    every column that the extra analytics block reads: Brand, Revenue,
    Region, Gross_Margin_%, Profit, Cost and Price. *)
Theorem exit_zero_needs_analytics_columns (folder : list (string * artifact)) :
  exit_status (fst (run folder)) = 0%Z ->
  exists df0 pr pa,
    lookup file_name folder = Some (Workbook df0) /\
    price (resolve (strip_text df0)) = Some pr /\
    part (resolve (strip_text df0)) = Some pa /\
    charts_ok (resolve (strip_text df0)) pr (derived df0 pr pa) = true /\
    forall c, In c analytics_names -> has_col df0 c = true.
Proof.
  intros Hz. destruct (lookup file_name folder) as [a|] eqn:H.
  - destruct a as [df0|d|d].
    + pose proof (run_lines folder df0 H) as E.
      destruct (price (resolve (strip_text df0))) as [pr|] eqn:Hp;
        [destruct (part (resolve (strip_text df0))) as [pa|] eqn:Ha|];
        try (rewrite E in Hz; discriminate Hz).
      clear E. destruct (run_report folder df0 pr pa H Hp Ha) as [out [F [_ E]]].
      cbv zeta in E.
      destruct (charts_ok (resolve (strip_text df0)) pr (derived df0 pr pa)) eqn:Hc;
        [|rewrite E in Hz; discriminate Hz].
      exists df0, pr, pa. repeat split; auto.
      destruct (forallb (has_col df0) analytics_names) eqn:Hall.
      * rewrite forallb_forall in Hall. exact Hall.
      * exfalso. rewrite <- (has_col_analytics df0 pr pa) in Hall.
        rewrite E, manifest_unfold in Hz. unfold bind at 1 in Hz.
        rewrite (manifest_entry_found _ clean_name _ (Csv (derived df0 pr pa))) in Hz
          by (cbn [written]; apply lookup_clean).
        match type of Hz with context [extra_analytics ?d ?w] =>
          destruct (extra_analytics_incomplete d w Hall) as [k [w' X]]; rewrite X in Hz
        end.
        discriminate Hz.
    + destruct (run_unreadable folder (Csv d) H) as [msg E]; [discriminate|].
      rewrite E in Hz. discriminate Hz.
    + destruct (run_unreadable folder (Png d) H) as [msg E]; [discriminate|].
      rewrite E in Hz. discriminate Hz.
  - rewrite (run_missing folder H) in Hz. discriminate Hz.
Qed.

Lemma present_derived (df0 : frame) (pr pa : string) (r : row) :
  well_formed df0 ->
  price (resolve (strip_text df0)) = Some pr ->
  In r (rows (derived df0 pr pa)) ->
  isna (cell_of (derived df0 pr pa) pr r) = false.
Proof.
  intros Hw Hp Hin. pose proof (typed_cleaned df0 pr pa Hw) as [Hrect _].
  unfold derived in *.
  destruct (derive_keeps (resolve (strip_text df0)) pr (cleaned df0 pr pa) Hrect)
    as [psi [Hrows [_ Hpsi]]].
  rewrite Hrows in Hin. apply in_map_iff in Hin. destruct Hin as [r0 [<- Hin]].
  rewrite Hpsi; auto.
  - now apply present_cleaned.
  - apply numeric_not_derived. apply (resolve_numeric (strip_text df0) pr). auto.
Qed.

Lemma dtype_of_derived_price (df0 : frame) (pr pa : string) :
  price (resolve (strip_text df0)) = Some pr ->
  dtype_of (derived df0 pr pa) pr = Some float64.
Proof.
  intros Hp.
  assert (Hn : ~ In pr derived_names).
  { apply numeric_not_derived. apply (resolve_numeric (strip_text df0) pr). auto. }
  unfold derived. rewrite derive_assigns. cbv zeta. rewrite !dtype_of_assign.
  assert (E : forall n, In n derived_names -> String.eqb pr n = false).
  { intros n Hin. apply String.eqb_neq. intros ->. contradiction. }
  rewrite !E by (simpl; tauto).
  unfold cleaned, prepare, dropna, select, drop_duplicates, dtype_of. cbn [columns].
  fold (dtype_of (coerce (resolve (strip_text df0)) (strip_text df0)) pr).
  unfold coerce. rewrite Hp.
  destruct (units _), (cost _), (competitor_price _); cbn [coerce_col];
    rewrite ?dtype_of_assign, ?String.eqb_refl;
    repeat match goal with |- context [String.eqb pr ?x] => destruct (String.eqb pr x) end;
    reflexivity.
Qed.

Lemma price_is_number (df0 : frame) (pr pa : string) (r : row) :
  well_formed df0 ->
  price (resolve (strip_text df0)) = Some pr ->
  In r (rows (derived df0 pr pa)) ->
  is_number (cell_of (derived df0 pr pa) pr r) = true.
Proof.
  intros Hw Hp Hin.
  pose proof (present_derived df0 pr pa r Hw Hp Hin) as Hna.
  destruct (typed_derived df0 pr pa Hw) as [_ Ht].
  specialize (Ht r pr float64 Hin (dtype_of_derived_price df0 pr pa Hp)).
  destruct (cell_of (derived df0 pr pa) pr r); simpl in *; try discriminate.
  now rewrite Hna.
Qed.


Lemma manifest_outcome (df : frame) (w w' : world) (a a' : artifact) :
  lookup clean_name (written w) = Some a ->
  lookup clean_name (written w') = Some a' ->
  fst (manifest df w) = fst (manifest df w') /\
  exists tops tops',
    written (snd (manifest df w)) = tops ++ written w /\
    written (snd (manifest df w')) = tops' ++ written w' /\
    Forall (fun p => top10_name (fst p)) tops /\
    Forall (fun p => top10_name (fst p)) tops'.
Proof.
  intros H H'. split.
  - destruct (forallb (has_col df) analytics_names) eqn:E.
    + now rewrite !manifest_complete.
    + now rewrite (manifest_stops df w a H E), (manifest_stops df w' a' H' E).
  - destruct (keeps_manifest df w) as [[_ [[tops [Ht Hn]] _]] _].
    destruct (keeps_manifest df w') as [[_ [[tops' [Ht' Hn']] _]] _].
    exists tops, tops'. auto.
Qed.

Lemma run_not_a_workbook (folder : list (string * artifact)) (a : artifact) :
  lookup file_name folder = Some a ->
  (forall df0, a <> Workbook df0) ->
  run folder =
  (Uncaught (ValueError "Excel file format cannot be determined"), World folder [] []).
Proof.
  intros H Hn. unfold run, script, load, bind, path_exists, read_excel, print.
  step. rewrite H. step. rewrite ?H. step.
  destruct a as [df0| |]; [now destruct (Hn df0)| |]; reflexivity.
Qed.

(** X16: the outcome of a run and the files it writes depend on the
    workbook alone, not on what else the folder holds: two folders with the
    same workbook give the same outcome and the same files, apart from how
    often top10_profitable_parts.csv is rewritten. *)
Theorem rerun_writes_same_files (folder folder' : list (string * artifact)) :
  lookup file_name folder = lookup file_name folder' ->
  fst (run folder) = fst (run folder') /\
  exists files tops tops',
    written (snd (run folder)) = tops ++ files /\
    written (snd (run folder')) = tops' ++ files /\
    Forall (fun p => top10_name (fst p)) tops /\
    Forall (fun p => top10_name (fst p)) tops'.
Proof.
  intros Hl.
  destruct (lookup file_name folder) as [a|] eqn:H.
  - symmetry in Hl. destruct a as [df0|d|d].
    + destruct (price (resolve (strip_text df0))) as [pr|] eqn:Hp;
        [destruct (part (resolve (strip_text df0))) as [pa|] eqn:Ha|].
      * destruct (run_report folder df0 pr pa H Hp Ha) as [o [_ [_ E]]].
        destruct (run_report folder' df0 pr pa Hl Hp Ha) as [o' [_ [_ E']]].
        cbv zeta in E, E'. rewrite E, E'.
        destruct (charts_ok (resolve (strip_text df0)) pr (derived df0 pr pa)).
        -- destruct (manifest_outcome (derived df0 pr pa)
                       (World folder (chart_files (resolve (strip_text df0)) pr (derived df0 pr pa)
                                      ++ exported (resolve (strip_text df0)) (derived df0 pr pa)) o)
                       (World folder' (chart_files (resolve (strip_text df0)) pr (derived df0 pr pa)
                                      ++ exported (resolve (strip_text df0)) (derived df0 pr pa)) o')
                       (Csv (derived df0 pr pa)) (Csv (derived df0 pr pa)))
             as [F [tops [tops' K]]]; try (cbn [written]; apply lookup_clean).
           split; [exact F|]. cbn [written] in K. eauto.
        -- split; [reflexivity|]. exists (chart_files (resolve (strip_text df0)) pr (derived df0 pr pa)
                                      ++ exported (resolve (strip_text df0)) (derived df0 pr pa)), [], [].
           cbn [snd written app]. auto.
      * destruct (run_unresolved folder df0 H (or_intror Ha)) as [o [E _]].
        destruct (run_unresolved folder' df0 Hl (or_intror Ha)) as [o' [E' _]].
        rewrite E, E'. cbn [fst snd written]. split; [reflexivity|].
        exists [], [], []. auto.
      * destruct (run_unresolved folder df0 H (or_introl Hp)) as [o [E _]].
        destruct (run_unresolved folder' df0 Hl (or_introl Hp)) as [o' [E' _]].
        rewrite E, E'. cbn [fst snd written]. split; [reflexivity|].
        exists [], [], []. auto.
    + rewrite (run_not_a_workbook folder (Csv d) H), (run_not_a_workbook folder' (Csv d) Hl)
        by discriminate.
      cbn [fst snd written]. split; [reflexivity|]. exists [], [], []. auto.
    + rewrite (run_not_a_workbook folder (Png d) H), (run_not_a_workbook folder' (Png d) Hl)
        by discriminate.
      cbn [fst snd written]. split; [reflexivity|]. exists [], [], []. auto.
  - symmetry in Hl. rewrite (run_missing folder H), (run_missing folder' Hl).
    cbn [fst snd written]. split; [reflexivity|]. exists [], [], []. auto.
Qed.
End RunMore.

Section Completes.
Context {R : Runtime} {L : RuntimeLaws R}.


End Completes.

(** ** The properties above on concrete folders *)

Lemma diagnostics_printed_witness :
  lookup (@file_name) quoted_folder = Some (Workbook quoted_parts) /\
  exists later, stdout (snd (@run small_runtime quoted_folder))
                = later ++ @diagnostics small_runtime quoted_parts.
Proof.
  split; [reflexivity|].
  exact (proj1 (@diagnostics_printed small_runtime quoted_folder quoted_parts eq_refl)).
Defined.


Lemma run_histogram_failure_witness :
  lookup (@file_name) zero_folder = Some (Workbook zero_competitor) /\
  @charts_ok small_runtime (resolve (@strip_text small_runtime zero_competitor)) "Price"
             (@derived small_runtime zero_competitor "Price" "Part_Name") = false /\
  exit_status (fst (@run small_runtime zero_folder)) = 1%Z.
Proof.
  split; [reflexivity|]. split; [reflexivity|].
  exact (proj1 (proj2 (@run_histogram_failure small_runtime zero_folder zero_competitor
                         "Price" "Part_Name" eq_refl eq_refl eq_refl eq_refl))).
Defined.

Lemma manifest_cut_without_brand_witness :
  lookup (@file_name) quoted_folder = Some (Workbook quoted_parts) /\
  has_col quoted_parts "Brand" = false /\
  written (snd (@run small_runtime quoted_folder))
  = @chart_files small_runtime (resolve (@strip_text small_runtime quoted_parts)) "Price"
      (@derived small_runtime quoted_parts "Price" "Part_Name")
    ++ @exported small_runtime (resolve (@strip_text small_runtime quoted_parts))
         (@derived small_runtime quoted_parts "Price" "Part_Name").
Proof.
  split; [reflexivity|]. split; [reflexivity|].
  exact (proj2 (@manifest_cut_without_brand small_runtime quoted_folder quoted_parts
                  "Price" "Part_Name" eq_refl eq_refl eq_refl eq_refl eq_refl)).
Defined.

Lemma exit_zero_needs_analytics_columns_witness :
  exit_status (fst (@run small_runtime branded_folder)) = 0%Z /\
  exists df0 pr pa,
    lookup (@file_name) branded_folder = Some (Workbook df0) /\
    price (resolve (@strip_text small_runtime df0)) = Some pr /\
    part (resolve (@strip_text small_runtime df0)) = Some pa /\
    @charts_ok small_runtime (resolve (@strip_text small_runtime df0)) pr
               (@derived small_runtime df0 pr pa) = true /\
    forall c, In c analytics_names -> has_col df0 c = true.
Proof.
  assert (E : exit_status (fst (@run small_runtime branded_folder)) = 0%Z)
    by (vm_compute; reflexivity).
  split; [exact E|].
  exact (@exit_zero_needs_analytics_columns small_runtime branded_folder E).
Defined.

Lemma manifest_lists_existing_files_witness :
  analytics_ready (@derived small_runtime branded_parts "Price" "Part_Name") = true /\
  filter (exists_in
            (World branded_folder
               [(@clean_name, Csv (@derived small_runtime branded_parts "Price" "Part_Name"))]
               []))
         (@manifest_names)
  = [@clean_name; "parts_overpriced_gt10pct.csv"] /\
  In [T " -"; T "parts_overpriced_gt10pct.csv"]
     (stdout (snd (@manifest small_runtime
                     (@derived small_runtime branded_parts "Price" "Part_Name")
                     (World branded_folder
                        [(@clean_name,
                          Csv (@derived small_runtime branded_parts "Price" "Part_Name"))]
                        [])))).
Proof.
  split; [reflexivity|]. split; [reflexivity|].
  apply (proj2 (@manifest_lists_existing_files small_runtime
                  (@derived small_runtime branded_parts "Price" "Part_Name")
                  (World branded_folder
                     [(@clean_name,
                       Csv (@derived small_runtime branded_parts "Price" "Part_Name"))]
                     [])
                  eq_refl)
           "parts_overpriced_gt10pct.csv").
  right. split; [simpl; tauto|reflexivity].
Defined.


Lemma rerun_writes_same_files_witness :
  lookup (@file_name) quoted_folder
  = lookup (@file_name) (quoted_folder ++ [("top20_by_revenue.csv", Csv quoted_parts)]) /\
  fst (@run small_runtime quoted_folder)
  = fst (@run small_runtime (quoted_folder ++ [("top20_by_revenue.csv", Csv quoted_parts)])).
Proof.
  split; [reflexivity|].
  exact (proj1 (@rerun_writes_same_files small_runtime quoted_folder
                  (quoted_folder ++ [("top20_by_revenue.csv", Csv quoted_parts)]) eq_refl)).
Defined.
